(** * Octant resource printers (package [printer])

    A shallow embedding of the Job, Secret and ReplicationController
    printers of Octant's overview module, together with the properties
    their specification states about them.

    Conventions of the embedding:
    - a Go pointer [*T] is an [option T] ([None] is [nil]); dereferencing
      [nil] is the outcome [Panicked nil_pointer_dereference];
    - a Go function returning [(T, error)] returns a [result T]:
      [Return x] is [return x, nil] and [Fail err] is [return nil, err];
    - a Go [map[string]V] read by the printers is a [gmap string V]
      (a [nil] map reads like the empty map);
    - [int32] and [int] values are integers of [Z]; the printers only
      format them;
    - a [for _, x := range slice] loop with an early [return nil, err] is
      the combinator [for_range]; a [for k := range m] loop over a Go map
      visits the keys in an order the language leaves unspecified, which
      is the relation [map_range]. *)

From stdpp Require Import gmap strings list fin_maps pretty.
From Stdlib Require Import ZArith.

Set Warnings "-register-all".

(** ** Errors and outcomes *)

Module store.
(** [store.Key] as the printers fill it in. *)
Record Key := mkKey {
  Namespace : string;
  APIVersion : string;
  Kind : string;
}.
End store.

(** Error values: [errors.New], [errors.Wrap] and [errors.Wrapf] of
    github.com/pkg/errors.  The only [Wrapf] of the printers formats a
    store key. *)
Inductive error :=
| errors_New (message : string)
| errors_Wrap (cause : error) (message : string)
| errors_Wrapf (cause : error) (format : string) (arg : store.Key).

Inductive panic :=
| nil_pointer_dereference
| index_out_of_range.

Inductive result (A : Type) :=
| Return (a : A)
| Fail (err : error)
| Panicked (p : panic).

Arguments Return {A} a.
Arguments Fail {A} err.
Arguments Panicked {A} p.

#[export] Instance result_ret : MRet result := fun A x => Return x.

#[export] Instance result_bind : MBind result := fun A B f m =>
  match m with
  | Return a => f a
  | Fail err => Fail err
  | Panicked p => Panicked p
  end.

#[export] Instance result_fmap : FMap result := fun A B f m =>
  match m with
  | Return a => Return (f a)
  | Fail err => Fail err
  | Panicked p => Panicked p
  end.

(** [*p] for a pointer [p]. *)
Definition deref {A} (p : option A) : result A :=
  match p with
  | Some a => Return a
  | None => Panicked nil_pointer_dereference
  end.

(** [for _, x := range items { s, err = body(s, x); if err != nil { return nil, err } }] *)
Fixpoint for_range {A S} (items : list A) (body : S → A → result S) (s : S) : result S :=
  match items with
  | [] => Return s
  | x :: rest => s' ← body s x; for_range rest body s'
  end.

(** The orders in which [for k := range m] may visit the keys of a Go map:
    every key once, in any order. *)
Definition map_range {V} (m : gmap string V) (keys : list string) : Prop :=
  keys ≡ₚ elements (dom m).

(** [fmt.Sprintf("%d", n)]. *)
Definition fmt_d (n : Z) : string := pretty n.

(** ** View components (package [component]) *)

Module component.

Definition Time := Z.

Inductive Selector :=
| LabelSelector (key value : string).

Record TableOf (C : Type) := mkTable {
  Title : string;
  Placeholder : string;
  Columns : list string;
  Rows : list (gmap string C);
}.
Arguments mkTable {C}.
Arguments Title {C}.
Arguments Placeholder {C}.
Arguments Columns {C}.
Arguments Rows {C}.

Record SummarySectionOf (C : Type) := mkSection {
  Header : string;
  Content : C;
}.
Arguments mkSection {C}.
Arguments Header {C}.
Arguments Content {C}.

Record SummaryOf (C : Type) := mkSummary {
  SummaryTitle : string;
  Sections : list (SummarySectionOf C);
}.
Arguments mkSummary {C}.
Arguments SummaryTitle {C}.
Arguments Sections {C}.

(** Modelled from the spec: the display components of package
    [component] (pkg/view/component, not part of the sources at hand)
    are the "simple immutable value trees" of the data model; each
    constructor [NewX] is the value it builds. *)
Inductive Component :=
| Text (text : string)
| Timestamp (t : Time)
| Link (title text ref : string)
| Labels (labels : gmap string string)
| Containers (containers : list (string * string))
| Selectors (selectors : list Selector)
| CTable (table : TableOf Component)
| CSummary (summary : SummaryOf Component).

Abbreviation Table := (TableOf Component).
Abbreviation TableRow := (gmap string Component).
Abbreviation SummarySection := (SummarySectionOf Component).
Abbreviation SummarySections := (list (SummarySectionOf Component)).
Abbreviation Summary := (SummaryOf Component).

Definition NewTableCols (names : list string) : list string := names.

Definition NewTable (title placeholder : string) (cols : list string) : Table :=
  mkTable title placeholder cols [].

(** Modelled from the spec: [Table.Add] (pkg/view/component) appends the
    row after the rows already in the table ("N rows in input order"). *)
Definition Add (t : Table) (row : TableRow) : Table :=
  mkTable (Title t) (Placeholder t) (Columns t) (Rows t ++ [row]).

Definition NewSummary (title : string) (sections : SummarySections) : Summary :=
  mkSummary title sections.

(** Modelled from the spec: [SummarySections.Add] and [AddText]
    (pkg/view/component) append a section after those already there
    ("summary sections are ordered as authored"). *)
Definition SectionsAdd (sections : SummarySections) (header : string) (view : Component)
  : SummarySections :=
  sections ++ [mkSection header view].

Definition SectionsAddText (sections : SummarySections) (header text : string)
  : SummarySections :=
  SectionsAdd sections header (Text text).

Definition NewContainers : Component := Containers [].

Definition ContainersAdd (c : Component) (name image : string) : Component :=
  match c with
  | Containers cs => Containers (cs ++ [(name, image)])
  | other => other
  end.

Definition headers (s : Summary) : list string := Header <$> Sections s.

End component.
Import component.

(** ** Kubernetes API objects, as far as the printers read them *)

Record OwnerReference := mkOwnerReference {
  ref_APIVersion : string;
  ref_Kind : string;
  ref_Name : string;
  ref_Controller : option bool;
}.

Record ObjectMeta := mkObjectMeta {
  Name : string;
  Namespace : string;
  ObjLabels : gmap string string;
  CreationTimestamp : Time;
  OwnerReferences : list OwnerReference;
}.

Record Container := mkContainer {
  ContainerName : string;
  Image : string;
}.

Record PodTemplateSpec := mkPodTemplateSpec {
  PodContainers : list Container;
}.

Record JobCondition := mkJobCondition {
  cond_Type : string;
  cond_Status : string;
  LastProbeTime : Time;
  LastTransitionTime : Time;
  Reason : string;
  Message : string;
}.

Record JobSpec := mkJobSpec {
  Parallelism : option Z;
  Completions : option Z;
  BackoffLimit : option Z;
  JobTemplate : PodTemplateSpec;
}.

Record JobStatus := mkJobStatus {
  Conditions : list JobCondition;
  StartTime : option Time;
  CompletionTime : option Time;
  Succeeded : Z;
}.

Record Job := mkJob {
  JobMeta : ObjectMeta;
  JobSpec_ : JobSpec;
  JobStatus_ : JobStatus;
}.

Record JobList := mkJobList { JobItems : list Job }.

Record Secret := mkSecret {
  SecretMeta : ObjectMeta;
  SecretType : string;
  Data : gmap string (list Byte.byte);
}.

Record SecretList := mkSecretList { SecretItems : list Secret }.

Record ReplicationControllerSpec := mkRCSpec {
  Replicas : option Z;
  Selector : gmap string string;
  Template : option PodTemplateSpec;
}.

Record ReplicationControllerStatus := mkRCStatus {
  StatusReplicas : Z;
  AvailableReplicas : Z;
  ReadyReplicas : Z;
}.

Record ReplicationController := mkRC {
  RCMeta : ObjectMeta;
  RCSpec : ReplicationControllerSpec;
  RCStatus : ReplicationControllerStatus;
}.

Record ReplicationControllerList := mkRCList { RCItems : list ReplicationController }.

(** A [runtime.Object] handed to the injected interfaces: a pointer to one
    of the typed objects. *)
Inductive Object :=
| ObjJob (job : option Job)
| ObjSecret (secret : option Secret)
| ObjRC (rc : option ReplicationController).

(** ** Printer options: the injected link builder and object store *)

Record LinkInterface := mkLink {
  ForObject : Object → string → result Component;
  ForOwner : Object → OwnerReference → result Component;
}.

Record Store (U : Type) := mkStore {
  List : store.Key → result (list U);
}.
Arguments mkStore {U}.
Arguments List {U}.

Record Options (U : Type) := mkOptions {
  DisableLabels : bool;
  Link : LinkInterface;
  ObjectStore : Store U;
}.
Arguments mkOptions {U}.
Arguments DisableLabels {U}.
Arguments Link {U}.
Arguments ObjectStore {U}.

(** ** The printers *)

Section Printers.

(** The type of [unstructured.Unstructured] items returned by the store. *)
Context {U : Type}.

(** Functions of the repository and of its libraries that the printers
    call and whose sources are not at hand; they are parameters of the
    development.  [PtrInt32ToString] is internal/conversion,
    [printSelectorMap], [createPodListView], [copyObjectMeta] and the
    [Object] printer behind [ToComponent] are package [printer],
    [FromUnstructured] is apimachinery's default converter and the
    [accessor_] functions are the methods of [meta.NewAccessor()]. *)
Variable PtrInt32ToString : option Z → string.
Variable printSelectorMap : gmap string string → Component.
Variable createPodListView : Object → Options U → result Component.
Variable FromUnstructured : U → result Job.
Variable copyObjectMeta : Job → U → result Job.
Variable accessor_Namespace : Object → result string.
Variable accessor_APIVersion : Object → result string.
Variable accessor_Kind : Object → result string.
Variable accessor_Name : Object → result string.

(** *** job.go *)

Definition JobCols : list string :=
  NewTableCols ["Name"; "Labels"; "Completions"; "Successful"; "Age"].

(** Body of the loop of [JobListHandler] after the link was built. *)
Definition JobRow (nameLink : Component) (job : Job) : TableRow :=
  let row : TableRow := ∅ in
  let row := <["Name" := nameLink]> row in
  let row := <["Labels" := Labels (ObjLabels (JobMeta job))]> row in
  let row := <["Completions" := Text (PtrInt32ToString (Completions (JobSpec_ job)))]> row in
  let succeeded := fmt_d (Succeeded (JobStatus_ job)) in
  let row := <["Successful" := Text succeeded]> row in
  let row := <["Age" := Timestamp (CreationTimestamp (JobMeta job))]> row in
  row.

Definition JobListHandler (list : option JobList) (opts : Options U) : result Component :=
  match list with
  | None => Fail (errors_New "job list is nil")
  | Some list =>
    let table := NewTable "Jobs" "We couldn't find any jobs!" JobCols in
    table ← for_range (JobItems list) (λ table job,
      nameLink ← ForObject (Link opts) (ObjJob (Some job)) (Name (JobMeta job));
      Return (Add table (JobRow nameLink job))) table;
    Return (CTable table)
  end.

Definition createJobConfiguration (job : Job) : result Summary :=
  let sections : SummarySections := [] in
  let sections := SectionsAdd sections "Back Off Limit"
                    (Text (PtrInt32ToString (BackoffLimit (JobSpec_ job)))) in
  let sections := SectionsAdd sections "Completions"
                    (Text (PtrInt32ToString (Completions (JobSpec_ job)))) in
  let sections := SectionsAdd sections "Parallelism"
                    (Text (PtrInt32ToString (Parallelism (JobSpec_ job)))) in
  let summary := NewSummary "Configuration" sections in
  Return summary.

Definition createJobStatus (job : Job) : result Summary :=
  let sections : SummarySections := [] in
  let sections :=
    match StartTime (JobStatus_ job) with
    | Some startTime => SectionsAdd sections "Started" (Timestamp startTime)
    | None => sections
    end in
  let sections :=
    match CompletionTime (JobStatus_ job) with
    | Some completionTime => SectionsAdd sections "Completed" (Timestamp completionTime)
    | None => sections
    end in
  let sections := SectionsAdd sections "Succeeded"
                    (Text (fmt_d (Succeeded (JobStatus_ job)))) in
  let summary := NewSummary "Status" sections in
  Return summary.

Definition JobConditionRow (condition : JobCondition) : TableRow :=
  let row : TableRow := ∅ in
  let row := <["Type" := Text (cond_Type condition)]> row in
  let row := <["Last Probe" := Timestamp (LastProbeTime condition)]> row in
  let row := <["Last Transition" := Timestamp (LastTransitionTime condition)]> row in
  let row := <["Status" := Text (cond_Status condition)]> row in
  let row := <["Message" := Text (Message condition)]> row in
  let row := <["Reason" := Text (Reason condition)]> row in
  row.

Definition createJobConditions (conditions : list JobCondition) : result Table :=
  let cols := NewTableCols ["Type"; "Last Probe"; "Last Transition";
                            "Status"; "Message"; "Reason"] in
  let table := NewTable "Conditions" "There are no job conditions!" cols in
  table ← for_range conditions (λ table condition,
    Return (Add table (JobConditionRow condition))) table;
  Return table.

(** The [Object] printer of package [printer] as the handlers fill it in:
    [NewObject] records the object, the [Register] and [Enable] methods
    record their argument, and [ToComponent] (a parameter) renders it. *)
Inductive Width := WidthQuarter | WidthFull.

(** [Func] is a closure called by the [Object] printer; it is given by
    the outcomes a call of it may have. *)
Record ItemDescriptor := mkItem {
  Func : result Component → Prop;
  ItemWidth : Width;
}.

Record ObjectPrinter := mkObjectPrinter {
  object : Object;
  config : option Summary;
  summary : option Summary;
  items : list ItemDescriptor;
  podTemplate : option PodTemplateSpec;
  events : bool;
}.

Variable ToComponent : ObjectPrinter → Options U → result Component.

Definition NewObject (o : Object) : ObjectPrinter :=
  mkObjectPrinter o None None [] None false.
Definition RegisterConfig (o : ObjectPrinter) (s : Summary) : ObjectPrinter :=
  mkObjectPrinter (object o) (Some s) (summary o) (items o) (podTemplate o) (events o).
Definition RegisterSummary (o : ObjectPrinter) (s : Summary) : ObjectPrinter :=
  mkObjectPrinter (object o) (config o) (Some s) (items o) (podTemplate o) (events o).
Definition RegisterItems (o : ObjectPrinter) (item : ItemDescriptor) : ObjectPrinter :=
  mkObjectPrinter (object o) (config o) (summary o) (items o ++ [item]) (podTemplate o) (events o).
Definition EnablePodTemplate (o : ObjectPrinter) (t : PodTemplateSpec) : ObjectPrinter :=
  mkObjectPrinter (object o) (config o) (summary o) (items o) (Some t) (events o).
Definition EnableEvents (o : ObjectPrinter) : ObjectPrinter :=
  mkObjectPrinter (object o) (config o) (summary o) (items o) (podTemplate o) true.

(** [JobHandler] has no nil check: [*job] is evaluated for the call of
    [createJobConfiguration]. *)
Definition JobHandler (job : option Job) (opts : Options U) : result Component :=
  let o := NewObject (ObjJob job) in
  job_val ← deref job;
  configSummary ← createJobConfiguration job_val;
  job_val' ← deref job;
  statusSummary ← createJobStatus job_val';
  let o := RegisterConfig o configSummary in
  let o := RegisterSummary o statusSummary in
  let o := EnablePodTemplate o (JobTemplate (JobSpec_ job_val)) in
  let o := RegisterItems o (mkItem
             (λ r, r = createPodListView (ObjJob job) opts) WidthFull) in
  let o := RegisterItems o (mkItem
             (λ r, r = CTable <$> createJobConditions (Conditions (JobStatus_ job_val)))
             WidthFull) in
  let o := EnableEvents o in
  ToComponent o opts.

(** [if err != nil { return nil, errors.Wrap(err, message) }] *)
Definition wrap {A} (r : result A) (message : string) : result A :=
  match r with
  | Return a => Return a
  | Fail err => Fail (errors_Wrap err message)
  | Panicked p => Panicked p
  end.

(** [if err != nil { return nil, errors.Wrapf(err, format, key) }] *)
Definition wrapf {A} (r : result A) (format : string) (key : store.Key) : result A :=
  match r with
  | Return a => Return a
  | Fail err => Fail (errors_Wrapf err format key)
  | Panicked p => Panicked p
  end.

(** The condition of the inner loop of [createJobListView]. *)
Definition ownerMatches (apiVersion kind name : string) (ownerReference : OwnerReference) : bool :=
  bool_decide (ref_APIVersion ownerReference = apiVersion)
  && bool_decide (ref_Kind ownerReference = kind)
  && bool_decide (ref_Name ownerReference = name).

(** The key [createJobListView] lists with. *)
Definition jobListKey (namespace : string) : store.Key :=
  store.mkKey namespace "batch/v1beta1" "Job".

(** The loop [for i := range list.Items] of [createJobListView]. *)
Definition ownedJobs (apiVersion kind name : string) (list : list U) (jobList : JobList)
  : result JobList :=
  for_range list (λ jobList item,
    job ← FromUnstructured item;
    job ← wrap (copyObjectMeta job item) "copy object metadata";
    Return (foldl (λ jobList ownerReference,
              if ownerMatches apiVersion kind name ownerReference
              then mkJobList (JobItems jobList ++ [job])
              else jobList)
            jobList (OwnerReferences (JobMeta job)))) jobList.

Definition createJobListView (object : Object) (options : Options U) : result Component :=
  let options := mkOptions true (Link options) (ObjectStore options) in
  let jobList := mkJobList [] in
  let objectStore := ObjectStore options in
  namespace ← wrap (accessor_Namespace object) "get namespace for object";
  apiVersion ← wrap (accessor_APIVersion object) "Get apiVersion for object";
  kind ← wrap (accessor_Kind object) "get kind for object";
  name ← wrap (accessor_Name object) "get name for object";
  let key := jobListKey namespace in
  list ← wrapf (List objectStore key) "list all objects for key %+v" key;
  jobList ← ownedJobs apiVersion kind name list jobList;
  JobListHandler (Some jobList) options.

(** *** secret.go *)

Definition secretTableCols : list string :=
  NewTableCols ["Name"; "Labels"; "Type"; "Data"; "Age"].
Definition secretDataCols : list string := NewTableCols ["Key"].

Definition SecretRow (nameLink : Component) (secret : Secret) : TableRow :=
  let row : TableRow := ∅ in
  let row := <["Name" := nameLink]> row in
  let row := <["Labels" := Labels (ObjLabels (SecretMeta secret))]> row in
  let row := <["Type" := Text (SecretType secret)]> row in
  let row := <["Data" := Text (fmt_d (Z.of_nat (size (Data secret))))]> row in
  let row := <["Age" := Timestamp (CreationTimestamp (SecretMeta secret))]> row in
  row.

Definition SecretListHandler (list : option SecretList) (options : Options U)
  : result Component :=
  match list with
  | None => Fail (errors_New "list of secrets is nil")
  | Some list =>
    let table := NewTable "Secrets" "We couldn't find any secrets!" secretTableCols in
    table ← for_range (SecretItems list) (λ table secret,
      nameLink ← ForObject (Link options) (ObjSecret (Some secret)) (Name (SecretMeta secret));
      Return (Add table (SecretRow nameLink secret))) table;
    Return (CTable table)
  end.

Definition secretConfiguration (secret : Secret) : result Summary :=
  let sections : SummarySections := [] in
  let sections := sections ++ [mkSection "Type" (Text (SecretType secret))] in
  let summary := NewSummary "Configuration" sections in
  Return summary.

Definition secretDataRow (key : string) : TableRow :=
  let row : TableRow := ∅ in
  let row := <["Key" := Text key]> row in
  row.

(** [secretData] when the runtime enumerates the keys of [secret.Data]
    in the order [keys]. *)
Definition secretData_in (keys : list string) (secret : Secret) : result Table :=
  let table := NewTable "Data" "This secret has no data!" secretDataCols in
  table ← for_range keys (λ table key, Return (Add table (secretDataRow key))) table;
  Return table.

(** The outcomes of a call of [secretData]: one for each order in which
    [for key := range secret.Data] may visit the keys. *)
Definition secretData (secret : Secret) (r : result Table) : Prop :=
  ∃ keys, map_range (Data secret) keys ∧ r = secretData_in keys secret.

Definition SecretHandler (secret : option Secret) (options : Options U) : result Component :=
  match secret with
  | None => Fail (errors_New "secret is nil")
  | Some secret_val =>
    let o := NewObject (ObjSecret secret) in
    configSummary ← secretConfiguration secret_val;
    let o := RegisterConfig o configSummary in
    let o := RegisterItems o (mkItem
               (λ r, ∃ t, secretData secret_val t ∧ r = CTable <$> t) WidthFull) in
    ToComponent o options
  end.

(** *** replicationcontroller.go *)

Definition rcCols : list string :=
  NewTableCols ["Name"; "Labels"; "Status"; "Age"; "Containers"; "Selector"].

(** The row of one replication controller, [template] being
    [*rc.Spec.Template]. *)
Definition RCRow (nameLink : Component) (rc : ReplicationController)
    (template : PodTemplateSpec) : TableRow :=
  let row : TableRow := ∅ in
  let row := <["Name" := nameLink]> row in
  let row := <["Labels" := Labels (ObjLabels (RCMeta rc))]> row in
  let status := fmt_d (AvailableReplicas (RCStatus rc)) +:+ "/"
                +:+ fmt_d (StatusReplicas (RCStatus rc)) in
  let row := <["Status" := Text status]> row in
  let ts := CreationTimestamp (RCMeta rc) in
  let row := <["Age" := Timestamp ts]> row in
  let containers := NewContainers in
  let containers := foldl (λ containers c, ContainersAdd containers (ContainerName c) (Image c))
                      containers (PodContainers template) in
  let row := <["Containers" := containers]> row in
  let row := <["Selector" := printSelectorMap (Selector (RCSpec rc))]> row in
  row.

(** [rc.Spec.Template] is a pointer and is dereferenced, without a nil
    check, to read the containers. *)
Definition ReplicationControllerListHandler (list : option ReplicationControllerList)
    (options : Options U) : result Component :=
  match list with
  | None => Fail (errors_New "nil list")
  | Some list =>
    let cols := rcCols in
    let tbl := NewTable "ReplicationControllers"
                 "We couldn't find any replication controllers!" cols in
    tbl ← for_range (RCItems list) (λ tbl rc,
      nameLink ← ForObject (Link options) (ObjRC (Some rc)) (Name (RCMeta rc));
      template ← deref (Template (RCSpec rc));
      Return (Add tbl (RCRow nameLink rc template))) tbl;
    Return (CTable tbl)
  end.

Record ReplicationControllerConfiguration := mkRCConfiguration {
  replicationcontroller : option ReplicationController;
}.

Definition NewReplicationControllerConfiguration (rc : option ReplicationController)
  : option ReplicationControllerConfiguration :=
  Some (mkRCConfiguration rc).

(** [metav1.GetControllerOf]: the first owner reference whose
    [Controller] flag is set and true. *)
Fixpoint GetControllerOf (refs : list OwnerReference) : option OwnerReference :=
  match refs with
  | [] => None
  | ref :: rest =>
    match ref_Controller ref with
    | Some true => Some ref
    | _ => GetControllerOf rest
    end
  end.

Definition ReplicationControllerConfiguration_Create
    (rcc : option ReplicationControllerConfiguration) (options : Options U)
  : result Summary :=
  match rcc with
  | None => Fail (errors_New "replicationcontroller is nil")
  | Some rcc_val =>
    match replicationcontroller rcc_val with
    | None => Fail (errors_New "replicationcontroller is nil")
    | Some replicationController =>
      let sections : SummarySections := [] in
      sections ←
        match GetControllerOf (OwnerReferences (RCMeta replicationController)) with
        | Some controllerRef =>
          controlledBy ← ForOwner (Link options) (ObjRC (Some replicationController))
                           controllerRef;
          Return (sections ++ [mkSection "Controlled By" controlledBy])
        | None => Return sections
        end;
      let current := fmt_d (ReadyReplicas (RCStatus replicationController)) in
      let sections :=
        match Replicas (RCSpec replicationController) with
        | Some desired =>
          let desiredReplicas := fmt_d desired in
          let status := "Current " +:+ current +:+ " / Desired " +:+ desiredReplicas in
          SectionsAddText sections "Replica Status" status
        | None => sections
        end in
      let replicas := fmt_d (StatusReplicas (RCStatus replicationController)) in
      let sections := SectionsAddText sections "Replicas" replicas in
      let summary := NewSummary "Configuration" sections in
      Return summary
    end
  end.

(** [ReplicationControllerStatus.Create] builds the pod status quadrant
    from [listPods] and [createPodStatus] of package [printer]; it is
    only registered as a closure here. *)
Variable ReplicationControllerStatus_Create :
  option ReplicationController → Store U → result Component.

Definition ReplicationControllerHandler (rc : option ReplicationController)
    (options : Options U) : result Component :=
  let o := NewObject (ObjRC rc) in
  let objectStore := ObjectStore options in
  let rcConfigGen := NewReplicationControllerConfiguration rc in
  configSummary ← ReplicationControllerConfiguration_Create rcConfigGen options;
  let o := RegisterConfig o configSummary in
  let o := RegisterItems o (mkItem
             (λ r, r = ReplicationControllerStatus_Create rc objectStore) WidthQuarter) in
  let o := RegisterItems o (mkItem
             (λ r, r = createPodListView (ObjRC rc) options) WidthFull) in
  rc_val ← deref rc;
  template ← deref (Template (RCSpec rc_val));
  let o := EnablePodTemplate o template in
  let o := EnableEvents o in
  ToComponent o options.

(** *** Auxiliary definitions for the statements *)

(** A table with further rows added. *)
Definition with_rows (t : Table) (rows : list TableRow) : Table :=
  mkTable (Title t) (Placeholder t) (Columns t) (Rows t ++ rows).

(** The row steps of the three list handlers. *)
Definition JobStep (opts : Options U) (job : Job) : result TableRow :=
  nameLink ← ForObject (Link opts) (ObjJob (Some job)) (Name (JobMeta job));
  Return (JobRow nameLink job).

Definition SecretStep (options : Options U) (secret : Secret) : result TableRow :=
  nameLink ← ForObject (Link options) (ObjSecret (Some secret)) (Name (SecretMeta secret));
  Return (SecretRow nameLink secret).

Definition RCStep (options : Options U) (rc : ReplicationController) : result TableRow :=
  nameLink ← ForObject (Link options) (ObjRC (Some rc)) (Name (RCMeta rc));
  template ← deref (Template (RCSpec rc));
  Return (RCRow nameLink rc template).

(** The section headers [ReplicationControllerConfiguration.Create]
    authors for a replication controller. *)
Definition rcConfigurationHeaders (rc : ReplicationController) : list string :=
  match GetControllerOf (OwnerReferences (RCMeta rc)) with
  | Some _ => ["Controlled By"]
  | None => []
  end
  ++ match Replicas (RCSpec rc) with
     | Some _ => ["Replica Status"]
     | None => []
     end
  ++ ["Replicas"].

(** The jobs [createJobListView] is to show, in the words of its
    specification: every listed job, once per owner reference whose
    APIVersion, Kind and Name are those of the object. *)
Definition jobsOwnedBy (apiVersion kind name : string) (jobs : list Job) : list Job :=
  job ← jobs;
  ownerReference ← OwnerReferences (JobMeta job);
  if ownerMatches apiVersion kind name ownerReference then [job] else [].

(** A listed item decodes to [job]. *)
Definition decodes (item : U) (job : Job) : Prop :=
  ∃ converted, FromUnstructured item = Return converted
               ∧ copyObjectMeta converted item = Return job.

(** A listed item does not decode, and [e] is the error
    [createJobListView] returns for it. *)
Definition decode_error (item : U) (e : error) : Prop :=
  FromUnstructured item = Fail e
  ∨ ∃ converted cause, FromUnstructured item = Return converted
      ∧ copyObjectMeta converted item = Fail cause
      ∧ e = errors_Wrap cause "copy object metadata".

End Printers.

(** ** The list handlers on the caller's memory

    To speak of what a list handler does to its argument and of what the
    returned table shares with it, the two list handlers are run here on
    a memory of objects.  The list is a pointer to a struct whose [Items]
    slice refers to an array of item structs; an item's [Labels] (and a
    replication controller's [Spec.Selector]) is a Go map, that is a
    reference that copies of the struct share.  The loop variable, the
    row maps and the table are objects the handler allocates, and the
    link builder receives the address of the loop variable and runs on
    the same memory. *)

Module memory.

Abbreviation loc := positive.

(** A slice header: the address of the array and the length. *)
Record slice := mkSlice {
  array : loc;
  len : nat;
}.

(** A [batchv1.Job] struct in memory: [job_Labels] is its [Labels]
    field, a reference to a map ([None] is the nil map); the other
    fields, which the handlers read and format at once, are those of
    [job_fields] (whose [ObjLabels] is not read). *)
Record JobValue := mkJobValue {
  job_fields : Job;
  job_Labels : option loc;
}.

(** A [corev1.ReplicationController] struct in memory, with its two
    maps [Labels] and [Spec.Selector]. *)
Record RCValue := mkRCValue {
  rc_fields : ReplicationController;
  rc_Labels : option loc;
  rc_Selector : option loc;
}.

Inductive object :=
| OMap (entries : gmap string string)
| OJobList (items : slice)
| OJobs (elems : list JobValue)
| OJob (job : JobValue)
| ORCList (items : slice)
| ORCs (elems : list RCValue)
| ORC (rc : RCValue)
| ORow (cells : gmap string Component)
| OTable (title placeholder : string) (cols : list string) (rows : list loc).

Abbreviation heap := (gmap loc object).

(** A computation on the memory. *)
Definition M (A : Type) : Type := heap → result A * heap.

#[export] Instance M_ret : MRet M := λ A a h, (Return a, h).

#[export] Instance M_bind : MBind M := λ A B f m h,
  match m h with
  | (Return a, h') => f a h'
  | (Fail err, h') => (Fail err, h')
  | (Panicked p, h') => (Panicked p, h')
  end.

Definition lift {A} (r : result A) : M A := λ h, (r, h).

(** An address above all those in use. *)
Definition next (h : heap) : loc :=
  Pos.succ (foldr Pos.max 1%positive (map_to_list h).*1).

Definition alloc (o : object) : M loc := λ h, (Return (next h), <[next h := o]> h).

(** Reading through an address that holds no object, or not one of the
    expected type, is Go's "invalid memory address or nil pointer
    dereference". *)
Definition invalid {A} : M A := lift (Panicked nil_pointer_dereference).

Definition load (l : loc) : M object := λ h, (deref (h !! l), h).

Definition store (l : loc) (o : object) : M unit := λ h, (Return (), <[l := o]> h).

Definition loadMap (m : option loc) : M (gmap string string) :=
  match m with
  | None => mret ∅
  | Some l => o ← load l; match o with OMap entries => mret entries | _ => invalid end
  end.

Definition loadJobList (l : loc) : M slice :=
  o ← load l; match o with OJobList items => mret items | _ => invalid end.

Definition loadJobs (l : loc) : M (list JobValue) :=
  o ← load l; match o with OJobs elems => mret elems | _ => invalid end.

Definition loadJob (l : loc) : M JobValue :=
  o ← load l; match o with OJob job => mret job | _ => invalid end.

Definition loadRCList (l : loc) : M slice :=
  o ← load l; match o with ORCList items => mret items | _ => invalid end.

Definition loadRCs (l : loc) : M (list RCValue) :=
  o ← load l; match o with ORCs elems => mret elems | _ => invalid end.

Definition loadRC (l : loc) : M RCValue :=
  o ← load l; match o with ORC rc => mret rc | _ => invalid end.

(** [s[i]] for a slice [s]. *)
Definition index {A} (item : option A) : result A :=
  match item with
  | Some a => Return a
  | None => Panicked index_out_of_range
  end.

(** [for i := first; i < first + n; i++ { err = body(i); if err != nil { return nil, err } }] *)
Fixpoint for_index (n first : nat) (body : nat → M unit) : M unit :=
  match n with
  | O => mret ()
  | S n' => body first;; for_index n' (S first) body
  end.

(** The zero values of the loop variables. *)
Definition zeroMeta : ObjectMeta := mkObjectMeta "" "" ∅ 0%Z [].

Definition zeroJob : JobValue :=
  mkJobValue (mkJob zeroMeta (mkJobSpec None None None (mkPodTemplateSpec []))
                    (mkJobStatus [] None None 0%Z)) None.

Definition zeroRC : RCValue :=
  mkRCValue (mkRC zeroMeta (mkRCSpec None ∅ None) (mkRCStatus 0%Z 0%Z 0%Z)) None None.

(** [component.NewTable]: a pointer to a new table without rows. *)
Definition NewTable (title placeholder : string) (cols : list string) : M loc :=
  alloc (OTable title placeholder cols []).

(** Modelled from the spec: [Table.Add] (pkg/view/component) appends the
    row, a reference to the row map, after the rows already in the table. *)
Definition Add (table row : loc) : M unit :=
  o ← load table;
  match o with
  | OTable title placeholder cols rows =>
    store table (OTable title placeholder cols (rows ++ [row]))
  | _ => invalid
  end.

(** [component.TableRow{}]: a new, empty map. *)
Definition NewTableRow : M loc := alloc (ORow ∅).

(** [row[key] = c] *)
Definition set (row : loc) (key : string) (c : Component) : M unit :=
  o ← load row;
  match o with
  | ORow cells => store row (ORow (<[key := c]> cells))
  | _ => invalid
  end.

(** Modelled from the spec: the display components are "simple immutable
    value trees", so [component.NewLabels] (pkg/view/component) gives a
    component that holds the entries the map has when it is called, not
    the map. *)
Definition NewLabels (labels : option loc) : M Component :=
  entries ← loadMap labels; mret (Labels entries).

Section Handlers.

Variable PtrInt32ToString : option Z → string.
Variable printSelectorMap : gmap string string → Component.

(** [opts.Link.ForObject(object, text)], given the address of the object. *)
Variable forObject : loc → string → M Component.

(** Modelled from the spec: [printSelectorMap] (package [printer]) builds
    its component, an immutable value, from the entries of the map. *)
Definition printSelectorMapAt (selector : option loc) : M Component :=
  entries ← loadMap selector; mret (printSelectorMap entries).

(** The loop variable [job] is one variable that each iteration assigns
    the item to; the link builder is given its address, so it is read
    again after the call. *)
Definition JobListHandler (list : option loc) : M loc :=
  match list with
  | None => lift (Fail (errors_New "job list is nil"))
  | Some list =>
    table ← NewTable "Jobs" "We couldn't find any jobs!" JobCols;
    items ← loadJobList list;
    job ← alloc (OJob zeroJob);
    for_index (len items) 0 (λ i,
      elems ← loadJobs (array items);
      item ← lift (index (elems !! i));
      store job (OJob item);;
      row ← NewTableRow;
      this ← loadJob job;
      nameLink ← forObject job (Name (JobMeta (job_fields this)));
      set row "Name" nameLink;;
      this ← loadJob job;
      labels ← NewLabels (job_Labels this);
      set row "Labels" labels;;
      set row "Completions"
        (Text (PtrInt32ToString (Completions (JobSpec_ (job_fields this)))));;
      let succeeded := fmt_d (Succeeded (JobStatus_ (job_fields this))) in
      set row "Successful" (Text succeeded);;
      set row "Age" (Timestamp (CreationTimestamp (JobMeta (job_fields this))));;
      Add table row);;
    mret table
  end.

Definition ReplicationControllerListHandler (list : option loc) : M loc :=
  match list with
  | None => lift (Fail (errors_New "nil list"))
  | Some list =>
    let cols := rcCols in
    tbl ← NewTable "ReplicationControllers"
            "We couldn't find any replication controllers!" cols;
    items ← loadRCList list;
    rc ← alloc (ORC zeroRC);
    for_index (len items) 0 (λ i,
      elems ← loadRCs (array items);
      item ← lift (index (elems !! i));
      store rc (ORC item);;
      row ← NewTableRow;
      this ← loadRC rc;
      nameLink ← forObject rc (Name (RCMeta (rc_fields this)));
      set row "Name" nameLink;;
      this ← loadRC rc;
      labels ← NewLabels (rc_Labels this);
      set row "Labels" labels;;
      let status := fmt_d (AvailableReplicas (RCStatus (rc_fields this))) +:+ "/"
                    +:+ fmt_d (StatusReplicas (RCStatus (rc_fields this))) in
      set row "Status" (Text status);;
      let ts := CreationTimestamp (RCMeta (rc_fields this)) in
      set row "Age" (Timestamp ts);;
      let containers := NewContainers in
      template ← lift (deref (Template (RCSpec (rc_fields this))));
      let containers := foldl (λ containers c, ContainersAdd containers (ContainerName c) (Image c))
                          containers (PodContainers template) in
      set row "Containers" containers;;
      selector ← printSelectorMapAt (rc_Selector this);
      set row "Selector" selector;;
      Add tbl row);;
    mret tbl
  end.

End Handlers.

(** *** Auxiliary definitions for the statements *)

(** The types of the objects. *)
Inductive kind :=
| KMap | KJobList | KJobs | KJob | KRCList | KRCs | KRC | KRow | KTable.

Definition kind_of (o : object) : kind :=
  match o with
  | OMap _ => KMap
  | OJobList _ => KJobList
  | OJobs _ => KJobs
  | OJob _ => KJob
  | ORCList _ => KRCList
  | ORCs _ => KRCs
  | ORC _ => KRC
  | ORow _ => KRow
  | OTable _ _ _ _ => KTable
  end.

Definition has_kind (h : heap) (l : loc) (k : kind) : Prop :=
  kind_of <$> h !! l = Some k.

(** Every object of [h0] is in [h] as it is in [h0]. *)
Definition unchanged (h0 h : heap) : Prop :=
  ∀ l o, h0 !! l = Some o → h !! l = Some o.

(** The table at [table] in [h], with its rows, consists of objects that
    are not in the memory [h0]; the cells of the rows are component
    values. *)
Definition fresh_table (h0 h : heap) (table : loc) : Prop :=
  h0 !! table = None
  ∧ ∃ title placeholder cols rows,
      h !! table = Some (OTable title placeholder cols rows)
      ∧ Forall (λ row, h0 !! row = None ∧ ∃ cells, h !! row = Some (ORow cells)) rows.

(** The state of a list handler in its loop, for a call that started in
    [h0]: the objects of [h0] are as they were, and the table, the rows
    added so far, the loop variable (of kind [k]) and the row being
    filled, if any, are objects outside [h0]. *)
Record looping (h0 : heap) (table var : loc) (k : kind)
    (title placeholder : string) (cols : list string)
    (rows : list loc) (row : option loc) (h : heap) : Prop := mkLooping {
  looping_frame : h0 ⊆ h;
  looping_table_fresh : h0 !! table = None;
  looping_table : h !! table = Some (OTable title placeholder cols rows);
  looping_rows : Forall (λ row, h0 !! row = None ∧ has_kind h row KRow) rows;
  looping_var_fresh : h0 !! var = None;
  looping_var : has_kind h var k;
  looping_row : match row with
                | Some row => h0 !! row = None ∧ has_kind h row KRow
                | None => True
                end;
}.

(** [m], started in a memory that satisfies [pre], ends in one that
    satisfies [post] when it returns, and leaves the objects of [h0] as
    they were when it does not. *)
Definition triple {A} (h0 : heap) (pre : heap → Prop) (m : M A)
    (post : A → heap → Prop) : Prop :=
  ∀ h, pre h →
    match (m h).1 with
    | Return a => post a (m h).2
    | _ => h0 ⊆ (m h).2
    end.

(** [m] does not write. *)
Definition readonly {A} (m : M A) : Prop := ∀ h, (m h).2 = h.

(** The table at [table], read from the memory with its rows. *)
Definition readTable (h : heap) (table : loc) : option Table :=
  match h !! table with
  | Some (OTable title placeholder cols rows) =>
    rows ← mapM (λ row, match h !! row with
                        | Some (ORow cells) => Some cells
                        | _ => None
                        end) rows;
    Some (mkTable title placeholder cols rows)
  | _ => None
  end.

(** *** Reading the memory *)

(** The metadata with the labels read from the memory. *)
Definition setLabels (labels : gmap string string) (meta : ObjectMeta) : ObjectMeta :=
  mkObjectMeta (Name meta) (Namespace meta) labels (CreationTimestamp meta)
    (OwnerReferences meta).

Definition readMap (h : heap) (m : option loc) : option (gmap string string) :=
  match m with
  | None => Some ∅
  | Some l => match h !! l with Some (OMap entries) => Some entries | _ => None end
  end.

(** The job and the replication controller a struct stands for in the
    memory [h]. *)
Definition readJob (h : heap) (v : JobValue) : option Job :=
  labels ← readMap h (job_Labels v);
  Some (mkJob (setLabels labels (JobMeta (job_fields v)))
              (JobSpec_ (job_fields v)) (JobStatus_ (job_fields v))).

Definition readRC (h : heap) (v : RCValue) : option ReplicationController :=
  labels ← readMap h (rc_Labels v);
  selector ← readMap h (rc_Selector v);
  Some (mkRC (setLabels labels (RCMeta (rc_fields v)))
             (mkRCSpec (Replicas (RCSpec (rc_fields v))) selector
                       (Template (RCSpec (rc_fields v))))
             (RCStatus (rc_fields v))).

(** The list at [list], read from the memory with its items. *)
Definition readJobList (h : heap) (list : loc) : option JobList :=
  match h !! list with
  | Some (OJobList items) =>
    match h !! array items with
    | Some (OJobs elems) =>
      if decide (len items ≤ length elems)
      then mkJobList <$> mapM (readJob h) (take (len items) elems)
      else None
    | _ => None
    end
  | _ => None
  end.

Definition readRCList (h : heap) (list : loc) : option ReplicationControllerList :=
  match h !! list with
  | Some (ORCList items) =>
    match h !! array items with
    | Some (ORCs elems) =>
      if decide (len items ≤ length elems)
      then mkRCList <$> mapM (readRC h) (take (len items) elems)
      else None
    | _ => None
    end
  | _ => None
  end.

(** The [runtime.Object] at an address. *)
Definition readObject (h : heap) (object : loc) : Object :=
  match h !! object with
  | Some (OJob v) => ObjJob (readJob h v)
  | Some (ORC v) => ObjRC (readRC h v)
  | _ => ObjJob None
  end.

(** The outcome of a handler as its caller reads it: the table at the
    returned address. *)
Definition readResult (run : result loc * heap) : result Component :=
  table ← run.1;
  match readTable run.2 table with
  | Some t => Return (CTable t)
  | None => Panicked nil_pointer_dereference
  end.

(** The state of a list handler between two iterations, with what the
    table holds. *)
Record building (h0 : heap) (table var : loc)
    (title placeholder : string) (cols : list string)
    (rowlocs : list loc) (rows : list TableRow) (h : heap) : Prop := mkBuilding {
  building_frame : h0 ⊆ h;
  building_table : h !! table = Some (OTable title placeholder cols rowlocs);
  building_rows : Forall2 (λ l cells, h !! l = Some (ORow cells)) rowlocs rows;
  building_var : is_Some (h !! var);
  building_var_table : var ≠ table;
  building_var_rows : var ∉ rowlocs;
  building_table_rows : table ∉ rowlocs;
  building_var_fresh : h0 !! var = None;
  building_table_fresh : h0 !! table = None;
  building_rows_fresh : Forall (λ l, h0 !! l = None) rowlocs;
}.

End memory.

(** ** Concrete objects and dependencies *)

Module Fixtures.

(** A rendering of [*int32] pointers and of selectors, a link builder
    that has no route for objects named "broken", and a store of jobs
    already decoded. *)
Definition PtrInt32ToString (p : option Z) : string := fmt_d (default 0%Z p).

Definition printSelectorMap (m : gmap string string) : Component :=
  Selectors ((λ kv, LabelSelector kv.1 kv.2) <$> map_to_list m).

Definition noRoute : error := errors_New "no route".

Definition link : LinkInterface :=
  mkLink
    (λ _ text, if bool_decide (text = "broken") then Fail noRoute
               else Return (component.Link "" text ("/" +:+ text)))
    (λ _ ownerReference,
       if bool_decide (ref_Name ownerReference = "broken") then Fail noRoute
       else Return (component.Link "" (ref_Name ownerReference) "/owner")).

Definition meta (name : string) (owners : list OwnerReference) : ObjectMeta :=
  mkObjectMeta name "default" {["app" := "demo"]} 1546300800%Z owners.

Definition cron (name : string) : OwnerReference :=
  mkOwnerReference "batch/v1beta1" "CronJob" name (Some true).

Definition job (name : string) (owners : list OwnerReference) : Job :=
  mkJob (meta name owners)
        (mkJobSpec (Some 1%Z) (Some 3%Z) None (mkPodTemplateSpec []))
        (mkJobStatus [] (Some 1546300800%Z) None 2%Z).

Definition secret (name : string) (data : gmap string (list Byte.byte)) : Secret :=
  mkSecret (meta name []) "Opaque" data.

Definition credentials : gmap string (list Byte.byte) :=
  <["username" := [Byte.x61; Byte.x64]]> (<["password" := [Byte.x73]]> ∅).


Definition template : PodTemplateSpec :=
  mkPodTemplateSpec [mkContainer "nginx" "nginx:1.15"].

Definition rc (name : string) (owners : list OwnerReference)
    (template : option PodTemplateSpec) : ReplicationController :=
  mkRC (meta name owners) (mkRCSpec (Some 3%Z) {["app" := "myapp"]} template)
       (mkRCStatus 3%Z 0%Z 1%Z).

Definition jobStore (answer : result (list Job)) : Store Job := mkStore (λ _, answer).

Definition options (answer : result (list Job)) : Options Job :=
  mkOptions false link (jobStore answer).

Definition opts : Options Job := options (Return []).

Definition cronObject : Object := ObjJob None.

(** The "Data" table with one "Key" row per key, in the order of [keys]. *)
Definition keyTable (keys : list string) : Table :=
  mkTable "Data" "This secret has no data!" ["Key"]
    ((λ key, ({["Key" := Text key]} : TableRow)) <$> keys).

End Fixtures.

(** ** replicationcontroller.go: the status quadrant *)

Module rcstatus.
Section Status.

(** The pods returned by [listPods] and the quadrant component of
    package [component] are kept abstract; [listPods] and
    [createPodStatus] of package [printer], [component.NewQuadrant] and
    [Quadrant.Set], and [GetUID] (the UID of the object's metadata) are
    parameters.  [Quadrant.Set] updates the quadrant in place and returns
    an error; here it returns the updated quadrant or the error. *)
Context {U Pods Quadrant : Type}.

Inductive QuadrantPosition := QuadNW | QuadNE | QuadSW | QuadSE.

Record LabelSelector := mkLabelSelector {
  MatchLabels : gmap string string;
}.

Record PodStatus := mkPodStatus {
  Running : Z;
  Waiting : Z;
  PodsSucceeded : Z;
  Failed : Z;
}.

Variable listPods : string → option LabelSelector → string → Store U → result Pods.
Variable createPodStatus : Pods → PodStatus.
Variable NewQuadrant : string → Quadrant.
Variable Set_ : Quadrant → QuadrantPosition → string → string → result Quadrant.
Variable GetUID : ReplicationController → string.

(** The printer struct [ReplicationControllerStatus] of package [printer]
    (not the status of the API object, which has the same name). *)
Record ReplicationControllerStatusPrinter := mkStatusPrinter {
  replicationcontroller : option ReplicationController;
}.

Definition NewReplicationControllerStatus (replicationController : option ReplicationController)
  : option ReplicationControllerStatusPrinter :=
  Some (mkStatusPrinter replicationController).

(** [if err := call; err != nil { return nil, errors.New(message) }] *)
Definition orNew {A} (r : result A) (message : string) : result A :=
  match r with
  | Return a => Return a
  | Fail _ => Fail (errors_New message)
  | Panicked p => Panicked p
  end.

(** The receiver is a pointer whose field is read without a nil check. *)
Definition Create (receiver : option ReplicationControllerStatusPrinter) (o : Store U)
  : result Quadrant :=
  replicationController ← deref receiver;
  match replicationcontroller replicationController with
  | None => Fail (errors_New "replicationcontroller is nil")
  | Some rc =>
    let selectors := mkLabelSelector (Selector (RCSpec rc)) in
    pods ← listPods (Namespace (RCMeta rc)) (Some selectors) (GetUID rc) o;
    let ps := createPodStatus pods in
    let quadrant := NewQuadrant "Status" in
    quadrant ← orNew (Set_ quadrant QuadNW "Running" (fmt_d (Running ps)))
                 "unable to set quadrant nw";
    quadrant ← orNew (Set_ quadrant QuadNE "Waiting" (fmt_d (Waiting ps)))
                 "unable to set quadrant ne";
    quadrant ← orNew (Set_ quadrant QuadSW "Succeeded" (fmt_d (PodsSucceeded ps)))
                 "unable to set quadrant sw";
    quadrant ← orNew (Set_ quadrant QuadSE "Failed" (fmt_d (Failed ps)))
                 "unable to set quadrant se";
    Return quadrant
  end.

End Status.
End rcstatus.

(** A quadrant that stores what is set and a pod list given by its
    status counts. *)
Module StatusFixtures.

Definition Quadrant : Type := string * list (rcstatus.QuadrantPosition * string * string).

Definition NewQuadrant (title : string) : Quadrant := (title, []).

Definition Set_ (q : Quadrant) (pos : rcstatus.QuadrantPosition) (label value : string)
  : result Quadrant :=
  Return (q.1, q.2 ++ [(pos, label, value)]).

Definition brokenSet (broken : rcstatus.QuadrantPosition) (q : Quadrant)
    (pos : rcstatus.QuadrantPosition) (label value : string) : result Quadrant :=
  match broken, pos with
  | rcstatus.QuadNW, rcstatus.QuadNW | rcstatus.QuadNE, rcstatus.QuadNE
  | rcstatus.QuadSW, rcstatus.QuadSW | rcstatus.QuadSE, rcstatus.QuadSE =>
    Fail (errors_New "unknown position")
  | _, _ => Set_ q pos label value
  end.

Definition createPodStatus (pods : rcstatus.PodStatus) : rcstatus.PodStatus := pods.

Definition listPods (answer : result rcstatus.PodStatus) (namespace : string)
    (selector : option rcstatus.LabelSelector) (uid : string) (o : Store Job)
  : result rcstatus.PodStatus := answer.

Definition GetUID (rc : ReplicationController) : string := Name (RCMeta rc).

End StatusFixtures.

(** ** The tables the list handlers start from *)

Definition jobsTable : Table := NewTable "Jobs" "We couldn't find any jobs!" JobCols.

Definition secretsTable : Table :=
  NewTable "Secrets" "We couldn't find any secrets!" secretTableCols.

Definition rcTable : Table :=
  NewTable "ReplicationControllers" "We couldn't find any replication controllers!" rcCols.

Definition conditionsTable : Table :=
  NewTable "Conditions" "There are no job conditions!"
    (NewTableCols ["Type"; "Last Probe"; "Last Transition"; "Status"; "Message"; "Reason"]).

Definition secretDataTable : Table :=
  NewTable "Data" "This secret has no data!" secretDataCols.

(** Further concrete dependencies: a store item is a job that decodes to
    itself unless it is named "broken"; accessors of an object that is
    the cron job "nightly". *)
Module MoreFixtures.

Definition FromUnstructured (item : Job) : result Job :=
  if bool_decide (Name (JobMeta item) = "broken") then Fail Fixtures.noRoute
  else Return item.

Definition copyObjectMeta (job item : Job) : result Job := Return job.

Definition namespaceOf (object : Object) : result string := Return "default".
Definition apiVersionOf (object : Object) : result string := Return "batch/v1beta1".
Definition kindOf (object : Object) : result string := Return "CronJob".
Definition nameOf (object : Object) : result string := Return "nightly".
Definition noAccessor (object : Object) : result string := Fail Fixtures.noRoute.

Definition nightly : Job :=
  Fixtures.job "a" [Fixtures.cron "nightly"; Fixtures.cron "nightly"].
Definition weekly : Job := Fixtures.job "b" [Fixtures.cron "weekly"].

Definition linkTo (name : string) : Component := component.Link "" name ("/" +:+ name).

Definition token : gmap string (list Byte.byte) := {["token" := [Byte.x74]]}.

Definition ToComponent (o : ObjectPrinter) (options : Options Job) : result Component :=
  Return (Text "object").

Definition statusQuadrant (rc : option ReplicationController) (o : Store Job)
  : result Component := Return (Text "status").

Definition createPodListView (object : Object) (options : Options Job) : result Component :=
  Return (Text "pods").

End MoreFixtures.

(** A memory with a list of two jobs that share their [Labels] map and
    a list of one replication controller, a link builder that answers
    as [Fixtures.link] does and only reads, and one that marks the
    labels of the object it is given. *)
Module MemoryFixtures.
Import memory.

Definition labelsAt : loc := 3%positive.
Definition jobsAt : loc := 1%positive.
Definition rcsAt : loc := 5%positive.

Definition h0 : heap :=
  <[jobsAt := OJobList (mkSlice 2 2)]>
  (<[2%positive := OJobs [mkJobValue (Fixtures.job "a" []) (Some labelsAt);
                          mkJobValue (Fixtures.job "b" []) (Some labelsAt)]]>
  (<[labelsAt := OMap {["app" := "demo"]}]>
  (<[4%positive := OMap {["app" := "myapp"]}]>
  (<[rcsAt := ORCList (mkSlice 6 1)]>
  (<[6%positive := ORCs [mkRCValue (Fixtures.rc "r" [] (Some Fixtures.template))
                           (Some labelsAt) (Some 4%positive)]]> ∅))))).

Definition forObject (object : loc) (text : string) : M Component :=
  lift (ForObject Fixtures.link (ObjJob None) text).

Definition relabel (object : loc) (text : string) : M Component :=
  this ← loadJob object;
  entries ← loadMap (job_Labels this);
  match job_Labels this with
  | Some labels => store labels (OMap (<["seen" := "yes"]> entries))
  | None => mret ()
  end;;
  forObject object text.

End MemoryFixtures.


(** * Properties *)

Section Properties.

Context {U : Type}.
Variable PtrInt32ToString : option Z → string.
Variable printSelectorMap : gmap string string → Component.
Variable createPodListView : Object → Options U → result Component.
Variable FromUnstructured : U → result Job.
Variable copyObjectMeta : Job → U → result Job.
Variable accessor_Namespace : Object → result string.
Variable accessor_APIVersion : Object → result string.
Variable accessor_Kind : Object → result string.
Variable accessor_Name : Object → result string.
Variable ToComponent : ObjectPrinter → Options U → result Component.
Variable ReplicationControllerStatus_Create :
  option ReplicationController → Store U → result Component.

(** In this section the printers are taken at the parameters above. *)
Local Abbreviation JobRow := (JobRow PtrInt32ToString).
Local Abbreviation JobStep := (JobStep PtrInt32ToString).
Local Abbreviation JobListHandler := (JobListHandler PtrInt32ToString).
Local Abbreviation createJobConfiguration := (createJobConfiguration PtrInt32ToString).
Local Abbreviation JobHandler := (JobHandler PtrInt32ToString createPodListView ToComponent).
Local Abbreviation decodes := (decodes FromUnstructured copyObjectMeta).
Local Abbreviation ownedJobs := (ownedJobs FromUnstructured copyObjectMeta).
Local Abbreviation createJobListView :=
  (createJobListView PtrInt32ToString FromUnstructured copyObjectMeta
     accessor_Namespace accessor_APIVersion accessor_Kind accessor_Name).
Local Abbreviation SecretHandler := (SecretHandler ToComponent).
Local Abbreviation RCRow := (RCRow printSelectorMap).
Local Abbreviation RCStep := (RCStep printSelectorMap).
Local Abbreviation ReplicationControllerListHandler :=
  (ReplicationControllerListHandler printSelectorMap).
Local Abbreviation ReplicationControllerHandler :=
  (ReplicationControllerHandler createPodListView ToComponent
     ReplicationControllerStatus_Create).

(** ** Loops that add one row per item *)

Section Loops.
Context {A : Type}.
Variable step : A → result TableRow.
Variable body : Table → A → result Table.
Hypothesis body_step : ∀ t x, body t x = (row ← step x; Return (Add t row)).

Lemma for_range_rows_ok items rows t :
  Forall2 (λ x row, step x = Return row) items rows →
  for_range items body t = Return (with_rows t rows).
Proof.
  intros HF. revert t.
  induction HF as [|x row items rows Hx _ IH]; intros t; simpl.
  - unfold with_rows. rewrite app_nil_r. by destruct t.
  - rewrite body_step, Hx. simpl. rewrite IH.
    unfold with_rows, Add. simpl. by rewrite <- app_assoc.
Qed.

Lemma for_range_rows_fail pre x post rows e t :
  Forall2 (λ x row, step x = Return row) pre rows →
  step x = Fail e →
  for_range (pre ++ x :: post) body t = Fail e.
Proof.
  intros HF Hx. revert t.
  induction HF as [|y row pre rows Hy _ IH]; intros t; simpl.
  - by rewrite body_step, Hx.
  - rewrite body_step, Hy. simpl. apply IH.
Qed.

Lemma for_range_fail_inv items t e :
  for_range items body t = Fail e → ∃ x, x ∈ items ∧ step x = Fail e.
Proof.
  revert t. induction items as [|x items IH]; intros t; simpl; [done|].
  rewrite body_step. destruct (step x) as [row|e'|p] eqn:Hx; simpl; [ | | done].
  - intros H. destruct (IH _ H) as (y & Hy & Hs). exists y. split; [by right | done].
  - intros [= ->]. exists x. split; [by left | done].
Qed.
End Loops.

Lemma Forall2_of_total {A B} (R : A → B → Prop) (l : list A) :
  (∀ x, x ∈ l → ∃ y, R x y) → ∃ k, Forall2 R l k.
Proof.
  induction l as [|x l IH]; intros H.
  - exists []. constructor.
  - destruct (H x) as [y Hy]; [by left|].
    destruct IH as [k Hk]; [intros z Hz; apply H; by right|].
    exists (y :: k). by constructor.
Qed.

Lemma JobBody_step (opts : Options U) (t : Table) (job : Job) :
  (nameLink ← ForObject (Link opts) (ObjJob (Some job)) (Name (JobMeta job));
   Return (Add t (JobRow nameLink job)))
  = (row ← JobStep opts job; Return (Add t row)).
Proof. unfold JobStep. by destruct (ForObject _ _ _). Qed.

Lemma SecretBody_step (options : Options U) (t : Table) (secret : Secret) :
  (nameLink ← ForObject (Link options) (ObjSecret (Some secret)) (Name (SecretMeta secret));
   Return (Add t (SecretRow nameLink secret)))
  = (row ← SecretStep options secret; Return (Add t row)).
Proof. unfold SecretStep. by destruct (ForObject _ _ _). Qed.

Lemma RCBody_step (options : Options U) (t : Table) (rc : ReplicationController) :
  (nameLink ← ForObject (Link options) (ObjRC (Some rc)) (Name (RCMeta rc));
   template ← deref (Template (RCSpec rc));
   Return (Add t (RCRow nameLink rc template)))
  = (row ← RCStep options rc; Return (Add t row)).
Proof.
  unfold RCStep. destruct (ForObject _ _ _); simpl; [|done..].
  by destruct (Template (RCSpec rc)).
Qed.

Lemma for_range_rows_total {A} (step : A → result TableRow) body items t :
  (∀ t x, body t x = (row ← step x; Return (Add t row))) →
  (∀ x, x ∈ items → ∃ row, step x = Return row) →
  ∃ rows, for_range items body t = Return (with_rows t rows)
          ∧ length rows = length items
          ∧ ∀ i x, items !! i = Some x → ∃ row, rows !! i = Some row ∧ step x = Return row.
Proof.
  intros Hb Hall.
  destruct (Forall2_of_total (λ x row, step x = Return row) items Hall) as [rows HF].
  exists rows. split; [by apply (for_range_rows_ok step)|].
  split; [symmetry; by eapply Forall2_length|].
  intros i x Hi. destruct (Forall2_lookup_l _ _ _ _ _ HF Hi) as (row & ? & ?). eauto.
Qed.

(** ** Properties of the list handlers *)

(** C2 (amended): on a non-nil list whose [Link.ForObject] calls all
    succeed, [JobListHandler] and [SecretListHandler] return a table with
    one row per item, the i-th row being the row of the i-th item; so
    does [ReplicationControllerListHandler] when, in addition, every
    item has a non-nil [Spec.Template]. *)
Theorem list_handlers_rows_in_order :
  (∀ (list : JobList) (opts : Options U),
      (∀ job, job ∈ JobItems list →
         ∃ link, ForObject (Link opts) (ObjJob (Some job)) (Name (JobMeta job)) = Return link) →
      ∃ table, JobListHandler (Some list) opts = Return (CTable table)
        ∧ length (Rows table) = length (JobItems list)
        ∧ ∀ i job, JobItems list !! i = Some job →
            ∃ link, ForObject (Link opts) (ObjJob (Some job)) (Name (JobMeta job)) = Return link
                    ∧ Rows table !! i = Some (JobRow link job))
  ∧ (∀ (list : SecretList) (options : Options U),
      (∀ secret, secret ∈ SecretItems list →
         ∃ link, ForObject (Link options) (ObjSecret (Some secret))
                   (Name (SecretMeta secret)) = Return link) →
      ∃ table, SecretListHandler (Some list) options = Return (CTable table)
        ∧ length (Rows table) = length (SecretItems list)
        ∧ ∀ i secret, SecretItems list !! i = Some secret →
            ∃ link, ForObject (Link options) (ObjSecret (Some secret))
                      (Name (SecretMeta secret)) = Return link
                    ∧ Rows table !! i = Some (SecretRow link secret))
  ∧ (∀ (list : ReplicationControllerList) (options : Options U),
      (∀ rc, rc ∈ RCItems list →
         ∃ link, ForObject (Link options) (ObjRC (Some rc)) (Name (RCMeta rc)) = Return link) →
      (∀ rc, rc ∈ RCItems list → is_Some (Template (RCSpec rc))) →
      ∃ table, ReplicationControllerListHandler (Some list) options = Return (CTable table)
        ∧ length (Rows table) = length (RCItems list)
        ∧ ∀ i rc, RCItems list !! i = Some rc →
            ∃ link template,
              ForObject (Link options) (ObjRC (Some rc)) (Name (RCMeta rc)) = Return link
              ∧ Template (RCSpec rc) = Some template
              ∧ Rows table !! i = Some (RCRow link rc template)).
Proof.
  split; [|split].
  - intros list opts Hlinks. unfold JobListHandler.
    destruct (for_range_rows_total (JobStep opts) _ (JobItems list)
                (NewTable "Jobs" "We couldn't find any jobs!" JobCols)
                (JobBody_step opts)) as (rows & Hrun & Hlen & Hrows).
    { intros job Hin. destruct (Hlinks job Hin) as [link Hl].
      exists (JobRow link job). unfold JobStep. by rewrite Hl. }
    rewrite Hrun. eexists. split; [done|]. split; [done|].
    intros i job Hi. destruct (Hrows i job Hi) as (row & Hrow & Hstep).
    unfold JobStep in Hstep.
    destruct (ForObject _ _ _) as [link| |]; simplify_eq/=. eauto.
  - intros list options Hlinks. unfold SecretListHandler.
    destruct (for_range_rows_total (SecretStep options) _ (SecretItems list)
                (NewTable "Secrets" "We couldn't find any secrets!" secretTableCols)
                (SecretBody_step options)) as (rows & Hrun & Hlen & Hrows).
    { intros secret Hin. destruct (Hlinks secret Hin) as [link Hl].
      exists (SecretRow link secret). unfold SecretStep. by rewrite Hl. }
    rewrite Hrun. eexists. split; [done|]. split; [done|].
    intros i secret Hi. destruct (Hrows i secret Hi) as (row & Hrow & Hstep).
    unfold SecretStep in Hstep.
    destruct (ForObject _ _ _) as [link| |]; simplify_eq/=. eauto.
  - intros list options Hlinks Htemplates. unfold ReplicationControllerListHandler.
    destruct (for_range_rows_total (RCStep options) _ (RCItems list)
                (NewTable "ReplicationControllers"
                   "We couldn't find any replication controllers!" rcCols)
                (RCBody_step options)) as (rows & Hrun & Hlen & Hrows).
    { intros rc Hin. destruct (Hlinks rc Hin) as [link Hl].
      destruct (Htemplates rc Hin) as [template Ht].
      exists (RCRow link rc template). unfold RCStep. by rewrite Hl, Ht. }
    rewrite Hrun. eexists. split; [done|]. split; [done|].
    intros i rc Hi. destruct (Hrows i rc Hi) as (row & Hrow & Hstep).
    unfold RCStep in Hstep.
    destruct (ForObject _ _ _) as [link| |]; simplify_eq/=.
    destruct (Template (RCSpec rc)) as [template|]; simplify_eq/=. eauto.
Qed.

(** C5: a failing [Link.ForObject] call ends a list handler with the
    error of that call and without a component, whatever the items
    before it contributed; a failing [ObjectStore.List] ends
    [createJobListView] with that error, wrapped, and without a
    component. *)
Theorem downstream_failure_propagates :
  (∀ (pre : list Job) job post e (opts : Options U),
      (∀ j, j ∈ pre →
         ∃ link, ForObject (Link opts) (ObjJob (Some j)) (Name (JobMeta j)) = Return link) →
      ForObject (Link opts) (ObjJob (Some job)) (Name (JobMeta job)) = Fail e →
      JobListHandler (Some (mkJobList (pre ++ job :: post))) opts = Fail e)
  ∧ (∀ (pre : list Secret) secret post e (options : Options U),
      (∀ s, s ∈ pre →
         ∃ link, ForObject (Link options) (ObjSecret (Some s)) (Name (SecretMeta s))
                 = Return link) →
      ForObject (Link options) (ObjSecret (Some secret)) (Name (SecretMeta secret)) = Fail e →
      SecretListHandler (Some (mkSecretList (pre ++ secret :: post))) options = Fail e)
  ∧ (∀ (pre : list ReplicationController) rc post e (options : Options U),
      (∀ r, r ∈ pre →
         ∃ link, ForObject (Link options) (ObjRC (Some r)) (Name (RCMeta r)) = Return link) →
      (∀ r, r ∈ pre → is_Some (Template (RCSpec r))) →
      ForObject (Link options) (ObjRC (Some rc)) (Name (RCMeta rc)) = Fail e →
      ReplicationControllerListHandler (Some (mkRCList (pre ++ rc :: post))) options = Fail e)
  ∧ (∀ object (options : Options U) namespace apiVersion kind name e,
      accessor_Namespace object = Return namespace →
      accessor_APIVersion object = Return apiVersion →
      accessor_Kind object = Return kind →
      accessor_Name object = Return name →
      List (ObjectStore options) (jobListKey namespace) = Fail e →
      createJobListView object options
      = Fail (errors_Wrapf e "list all objects for key %+v" (jobListKey namespace))).
Proof.
  split; [|split; [|split]].
  - intros pre job post e opts Hpre Hfail. unfold JobListHandler. simpl.
    destruct (Forall2_of_total (λ j row, JobStep opts j = Return row) pre) as [rows HF].
    { intros j Hin. destruct (Hpre j Hin) as [link Hl].
      exists (JobRow link j). unfold JobStep. by rewrite Hl. }
    rewrite (for_range_rows_fail (JobStep opts) _ (JobBody_step opts) pre job post rows e);
      [done|done|]. unfold JobStep. by rewrite Hfail.
  - intros pre secret post e options Hpre Hfail. unfold SecretListHandler. simpl.
    destruct (Forall2_of_total (λ s row, SecretStep options s = Return row) pre) as [rows HF].
    { intros s Hin. destruct (Hpre s Hin) as [link Hl].
      exists (SecretRow link s). unfold SecretStep. by rewrite Hl. }
    rewrite (for_range_rows_fail (SecretStep options) _ (SecretBody_step options)
               pre secret post rows e); [done|done|]. unfold SecretStep. by rewrite Hfail.
  - intros pre rc post e options Hpre Htemplates Hfail.
    unfold ReplicationControllerListHandler. simpl.
    destruct (Forall2_of_total (λ r row, RCStep options r = Return row) pre) as [rows HF].
    { intros r Hin. destruct (Hpre r Hin) as [link Hl].
      destruct (Htemplates r Hin) as [template Ht].
      exists (RCRow link r template). unfold RCStep. by rewrite Hl, Ht. }
    rewrite (for_range_rows_fail (RCStep options) _ (RCBody_step options)
               pre rc post rows e); [done|done|]. unfold RCStep. by rewrite Hfail.
  - intros object options namespace apiVersion kind name e Hns Hv Hk Hn Hlist.
    unfold createJobListView. rewrite Hns, Hv, Hk, Hn. simpl. by rewrite Hlist.
Qed.

(** With a non-nil argument, [JobListHandler] returns an error only if
    [Link.ForObject] returned that error for one of the items, and
    [ReplicationControllerConfiguration.Create] only if the replication
    controller has a controller reference for which [Link.ForOwner]
    returned that error. *)
Lemma link_errors_inv :
  (∀ (list : JobList) (opts : Options U) e,
      JobListHandler (Some list) opts = Fail e →
      ∃ job, job ∈ JobItems list
             ∧ ForObject (Link opts) (ObjJob (Some job)) (Name (JobMeta job)) = Fail e)
  ∧ (∀ (rc : ReplicationController) (options : Options U) e,
      ReplicationControllerConfiguration_Create
        (NewReplicationControllerConfiguration (Some rc)) options = Fail e →
      ∃ controllerRef,
        GetControllerOf (OwnerReferences (RCMeta rc)) = Some controllerRef
        ∧ ForOwner (Link options) (ObjRC (Some rc)) controllerRef = Fail e).
Proof.
  split.
  - intros list opts e. unfold JobListHandler.
    destruct (for_range _ _ _) as [t|e'|p] eqn:Hrun; simpl; [done| |done].
    intros [= ->].
    apply (for_range_fail_inv (JobStep opts) _ (JobBody_step opts)) in Hrun
      as (job & Hin & Hstep).
    exists job. split; [done|]. unfold JobStep in Hstep.
    by destruct (ForObject _ _ _); simplify_eq/=.
  - intros rc options e. unfold ReplicationControllerConfiguration_Create. simpl.
    destruct (GetControllerOf _) as [controllerRef|]; simpl; [|done].
    destruct (ForOwner _ _ _) as [link|e'|p] eqn:Hown; simpl; [done| |done].
    intros [= ->]. eauto.
Qed.

(** C6: [createJobConfiguration] always returns the sections
    "Back Off Limit", "Completions", "Parallelism" in that order, and
    the summary of [ReplicationControllerConfiguration.Create] has
    "Controlled By" when there is a controller reference, then
    "Replica Status" when [Spec.Replicas] is set, then "Replicas"; the
    latter summary is returned whenever [Link.ForOwner] succeeds on the
    controller reference. *)
Theorem summary_sections_in_authored_order :
  (∀ job, ∃ s, createJobConfiguration job = Return s
               ∧ headers s = ["Back Off Limit"; "Completions"; "Parallelism"])
  ∧ (∀ (rc : ReplicationController) (options : Options U) s,
      ReplicationControllerConfiguration_Create
        (NewReplicationControllerConfiguration (Some rc)) options = Return s →
      headers s = rcConfigurationHeaders rc)
  ∧ (∀ (rc : ReplicationController) (options : Options U),
      (∀ controllerRef,
         GetControllerOf (OwnerReferences (RCMeta rc)) = Some controllerRef →
         ∃ link, ForOwner (Link options) (ObjRC (Some rc)) controllerRef = Return link) →
      ∃ s, ReplicationControllerConfiguration_Create
             (NewReplicationControllerConfiguration (Some rc)) options = Return s).
Proof.
  split; [|split].
  - intros job. eexists. split; [reflexivity|]. reflexivity.
  - intros rc options s. unfold ReplicationControllerConfiguration_Create,
      rcConfigurationHeaders. simpl.
    destruct (GetControllerOf _) as [controllerRef|]; simpl.
    + destruct (ForOwner _ _ _) as [link| |]; simpl; [|done..].
      intros [= <-]. by destruct (Replicas (RCSpec rc)).
    + intros [= <-]. by destruct (Replicas (RCSpec rc)).
  - intros rc options Hown. unfold ReplicationControllerConfiguration_Create. simpl.
    destruct (GetControllerOf _) as [controllerRef|]; simpl; [|eauto].
    destruct (Hown controllerRef eq_refl) as [link ->]. simpl. eauto.
Qed.

Local Ltac mem_iff :=
  split;
  [ intros Hin; first [done | set_unfold in Hin; intuition discriminate]
  | intros Hne; first [by destruct Hne | set_unfold; auto] ].

(** C8: [createJobStatus] never fails; its summary has a "Started"
    section exactly when [Status.StartTime] is set, a "Completed" section
    exactly when [Status.CompletionTime] is set, and always one
    "Succeeded" section, the last, whose content is the decimal text of
    [Status.Succeeded]. *)
Theorem createJobStatus_sections (job : Job) :
  ∃ s, createJobStatus job = Return s
    ∧ ("Started" ∈ headers s ↔ StartTime (JobStatus_ job) ≠ None)
    ∧ ("Completed" ∈ headers s ↔ CompletionTime (JobStatus_ job) ≠ None)
    ∧ last (Sections s)
      = Some (mkSection "Succeeded" (Text (fmt_d (Succeeded (JobStatus_ job)))))
    ∧ (∀ section, section ∈ Sections s → Header section = "Succeeded" →
         Content section = Text (fmt_d (Succeeded (JobStatus_ job)))).
Proof.
  eexists. split; [reflexivity|]. unfold headers. simpl.
  destruct (StartTime (JobStatus_ job)) as [startTime|],
           (CompletionTime (JobStatus_ job)) as [completionTime|]; simpl.
  all: (split; [mem_iff|]); (split; [mem_iff|]); (split; [done|]).
  all: intros section Hin Hh; set_unfold in Hin;
    repeat (destruct Hin as [->|Hin]; [by simplify_eq/=|]); by subst.
Qed.

(** ** Secrets *)

Lemma secretData_in_rows keys secret :
  secretData_in keys secret
  = Return (mkTable "Data" "This secret has no data!" ["Key"] (secretDataRow <$> keys)).
Proof.
  unfold secretData_in.
  rewrite (for_range_rows_ok (λ key, Return (secretDataRow key)) _
             (λ _ _, eq_refl) keys (secretDataRow <$> keys)); [done|].
  induction keys; constructor; auto.
Qed.


(** ** Jobs owned by an object *)

Lemma ownerMatches_spec apiVersion kind name ownerReference :
  ownerMatches apiVersion kind name ownerReference = true
  ↔ ref_APIVersion ownerReference = apiVersion
    ∧ ref_Kind ownerReference = kind
    ∧ ref_Name ownerReference = name.
Proof.
  unfold ownerMatches. rewrite !andb_true_iff, !bool_decide_eq_true. tauto.
Qed.

Lemma owner_loop apiVersion kind name job refs jobList :
  foldl (λ jobList ownerReference,
           if ownerMatches apiVersion kind name ownerReference
           then mkJobList (JobItems jobList ++ [job])
           else jobList) jobList refs
  = mkJobList (JobItems jobList
               ++ (refs ≫= λ ownerReference,
                     if ownerMatches apiVersion kind name ownerReference
                     then [job] else [])).
Proof.
  revert jobList. induction refs as [|ref refs IH]; intros jobList; simpl.
  - rewrite app_nil_r. by destruct jobList.
  - rewrite IH. destruct (ownerMatches _ _ _ ref); simpl; [|done].
    by rewrite <- app_assoc.
Qed.

Lemma ownedJobs_spec apiVersion kind name items jobs jobList :
  Forall2 decodes items jobs →
  ownedJobs apiVersion kind name items jobList
  = Return (mkJobList (JobItems jobList ++ jobsOwnedBy apiVersion kind name jobs)).
Proof.
  intros HF. revert jobList. unfold ownedJobs.
  induction HF as [|item job items jobs (converted & Hconv & Hcopy) _ IH];
    intros jobList; simpl.
  - unfold jobsOwnedBy. simpl. rewrite app_nil_r. by destruct jobList.
  - rewrite Hconv. simpl. rewrite Hcopy. simpl.
    rewrite IH, owner_loop. simpl. unfold jobsOwnedBy. simpl.
    by rewrite <- app_assoc.
Qed.

(** C10: when the accessors give the object's namespace, apiVersion,
    kind and name, [createJobListView] consults the store only at the
    key of that namespace with APIVersion "batch/v1beta1" and Kind "Job"
    (two stores that answer alike there give the same outcome), and
    when the listed items decode to [jobs] it prints, with
    [JobListHandler], the list holding every job of [jobs] once per
    owner reference whose APIVersion, Kind and Name are the object's. *)
Theorem createJobListView_owned_jobs
    (object : Object) (options : Options U) (namespace apiVersion kind name : string) :
  accessor_Namespace object = Return namespace →
  accessor_APIVersion object = Return apiVersion →
  accessor_Kind object = Return kind →
  accessor_Name object = Return name →
  jobListKey namespace
  = store.mkKey namespace "batch/v1beta1" "Job"
  ∧ (∀ options' : Options U,
       Link options' = Link options →
       List (ObjectStore options') (jobListKey namespace)
       = List (ObjectStore options) (jobListKey namespace) →
       createJobListView object options' = createJobListView object options)
  ∧ (∀ items jobs,
       List (ObjectStore options) (jobListKey namespace) = Return items →
       Forall2 decodes items jobs →
       ownedJobs apiVersion kind name items (mkJobList [])
       = Return (mkJobList (jobsOwnedBy apiVersion kind name jobs))
       ∧ createJobListView object options
         = JobListHandler (Some (mkJobList (jobsOwnedBy apiVersion kind name jobs)))
             (mkOptions true (Link options) (ObjectStore options))
       ∧ ∀ job, job ∈ jobsOwnedBy apiVersion kind name jobs
                ↔ job ∈ jobs
                  ∧ ∃ ownerReference,
                      ownerReference ∈ OwnerReferences (JobMeta job)
                      ∧ ref_APIVersion ownerReference = apiVersion
                      ∧ ref_Kind ownerReference = kind
                      ∧ ref_Name ownerReference = name).
Proof.
  intros Hns Hv Hk Hn. split; [done|]. split.
  - intros options' Hlink Hlist. unfold createJobListView.
    rewrite Hns, Hv, Hk, Hn. simpl. rewrite Hlist, Hlink. done.
  - intros items jobs Hlist Hdec.
    pose proof (ownedJobs_spec apiVersion kind name items jobs (mkJobList []) Hdec) as Hown.
    simpl in Hown. split; [done|]. split.
    + unfold createJobListView. rewrite Hns, Hv, Hk, Hn. simpl.
      rewrite Hlist. simpl. by rewrite Hown.
    + intros job. unfold jobsOwnedBy. rewrite list_elem_of_bind. split.
      * intros (job' & Hin & Hjob'). apply list_elem_of_bind in Hin as (ref & Hin & Href).
        destruct (ownerMatches _ _ _ ref) eqn:Hm; [|by apply elem_of_nil in Hin].
        apply list_elem_of_singleton in Hin as ->.
        split; [done|]. exists ref. split; [done|]. by apply ownerMatches_spec.
      * intros (Hin & ref & Href & Hm). exists job. split; [|done].
        apply list_elem_of_bind. exists ref. split; [|done].
        apply ownerMatches_spec in Hm. rewrite Hm. by apply list_elem_of_singleton.
Qed.

(** ** Nil arguments *)

(** C1: with a nil argument, [JobListHandler], [SecretListHandler],
    [SecretHandler], [ReplicationControllerListHandler] and
    [ReplicationControllerHandler] return an error, whereas [JobHandler]
    panics on the nil pointer it dereferences. *)
Theorem handlers_on_nil (opts : Options U) :
  JobListHandler None opts = Fail (errors_New "job list is nil")
  ∧ SecretListHandler None opts = Fail (errors_New "list of secrets is nil")
  ∧ SecretHandler None opts = Fail (errors_New "secret is nil")
  ∧ ReplicationControllerListHandler None opts = Fail (errors_New "nil list")
  ∧ ReplicationControllerHandler None opts
    = Fail (errors_New "replicationcontroller is nil")
  ∧ JobHandler None opts = Panicked nil_pointer_dereference.
Proof. repeat split. Qed.

End Properties.


(** ** The claims at concrete inputs *)

Lemma list_handlers_rows_in_order_witness :
  (∃ table, JobListHandler Fixtures.PtrInt32ToString
              (Some (mkJobList [Fixtures.job "a" []; Fixtures.job "b" []])) Fixtures.opts
            = Return (CTable table)
     ∧ length (Rows table) = 2)
  ∧ (∃ table, SecretListHandler
                (Some (mkSecretList [Fixtures.secret "s" Fixtures.credentials])) Fixtures.opts
              = Return (CTable table)
       ∧ length (Rows table) = 1)
  ∧ (∃ table, ReplicationControllerListHandler Fixtures.printSelectorMap
                (Some (mkRCList [Fixtures.rc "r" [] (Some Fixtures.template)])) Fixtures.opts
              = Return (CTable table)
       ∧ length (Rows table) = 1).
Proof.
  destruct (list_handlers_rows_in_order (U := Job)
              Fixtures.PtrInt32ToString Fixtures.printSelectorMap) as (HJ & HS & HR).
  split; [|split].
  - destruct (HJ (mkJobList [Fixtures.job "a" []; Fixtures.job "b" []]) Fixtures.opts)
      as (table & Hrun & Hlen & _).
    + intros j Hj. simpl in Hj.
      apply elem_of_cons in Hj as [->|Hj]; [by eexists|].
      apply list_elem_of_singleton in Hj as ->. by eexists.
    + by exists table.
  - destruct (HS (mkSecretList [Fixtures.secret "s" Fixtures.credentials]) Fixtures.opts)
      as (table & Hrun & Hlen & _).
    + intros s Hs. simpl in Hs. apply list_elem_of_singleton in Hs as ->. by eexists.
    + by exists table.
  - destruct (HR (mkRCList [Fixtures.rc "r" [] (Some Fixtures.template)]) Fixtures.opts)
      as (table & Hrun & Hlen & _).
    + intros r Hr. simpl in Hr. apply list_elem_of_singleton in Hr as ->. by eexists.
    + intros r Hr. simpl in Hr. apply list_elem_of_singleton in Hr as ->. by eexists.
    + by exists table.
Defined.

(** C2, as stated, fails for [ReplicationControllerListHandler]: on a
    list of one replication controller without [Spec.Template], with a
    link builder that succeeds, the handler panics and returns no table. *)
Lemma rc_list_without_template_panics :
  let list := mkRCList [Fixtures.rc "r" [] None] in
  (∀ rc, rc ∈ RCItems list →
     ∃ link, ForObject (Link Fixtures.opts) (ObjRC (Some rc)) (Name (RCMeta rc)) = Return link)
  ∧ ReplicationControllerListHandler Fixtures.printSelectorMap (Some list) Fixtures.opts
    = Panicked nil_pointer_dereference
  ∧ ¬ ∃ table,
        ReplicationControllerListHandler Fixtures.printSelectorMap (Some list) Fixtures.opts
        = Return (CTable table)
        ∧ length (Rows table) = length (RCItems list).
Proof.
  simpl. split; [|split].
  - intros rc Hrc. apply list_elem_of_singleton in Hrc as ->. by eexists.
  - reflexivity.
  - intros (table & Hrun & _). discriminate Hrun.
Qed.

Lemma downstream_failure_propagates_witness :
  JobListHandler Fixtures.PtrInt32ToString
    (Some (mkJobList ([Fixtures.job "a" []] ++ Fixtures.job "broken" [] :: [Fixtures.job "c" []])))
    Fixtures.opts
  = Fail Fixtures.noRoute
  ∧ createJobListView Fixtures.PtrInt32ToString Return (λ j _, Return j)
      (λ _, Return "default") (λ _, Return "batch/v1beta1") (λ _, Return "CronJob")
      (λ _, Return "nightly") Fixtures.cronObject (Fixtures.options (Fail Fixtures.noRoute))
    = Fail (errors_Wrapf Fixtures.noRoute "list all objects for key %+v"
              (jobListKey "default")).
Proof.
  destruct (downstream_failure_propagates (U := Job)
              Fixtures.PtrInt32ToString Fixtures.printSelectorMap Return (λ j _, Return j)
              (λ _, Return "default") (λ _, Return "batch/v1beta1") (λ _, Return "CronJob")
              (λ _, Return "nightly")) as (HJ & _ & _ & HL).
  split.
  - apply HJ; [|reflexivity].
    intros j Hj. apply list_elem_of_singleton in Hj as ->. by eexists.
  - by apply (HL Fixtures.cronObject (Fixtures.options (Fail Fixtures.noRoute))
                 "default" "batch/v1beta1" "CronJob" "nightly").
Defined.

(** C4, as stated, fails: with a non-nil list, [JobListHandler] returns
    the error of a failing [Link.ForObject], and with a non-nil
    replication controller [Create] returns the error of a failing
    [Link.ForOwner].  Likewise [createJobListView] on a non-nil object
    returns the wrapped error of a failing accessor or of a failing
    [ObjectStore.List] and the error of an item that does not decode,
    and [ReplicationControllerStatus.Create] on a non-nil replication
    controller returns the error of a failing [listPods] and its own
    error when a [Quadrant.Set] fails. *)
Lemma non_nil_inputs_can_fail :
  JobListHandler Fixtures.PtrInt32ToString
    (Some (mkJobList [Fixtures.job "broken" []])) Fixtures.opts
  = Fail Fixtures.noRoute
  ∧ ReplicationControllerConfiguration_Create
      (NewReplicationControllerConfiguration
         (Some (Fixtures.rc "r" [Fixtures.cron "broken"] (Some Fixtures.template))))
      Fixtures.opts
    = Fail Fixtures.noRoute
  ∧ createJobListView Fixtures.PtrInt32ToString MoreFixtures.FromUnstructured
      MoreFixtures.copyObjectMeta MoreFixtures.namespaceOf MoreFixtures.noAccessor
      MoreFixtures.kindOf MoreFixtures.nameOf
      (ObjJob (Some MoreFixtures.nightly)) Fixtures.opts
    = Fail (errors_Wrap Fixtures.noRoute "Get apiVersion for object")
  ∧ createJobListView Fixtures.PtrInt32ToString MoreFixtures.FromUnstructured
      MoreFixtures.copyObjectMeta MoreFixtures.namespaceOf MoreFixtures.apiVersionOf
      MoreFixtures.kindOf MoreFixtures.nameOf
      (ObjJob (Some MoreFixtures.nightly)) (Fixtures.options (Fail Fixtures.noRoute))
    = Fail (errors_Wrapf Fixtures.noRoute "list all objects for key %+v"
              (store.mkKey "default" "batch/v1beta1" "Job"))
  ∧ createJobListView Fixtures.PtrInt32ToString MoreFixtures.FromUnstructured
      MoreFixtures.copyObjectMeta MoreFixtures.namespaceOf MoreFixtures.apiVersionOf
      MoreFixtures.kindOf MoreFixtures.nameOf
      (ObjJob (Some MoreFixtures.nightly))
      (Fixtures.options (Return [Fixtures.job "broken" []]))
    = Fail Fixtures.noRoute
  ∧ rcstatus.Create (StatusFixtures.listPods (Fail Fixtures.noRoute))
      StatusFixtures.createPodStatus StatusFixtures.NewQuadrant StatusFixtures.Set_
      StatusFixtures.GetUID
      (rcstatus.NewReplicationControllerStatus (Some (Fixtures.rc "r" [] None)))
      (Fixtures.jobStore (Return []))
    = Fail Fixtures.noRoute
  ∧ rcstatus.Create
      (StatusFixtures.listPods (Return (rcstatus.mkPodStatus 3 0 0 0)))
      StatusFixtures.createPodStatus StatusFixtures.NewQuadrant
      (StatusFixtures.brokenSet rcstatus.QuadNE) StatusFixtures.GetUID
      (rcstatus.NewReplicationControllerStatus (Some (Fixtures.rc "r" [] None)))
      (Fixtures.jobStore (Return []))
    = Fail (errors_New "unable to set quadrant ne").
Proof. split_and!; reflexivity. Qed.

Lemma summary_sections_in_authored_order_witness :
  (∀ s, ReplicationControllerConfiguration_Create
          (NewReplicationControllerConfiguration
             (Some (Fixtures.rc "r" [Fixtures.cron "nightly"] (Some Fixtures.template))))
          Fixtures.opts = Return s →
        headers s = ["Controlled By"; "Replica Status"; "Replicas"])
  ∧ ∃ s, ReplicationControllerConfiguration_Create
           (NewReplicationControllerConfiguration
              (Some (Fixtures.rc "r" [Fixtures.cron "nightly"] (Some Fixtures.template))))
           Fixtures.opts = Return s.
Proof.
  destruct (summary_sections_in_authored_order (U := Job) Fixtures.PtrInt32ToString)
    as (_ & Horder & Hreturns).
  split.
  - intros s Hs.
    apply (Horder (Fixtures.rc "r" [Fixtures.cron "nightly"] (Some Fixtures.template))
                  Fixtures.opts s Hs).
  - apply Hreturns. intros controllerRef [= <-]. by eexists.
Defined.


Lemma createJobListView_owned_jobs_witness :
  let owned := Fixtures.job "a" [Fixtures.cron "nightly"; Fixtures.cron "nightly"] in
  let other := Fixtures.job "b" [Fixtures.cron "weekly"] in
  createJobListView Fixtures.PtrInt32ToString Return (λ j _, Return j)
    (λ _, Return "default") (λ _, Return "batch/v1beta1") (λ _, Return "CronJob")
    (λ _, Return "nightly") Fixtures.cronObject (Fixtures.options (Return [owned; other]))
  = JobListHandler Fixtures.PtrInt32ToString (Some (mkJobList [owned; owned]))
      (mkOptions true Fixtures.link (Fixtures.jobStore (Return [owned; other]))).
Proof.
  intros owned other.
  destruct (createJobListView_owned_jobs (U := Job)
              Fixtures.PtrInt32ToString Return (λ j _, Return j)
              (λ _, Return "default") (λ _, Return "batch/v1beta1") (λ _, Return "CronJob")
              (λ _, Return "nightly") Fixtures.cronObject
              (Fixtures.options (Return [owned; other]))
              "default" "batch/v1beta1" "CronJob" "nightly"
              eq_refl eq_refl eq_refl eq_refl) as (_ & _ & Hjobs).
  destruct (Hjobs [owned; other] [owned; other] eq_refl) as (_ & Hview & _).
  - repeat constructor; by eexists.
  - exact Hview.
Defined.

(** C3: [secretData] ranges over the Go map [secret.Data], whose
    iteration order the language does not fix: for a secret with the keys
    "password" and "username" both the table listing "password" first
    and the table listing "username" first are outcomes of the call. *)
Theorem secretData_row_order_varies :
  let secret := Fixtures.secret "s" Fixtures.credentials in
  secretData secret (Return (Fixtures.keyTable ["password"; "username"]))
  ∧ secretData secret (Return (Fixtures.keyTable ["username"; "password"]))
  ∧ Fixtures.keyTable ["password"; "username"] ≠ Fixtures.keyTable ["username"; "password"].
Proof.
  intros secret. split; [|split].
  - exists ["password"; "username"]. split; [|reflexivity].
    unfold map_range. vm_compute. first [reflexivity | apply perm_swap].
  - exists ["username"; "password"]. split; [|reflexivity].
    unfold map_range. vm_compute. first [reflexivity | apply perm_swap].
  - intros Heq.
    apply (f_equal (λ t : Table, Rows t !! 0%nat ≫= (.!! "Key"))) in Heq.
    vm_compute in Heq. discriminate Heq.
Qed.


(** ** The repository's own test cases *)

(** [fmt.Sprintf("%d", n)] on a few values. *)
Example fmt_d_examples :
  fmt_d 0 = "0" ∧ fmt_d 3 = "3" ∧ fmt_d 2147483647 = "2147483647" ∧ fmt_d (-12) = "-12".
Proof. repeat split. Qed.

(** Test_ReplicationControllerListHandler: one replication controller
    "rc-test" with 0 of 3 replicas available prints as one row. *)
Example ReplicationControllerListHandler_test :
  let labels : gmap string string := {["foo" := "bar"]} in
  let rc := mkRC (mkObjectMeta "rc-test" "default" labels 1546300800%Z [])
                 (mkRCSpec None {["app" := "myapp"]} (Some Fixtures.template))
                 (mkRCStatus 3%Z 0%Z 0%Z) in
  ReplicationControllerListHandler Fixtures.printSelectorMap (Some (mkRCList [rc])) Fixtures.opts
  = Return (CTable (Add (NewTable "ReplicationControllers"
                           "We couldn't find any replication controllers!"
                           ["Name"; "Labels"; "Status"; "Age"; "Containers"; "Selector"])
                        (<["Name" := component.Link "" "rc-test" "/rc-test"]>
                         (<["Labels" := Labels labels]>
                          (<["Status" := Text "0/3"]>
                           (<["Age" := Timestamp 1546300800%Z]>
                            (<["Containers" := Containers [("nginx", "nginx:1.15")]]>
                             (<["Selector" := Selectors [LabelSelector "app" "myapp"]]> ∅)))))))).
Proof. reflexivity. Qed.

(** * Further properties of the printers *)

Section MoreProperties.

Context {U : Type}.
Variable PtrInt32ToString : option Z → string.
Variable printSelectorMap : gmap string string → Component.
Variable createPodListView : Object → Options U → result Component.
Variable FromUnstructured : U → result Job.
Variable copyObjectMeta : Job → U → result Job.
Variable accessor_Namespace : Object → result string.
Variable accessor_APIVersion : Object → result string.
Variable accessor_Kind : Object → result string.
Variable accessor_Name : Object → result string.
Variable ToComponent : ObjectPrinter → Options U → result Component.
Variable ReplicationControllerStatus_Create :
  option ReplicationController → Store U → result Component.

Local Abbreviation JobRow := (JobRow PtrInt32ToString).
Local Abbreviation JobStep := (JobStep PtrInt32ToString).
Local Abbreviation JobListHandler := (JobListHandler PtrInt32ToString).
Local Abbreviation createJobConfiguration := (createJobConfiguration PtrInt32ToString).
Local Abbreviation JobHandler := (JobHandler PtrInt32ToString createPodListView ToComponent).
Local Abbreviation decodes := (decodes FromUnstructured copyObjectMeta).
Local Abbreviation ownedJobs := (ownedJobs FromUnstructured copyObjectMeta).
Local Abbreviation createJobListView :=
  (createJobListView PtrInt32ToString FromUnstructured copyObjectMeta
     accessor_Namespace accessor_APIVersion accessor_Kind accessor_Name).
Local Abbreviation SecretHandler := (SecretHandler ToComponent).
Local Abbreviation RCRow := (RCRow printSelectorMap).
Local Abbreviation RCStep := (RCStep printSelectorMap).
Local Abbreviation ReplicationControllerListHandler :=
  (ReplicationControllerListHandler printSelectorMap).
Local Abbreviation ReplicationControllerHandler :=
  (ReplicationControllerHandler createPodListView ToComponent
     ReplicationControllerStatus_Create).

(** ** The loops, read backwards *)

Lemma with_rows_nil (t : Table) : with_rows t [] = t.
Proof. unfold with_rows. rewrite app_nil_r. by destruct t. Qed.

Lemma with_rows_Add (t : Table) row rows :
  with_rows (Add t row) rows = with_rows t (row :: rows).
Proof. unfold with_rows, Add. simpl. by rewrite <- app_assoc. Qed.

Lemma for_range_rows_inv {A} (step : A → result TableRow) body :
  (∀ t x, body t x = (row ← step x; Return (Add t row))) →
  ∀ items t t', for_range items body t = Return t' →
    ∃ rows, Forall2 (λ x row, step x = Return row) items rows ∧ t' = with_rows t rows.
Proof.
  intros Hb items. induction items as [|x items IH]; intros t t'; simpl.
  - intros [= <-]. exists []. split; [constructor|]. by rewrite with_rows_nil.
  - rewrite Hb. destruct (step x) as [row| |] eqn:Hx; simpl; [|done..].
    intros Hrun. destruct (IH _ _ Hrun) as (rows & HF & ->).
    exists (row :: rows). split; [by constructor|]. apply with_rows_Add.
Qed.

Lemma for_range_ext {A T} (f g : T → A → result T) items t :
  (∀ s x, x ∈ items → f s x = g s x) →
  for_range items f t = for_range items g t.
Proof.
  revert t. induction items as [|x items IH]; intros t Hfg; simpl; [done|].
  rewrite Hfg by (by left). destruct (g t x); simpl; [|done..].
  apply IH. intros s y Hy. apply Hfg. by right.
Qed.

Lemma JobListHandler_rows (list : JobList) (opts : Options U) (table : Table) :
  JobListHandler (Some list) opts = Return (CTable table)
  ↔ ∃ rows, Forall2 (λ job row, JobStep opts job = Return row) (JobItems list) rows
            ∧ table = with_rows jobsTable rows.
Proof.
  unfold JobListHandler. fold jobsTable. split.
  - destruct (for_range _ _ _) as [t| |] eqn:Hrun; simpl; [|done..].
    intros [= ->]. by apply (for_range_rows_inv (JobStep opts) _ (JobBody_step PtrInt32ToString opts)) in Hrun.
  - intros (rows & HF & ->).
    by rewrite (for_range_rows_ok (JobStep opts) _ (JobBody_step PtrInt32ToString opts) _ rows).
Qed.

Lemma SecretListHandler_rows (list : SecretList) (options : Options U) (table : Table) :
  SecretListHandler (Some list) options = Return (CTable table)
  ↔ ∃ rows, Forall2 (λ secret row, SecretStep options secret = Return row)
              (SecretItems list) rows
            ∧ table = with_rows secretsTable rows.
Proof.
  unfold SecretListHandler. fold secretsTable. split.
  - destruct (for_range _ _ _) as [t| |] eqn:Hrun; simpl; [|done..].
    intros [= ->]. by apply (for_range_rows_inv (SecretStep options) _
                               (SecretBody_step options)) in Hrun.
  - intros (rows & HF & ->).
    by rewrite (for_range_rows_ok (SecretStep options) _ (SecretBody_step options) _ rows).
Qed.

Lemma ReplicationControllerListHandler_rows (list : ReplicationControllerList)
    (options : Options U) (table : Table) :
  ReplicationControllerListHandler (Some list) options = Return (CTable table)
  ↔ ∃ rows, Forall2 (λ rc row, RCStep options rc = Return row) (RCItems list) rows
            ∧ table = with_rows rcTable rows.
Proof.
  unfold ReplicationControllerListHandler. fold rcTable. split.
  - destruct (for_range _ _ _) as [t| |] eqn:Hrun; simpl; [|done..].
    intros [= ->]. by apply (for_range_rows_inv (RCStep options) _ (RCBody_step printSelectorMap options)) in Hrun.
  - intros (rows & HF & ->).
    by rewrite (for_range_rows_ok (RCStep options) _ (RCBody_step printSelectorMap options) _ rows).
Qed.

(** ** Rows and columns *)

Lemma Forall2_rows {A} (step : A → result TableRow) (Q : TableRow → Prop) xs rows :
  Forall2 (λ x row, step x = Return row) xs rows →
  (∀ x row, step x = Return row → Q row) →
  Forall Q rows.
Proof. intros HF HQ. induction HF; constructor; eauto. Qed.

Lemma JobRow_dom link job : dom (JobRow link job) = list_to_set JobCols.
Proof.
  unfold JobRow, JobCols, NewTableCols. simpl.
  rewrite !dom_insert_L, dom_empty_L. set_solver.
Qed.

Lemma SecretRow_dom link secret : dom (SecretRow link secret) = list_to_set secretTableCols.
Proof.
  unfold SecretRow, secretTableCols, NewTableCols. simpl.
  rewrite !dom_insert_L, dom_empty_L. set_solver.
Qed.

Lemma RCRow_dom link rc template : dom (RCRow link rc template) = list_to_set rcCols.
Proof.
  unfold RCRow, rcCols, NewTableCols. simpl.
  rewrite !dom_insert_L, dom_empty_L. set_solver.
Qed.

Lemma createJobConditions_rows conditions :
  createJobConditions conditions
  = Return (with_rows conditionsTable (JobConditionRow <$> conditions)).
Proof.
  unfold createJobConditions. fold conditionsTable.
  rewrite (for_range_rows_ok (λ condition, Return (JobConditionRow condition)) _
             (λ _ _, eq_refl) conditions (JobConditionRow <$> conditions)); [done|].
  induction conditions; constructor; auto.
Qed.

(** X1: every row of a table returned by [JobListHandler],
    [SecretListHandler], [ReplicationControllerListHandler],
    [secretData] or [createJobConditions] has a cell for each column of
    the table and for nothing else, and the table carries the title and
    the columns of its kind. *)
Theorem rows_have_the_columns_of_their_table :
  (∀ (list : JobList) (opts : Options U) table,
      JobListHandler (Some list) opts = Return (CTable table) →
      Title table = "Jobs"
      ∧ Columns table = ["Name"; "Labels"; "Completions"; "Successful"; "Age"]
      ∧ Forall (λ row : TableRow, dom row = list_to_set (Columns table)) (Rows table))
  ∧ (∀ (list : SecretList) (options : Options U) table,
      SecretListHandler (Some list) options = Return (CTable table) →
      Title table = "Secrets"
      ∧ Columns table = ["Name"; "Labels"; "Type"; "Data"; "Age"]
      ∧ Forall (λ row : TableRow, dom row = list_to_set (Columns table)) (Rows table))
  ∧ (∀ (list : ReplicationControllerList) (options : Options U) table,
      ReplicationControllerListHandler (Some list) options = Return (CTable table) →
      Title table = "ReplicationControllers"
      ∧ Columns table = ["Name"; "Labels"; "Status"; "Age"; "Containers"; "Selector"]
      ∧ Forall (λ row : TableRow, dom row = list_to_set (Columns table)) (Rows table))
  ∧ (∀ secret table,
      secretData secret (Return table) →
      Title table = "Data"
      ∧ Columns table = ["Key"]
      ∧ Forall (λ row : TableRow, dom row = list_to_set (Columns table)) (Rows table))
  ∧ (∀ conditions table,
      createJobConditions conditions = Return table →
      Title table = "Conditions"
      ∧ Columns table
        = ["Type"; "Last Probe"; "Last Transition"; "Status"; "Message"; "Reason"]
      ∧ Forall (λ row : TableRow, dom row = list_to_set (Columns table)) (Rows table)).
Proof.
  split; [|split; [|split; [|split]]].
  - intros list opts table (rows & HF & ->)%JobListHandler_rows.
    split; [done|]. split; [done|]. simpl.
    apply (Forall2_rows _ _ _ _ HF). intros job row. unfold JobStep.
    destruct (ForObject _ _ _) as [link| |]; simpl; [|done..].
    intros [= <-]. apply JobRow_dom.
  - intros list options table (rows & HF & ->)%SecretListHandler_rows.
    split; [done|]. split; [done|]. simpl.
    apply (Forall2_rows _ _ _ _ HF). intros secret row. unfold SecretStep.
    destruct (ForObject _ _ _) as [link| |]; simpl; [|done..].
    intros [= <-]. apply SecretRow_dom.
  - intros list options table (rows & HF & ->)%ReplicationControllerListHandler_rows.
    split; [done|]. split; [done|]. simpl.
    apply (Forall2_rows _ _ _ _ HF). intros rc row. unfold RCStep.
    destruct (ForObject _ _ _) as [link| |]; simpl; [|done..].
    destruct (Template (RCSpec rc)) as [template|]; simpl; [|done].
    intros [= <-]. apply RCRow_dom.
  - intros secret table (keys & _ & Hrun). rewrite secretData_in_rows in Hrun.
    injection Hrun as ->. split; [done|]. split; [done|]. simpl.
    apply Forall_fmap, Forall_forall. intros key _. simpl.
    unfold secretDataRow. rewrite dom_insert_L, dom_empty_L. set_solver.
  - intros conditions table. rewrite createJobConditions_rows. intros [= <-].
    split; [done|]. split; [done|]. simpl.
    apply Forall_fmap, Forall_forall. intros condition _. simpl.
    unfold JobConditionRow. rewrite !dom_insert_L, dom_empty_L. set_solver.
Qed.

(** X2: [createJobConditions] never fails and returns the "Conditions"
    table with one row per condition, in the order of the conditions,
    the row of a condition holding its type, probe and transition times,
    status, message and reason. *)
Theorem createJobConditions_one_row_per_condition (conditions : list JobCondition) :
  ∃ table, createJobConditions conditions = Return table
    ∧ length (Rows table) = length conditions
    ∧ ∀ i condition, conditions !! i = Some condition →
        ∃ row, Rows table !! i = Some row
          ∧ row !! "Type" = Some (Text (cond_Type condition))
          ∧ row !! "Last Probe" = Some (Timestamp (LastProbeTime condition))
          ∧ row !! "Last Transition" = Some (Timestamp (LastTransitionTime condition))
          ∧ row !! "Status" = Some (Text (cond_Status condition))
          ∧ row !! "Message" = Some (Text (Message condition))
          ∧ row !! "Reason" = Some (Text (Reason condition)).
Proof.
  eexists. split; [apply createJobConditions_rows|]. simpl.
  split; [by rewrite length_fmap|].
  intros i condition Hi. exists (JobConditionRow condition).
  split; [by rewrite list_lookup_fmap, Hi|].
  unfold JobConditionRow. repeat split; by simplify_map_eq.
Qed.

(** ** Lists put together *)

Lemma with_rows_with_rows (t : Table) rows1 rows2 :
  with_rows (with_rows t rows1) rows2 = with_rows t (rows1 ++ rows2).
Proof. unfold with_rows. simpl. by rewrite <- app_assoc. Qed.

Ltac concatenate rows_iff :=
  let rows1 := fresh "rows1" in
  let rows2 := fresh "rows2" in
  let rows := fresh "rows" in
  let HF1 := fresh "HF1" in
  let HF2 := fresh "HF2" in
  let HF := fresh "HF" in
  split;
  [ intros ? ? (rows1 & HF1 & ->)%rows_iff (rows2 & HF2 & ->)%rows_iff;
    apply rows_iff; exists (rows1 ++ rows2);
    split; [by apply Forall2_app | simpl; by rewrite with_rows_with_rows]
  | intros ? (rows & HF & ->)%rows_iff;
    apply Forall2_app_inv_l in HF as (rows1 & rows2 & HF1 & HF2 & ->);
    eexists _, _;
    split; [apply rows_iff; by exists rows1 |];
    split; [apply rows_iff; by exists rows2 | done] ].

(** X3: the list handlers distribute over concatenation: when the
    handler returns a table for each of two lists, it returns for the
    two lists put together the first table followed by the rows of the
    second, and a table returned for two lists put together is made of
    the tables returned for each of them. *)
Theorem list_handlers_concatenate :
  (∀ (l1 l2 : list Job) (opts : Options U),
      (∀ t1 t2,
          JobListHandler (Some (mkJobList l1)) opts = Return (CTable t1) →
          JobListHandler (Some (mkJobList l2)) opts = Return (CTable t2) →
          JobListHandler (Some (mkJobList (l1 ++ l2))) opts
          = Return (CTable (with_rows t1 (Rows t2))))
      ∧ (∀ t,
          JobListHandler (Some (mkJobList (l1 ++ l2))) opts = Return (CTable t) →
          ∃ t1 t2,
            JobListHandler (Some (mkJobList l1)) opts = Return (CTable t1)
            ∧ JobListHandler (Some (mkJobList l2)) opts = Return (CTable t2)
            ∧ Rows t = Rows t1 ++ Rows t2))
  ∧ (∀ (l1 l2 : list Secret) (options : Options U),
      (∀ t1 t2,
          SecretListHandler (Some (mkSecretList l1)) options = Return (CTable t1) →
          SecretListHandler (Some (mkSecretList l2)) options = Return (CTable t2) →
          SecretListHandler (Some (mkSecretList (l1 ++ l2))) options
          = Return (CTable (with_rows t1 (Rows t2))))
      ∧ (∀ t,
          SecretListHandler (Some (mkSecretList (l1 ++ l2))) options = Return (CTable t) →
          ∃ t1 t2,
            SecretListHandler (Some (mkSecretList l1)) options = Return (CTable t1)
            ∧ SecretListHandler (Some (mkSecretList l2)) options = Return (CTable t2)
            ∧ Rows t = Rows t1 ++ Rows t2))
  ∧ (∀ (l1 l2 : list ReplicationController) (options : Options U),
      (∀ t1 t2,
          ReplicationControllerListHandler (Some (mkRCList l1)) options
          = Return (CTable t1) →
          ReplicationControllerListHandler (Some (mkRCList l2)) options
          = Return (CTable t2) →
          ReplicationControllerListHandler (Some (mkRCList (l1 ++ l2))) options
          = Return (CTable (with_rows t1 (Rows t2))))
      ∧ (∀ t,
          ReplicationControllerListHandler (Some (mkRCList (l1 ++ l2))) options
          = Return (CTable t) →
          ∃ t1 t2,
            ReplicationControllerListHandler (Some (mkRCList l1)) options
            = Return (CTable t1)
            ∧ ReplicationControllerListHandler (Some (mkRCList l2)) options
              = Return (CTable t2)
            ∧ Rows t = Rows t1 ++ Rows t2)).
Proof.
  split; [|split].
  - intros l1 l2 opts. concatenate JobListHandler_rows.
  - intros l1 l2 options. concatenate SecretListHandler_rows.
  - intros l1 l2 options. concatenate ReplicationControllerListHandler_rows.
Qed.

(** X4: the outcome of a list handler depends on its options only
    through the answers of [Link.ForObject] for the items of the list
    (with their names): two options whose link builders agree on these
    give the same outcome, whatever [DisableLabels], the object store and
    [Link.ForOwner] are. *)
Theorem list_handlers_use_only_the_link :
  (∀ (list : JobList) (opts opts' : Options U),
      (∀ job, job ∈ JobItems list →
         ForObject (Link opts) (ObjJob (Some job)) (Name (JobMeta job))
         = ForObject (Link opts') (ObjJob (Some job)) (Name (JobMeta job))) →
      JobListHandler (Some list) opts = JobListHandler (Some list) opts')
  ∧ (∀ (list : SecretList) (options options' : Options U),
      (∀ secret, secret ∈ SecretItems list →
         ForObject (Link options) (ObjSecret (Some secret)) (Name (SecretMeta secret))
         = ForObject (Link options') (ObjSecret (Some secret)) (Name (SecretMeta secret))) →
      SecretListHandler (Some list) options = SecretListHandler (Some list) options')
  ∧ (∀ (list : ReplicationControllerList) (options options' : Options U),
      (∀ rc, rc ∈ RCItems list →
         ForObject (Link options) (ObjRC (Some rc)) (Name (RCMeta rc))
         = ForObject (Link options') (ObjRC (Some rc)) (Name (RCMeta rc))) →
      ReplicationControllerListHandler (Some list) options
      = ReplicationControllerListHandler (Some list) options').
Proof.
  split; [|split].
  - intros list opts opts' Hlink. unfold JobListHandler.
    rewrite (for_range_ext _
               (λ table job,
                  nameLink ← ForObject (Link opts') (ObjJob (Some job)) (Name (JobMeta job));
                  Return (Add table (JobRow nameLink job)))); [done|].
    intros t job Hjob. by rewrite Hlink.
  - intros list options options' Hlink. unfold SecretListHandler.
    rewrite (for_range_ext _
               (λ table secret,
                  nameLink ← ForObject (Link options') (ObjSecret (Some secret))
                               (Name (SecretMeta secret));
                  Return (Add table (SecretRow nameLink secret)))); [done|].
    intros t secret Hsecret. by rewrite Hlink.
  - intros list options options' Hlink. unfold ReplicationControllerListHandler.
    rewrite (for_range_ext _
               (λ tbl rc,
                  nameLink ← ForObject (Link options') (ObjRC (Some rc)) (Name (RCMeta rc));
                  template ← deref (Template (RCSpec rc));
                  Return (Add tbl (RCRow nameLink rc template)))); [done|].
    intros t rc Hrc. by rewrite Hlink.
Qed.

(** ** The job list of an owner *)

Lemma for_range_app {A T} (f : T → A → result T) l1 l2 t :
  for_range (l1 ++ l2) f t = (t' ← for_range l1 f t; for_range l2 f t').
Proof.
  revert t. induction l1 as [|x l1 IH]; intros t; simpl; [done|].
  destruct (f t x); simpl; auto.
Qed.

Lemma matching_references apiVersion kind name (job : Job) refs :
  length (refs ≫= λ ownerReference : OwnerReference,
            if ownerMatches apiVersion kind name ownerReference then [job] else [])
  = length (filter (λ ownerReference,
                      ownerMatches apiVersion kind name ownerReference = true) refs).
Proof.
  induction refs as [|ref refs IH]; [done|]. csimpl. rewrite filter_cons.
  destruct (ownerMatches apiVersion kind name ref) eqn:Hm; simpl; by rewrite IH.
Qed.

Lemma createJobListView_unfold object (options : Options U) namespace apiVersion kind name
    listed jobs :
  accessor_Namespace object = Return namespace →
  accessor_APIVersion object = Return apiVersion →
  accessor_Kind object = Return kind →
  accessor_Name object = Return name →
  List (ObjectStore options) (jobListKey namespace) = Return listed →
  Forall2 decodes listed jobs →
  createJobListView object options
  = JobListHandler (Some (mkJobList (jobsOwnedBy apiVersion kind name jobs)))
      (mkOptions true (Link options) (ObjectStore options)).
Proof.
  intros Hns Hv Hk Hn Hlist Hdec. unfold createJobListView.
  rewrite Hns, Hv, Hk, Hn. simpl. rewrite Hlist. simpl.
  by rewrite (ownedJobs_spec FromUnstructured copyObjectMeta
                apiVersion kind name listed jobs (mkJobList []) Hdec).
Qed.

(** X5: [createJobListView] asks the object for its namespace, its
    apiVersion, its kind and its name, in this order, and ends at the
    first of them that fails with the error of the accessor wrapped in
    the message of that step, whatever the store holds. *)
Theorem createJobListView_accessor_errors (object : Object) (options : Options U) :
  (∀ e, accessor_Namespace object = Fail e →
        createJobListView object options
        = Fail (errors_Wrap e "get namespace for object"))
  ∧ (∀ namespace e,
        accessor_Namespace object = Return namespace →
        accessor_APIVersion object = Fail e →
        createJobListView object options
        = Fail (errors_Wrap e "Get apiVersion for object"))
  ∧ (∀ namespace apiVersion e,
        accessor_Namespace object = Return namespace →
        accessor_APIVersion object = Return apiVersion →
        accessor_Kind object = Fail e →
        createJobListView object options = Fail (errors_Wrap e "get kind for object"))
  ∧ (∀ namespace apiVersion kind e,
        accessor_Namespace object = Return namespace →
        accessor_APIVersion object = Return apiVersion →
        accessor_Kind object = Return kind →
        accessor_Name object = Fail e →
        createJobListView object options = Fail (errors_Wrap e "get name for object")).
Proof.
  unfold createJobListView. repeat split.
  - by intros e ->.
  - by intros namespace e -> ->.
  - by intros namespace apiVersion e -> -> ->.
  - by intros namespace apiVersion kind e -> -> -> ->.
Qed.

(** X6: one listed item that cannot be decoded fails the whole view,
    also when it would not belong to the object: when the items before
    it decode, [createJobListView] returns the error of
    [FromUnstructured] for the item as it is, or else the error of
    [copyObjectMeta] wrapped in "copy object metadata". *)
Theorem createJobListView_decode_errors
    (object : Object) (options : Options U) (namespace apiVersion kind name : string)
    (pre : list U) (item : U) (post : list U) (jobs : list Job) (e : error) :
  accessor_Namespace object = Return namespace →
  accessor_APIVersion object = Return apiVersion →
  accessor_Kind object = Return kind →
  accessor_Name object = Return name →
  List (ObjectStore options) (jobListKey namespace) = Return (pre ++ item :: post) →
  Forall2 decodes pre jobs →
  (FromUnstructured item = Fail e → createJobListView object options = Fail e)
  ∧ (∀ converted,
       FromUnstructured item = Return converted →
       copyObjectMeta converted item = Fail e →
       createJobListView object options = Fail (errors_Wrap e "copy object metadata")).
Proof.
  intros Hns Hv Hk Hn Hlist Hdec.
  pose proof (ownedJobs_spec FromUnstructured copyObjectMeta
                apiVersion kind name pre jobs (mkJobList []) Hdec) as Hpre.
  unfold ownedJobs in Hpre.
  split.
  - intros Hitem. unfold createJobListView.
    rewrite Hns, Hv, Hk, Hn. simpl. rewrite Hlist. simpl.
    unfold ownedJobs. rewrite for_range_app, Hpre. simpl. by rewrite Hitem.
  - intros converted Hitem Hcopy. unfold createJobListView.
    rewrite Hns, Hv, Hk, Hn. simpl. rewrite Hlist. simpl.
    unfold ownedJobs. rewrite for_range_app, Hpre. simpl. rewrite Hitem. simpl.
    by rewrite Hcopy.
Qed.

(** X7: when the object's accessors and the store answer and the listed
    items decode to [jobs], [createJobListView] returns the "Jobs" table
    with no rows if no owner reference of a listed job matches the
    object, without asking the link builder; and if the link builder
    succeeds on the owned jobs, it returns the "Jobs" table with as many
    rows as there are matching owner references, the rows being those of
    the owned jobs in the order listed, each with its "Labels" cell,
    although the view sets [DisableLabels]. *)
Theorem createJobListView_table
    (object : Object) (options : Options U) (namespace apiVersion kind name : string)
    (listed : list U) (jobs : list Job) :
  accessor_Namespace object = Return namespace →
  accessor_APIVersion object = Return apiVersion →
  accessor_Kind object = Return kind →
  accessor_Name object = Return name →
  List (ObjectStore options) (jobListKey namespace) = Return listed →
  Forall2 decodes listed jobs →
  (Forall (λ job, Forall (λ ownerReference,
                            ownerMatches apiVersion kind name ownerReference = false)
                         (OwnerReferences (JobMeta job))) jobs →
   createJobListView object options = Return (CTable jobsTable))
  ∧ ((∀ job, job ∈ jobsOwnedBy apiVersion kind name jobs →
        ∃ link, ForObject (Link options) (ObjJob (Some job)) (Name (JobMeta job))
                = Return link) →
     ∃ table, createJobListView object options = Return (CTable table)
       ∧ Title table = "Jobs"
       ∧ length (Rows table)
         = sum_list ((λ job, length (filter (λ ownerReference,
                                              ownerMatches apiVersion kind name
                                                ownerReference = true)
                                            (OwnerReferences (JobMeta job)))) <$> jobs)
       ∧ (∀ i job, jobsOwnedBy apiVersion kind name jobs !! i = Some job →
            ∃ link, ForObject (Link options) (ObjJob (Some job)) (Name (JobMeta job))
                    = Return link
                    ∧ Rows table !! i = Some (JobRow link job))
       ∧ Forall (λ row : TableRow, is_Some (row !! "Labels")) (Rows table)).
Proof.
  intros Hns Hv Hk Hn Hlist Hdec.
  rewrite (createJobListView_unfold object options namespace apiVersion kind name
             listed jobs Hns Hv Hk Hn Hlist Hdec).
  split.
  - intros Hnone.
    assert (jobsOwnedBy apiVersion kind name jobs = []) as ->; [|done].
    clear Hdec. unfold jobsOwnedBy. induction Hnone as [|job jobs Hjob _ IH]; [done|].
    csimpl. rewrite IH, app_nil_r.
    induction Hjob as [|ref refs Href _ IHrefs]; [done|].
    csimpl. by rewrite Href, IHrefs.
  - intros Hlinks.
    set (opts := mkOptions true (Link options) (ObjectStore options)).
    destruct (for_range_rows_total (JobStep opts) _
                (jobsOwnedBy apiVersion kind name jobs) jobsTable
                (JobBody_step PtrInt32ToString opts)) as (rows & Hrun & Hlen & Hrows).
    { intros job Hin. destruct (Hlinks job Hin) as [link Hl].
      exists (JobRow link job). unfold JobStep. simpl. by rewrite Hl. }
    unfold JobListHandler. fold jobsTable. simpl in *. rewrite Hrun. simpl.
    eexists. split; [done|]. split; [done|]. simpl. split; [|split].
    + rewrite Hlen. unfold jobsOwnedBy. clear.
      induction jobs as [|job jobs IH]; [done|].
      csimpl. by rewrite length_app, IH, matching_references.
    + intros i job Hi. destruct (Hrows i job Hi) as (row & Hrow & Hstep).
      unfold JobStep in Hstep. simpl in Hstep.
      destruct (ForObject _ _ _) as [link| |]; simplify_eq/=. eauto.
    + apply Forall_lookup. intros i row Hrow.
      destruct (lookup_lt_is_Some_2 (jobsOwnedBy apiVersion kind name jobs) i)
        as [job Hjob]; [rewrite <- Hlen; by eapply lookup_lt_Some|].
      destruct (Hrows i job Hjob) as (row' & Hrow' & Hstep).
      rewrite Hrow in Hrow'. injection Hrow' as <-.
      unfold JobStep in Hstep. destruct (ForObject _ _ _) as [link| |]; simplify_eq/=.
      unfold JobRow. by simplify_map_eq.
Qed.

End MoreProperties.

(** ** The data table of a secret *)

Lemma secretDataRow_key key : secretDataRow key !! "Key" = Some (Text key).
Proof. unfold secretDataRow. by simplify_map_eq. Qed.

#[local] Instance secretDataRow_inj : Inj (=) (=) secretDataRow.
Proof.
  intros k1 k2 Heq. apply (f_equal (λ row : TableRow, row !! "Key")) in Heq.
  rewrite !secretDataRow_key in Heq. by injection Heq.
Qed.

Lemma secretData_keys secret r :
  secretData secret r
  ↔ ∃ keys, keys ≡ₚ elements (dom (Data secret))
            ∧ r = Return (with_rows secretDataTable (secretDataRow <$> keys)).
Proof.
  unfold secretData, map_range.
  split; intros (keys & Hkeys & ->); exists keys; (split; [done|]);
    by rewrite secretData_in_rows.
Qed.

Lemma size_Data secret : size (Data secret) = length (elements (dom (Data secret))).
Proof. by rewrite <- size_dom. Qed.

(** X8: every outcome of [secretData] is a table with as many rows as
    [Data] has keys, no row twice, in which a key has its row exactly
    when it is a key of [Data]; a secret without data gives the table
    without rows. *)
Theorem secretData_one_row_per_key (secret : Secret) (table : Table) :
  secretData secret (Return table) →
  length (Rows table) = size (Data secret)
  ∧ NoDup (Rows table)
  ∧ (∀ key, ({["Key" := Text key]} : TableRow) ∈ Rows table ↔ is_Some (Data secret !! key))
  ∧ (Data secret = ∅ → table = secretDataTable).
Proof.
  intros (keys & Hkeys & [= ->])%secretData_keys. simpl.
  split; [|split; [|split]].
  - by rewrite length_fmap, Hkeys, size_Data.
  - apply NoDup_fmap_2; [apply _|]. rewrite Hkeys. apply NoDup_elements.
  - intros key. change ({["Key" := Text key]} : TableRow) with (secretDataRow key).
    rewrite (list_elem_of_fmap_inj secretDataRow), Hkeys, elem_of_elements.
    apply elem_of_dom.
  - intros Hempty. rewrite Hempty, dom_empty_L, elements_empty in Hkeys.
    apply Permutation_nil_r in Hkeys as ->. done.
Qed.

(** X9: [secretData] has a single outcome exactly for the secrets with
    at most one key in [Data]; with two keys or more, two calls may list
    the keys in different orders. *)
Theorem secretData_single_outcome_iff (secret : Secret) :
  (∀ r1 r2, secretData secret r1 → secretData secret r2 → r1 = r2)
  ↔ size (Data secret) ≤ 1.
Proof.
  rewrite size_Data. split.
  - intros Hdet. pose proof (NoDup_elements (dom (Data secret))) as Hnodup.
    destruct (elements (dom (Data secret))) as [|k1 [|k2 rest]] eqn:Hel; simpl; [lia..|].
    exfalso.
    assert (Return (with_rows secretDataTable (secretDataRow <$> k1 :: k2 :: rest))
            = Return (with_rows secretDataTable (secretDataRow <$> k2 :: k1 :: rest)))
      as Heq.
    { apply Hdet; apply secretData_keys; eexists; (split; [|done]);
        rewrite Hel; [done | apply perm_swap]. }
    apply (f_equal (λ r, match r with
                         | Return t => Rows t !! 0%nat ≫= (.!! "Key")
                         | _ => None
                         end)) in Heq.
    simpl in Heq. rewrite !secretDataRow_key in Heq. injection Heq as ->.
    apply NoDup_cons in Hnodup as [Hnotin _]. apply Hnotin. by left.
  - intros Hsize r1 r2 (keys1 & H1 & ->)%secretData_keys (keys2 & H2 & ->)%secretData_keys.
    destruct (elements (dom (Data secret))) as [|k [|k' rest]]; simpl in Hsize; [| |lia].
    + apply Permutation_nil_r in H1 as ->. by apply Permutation_nil_r in H2 as ->.
    + apply Permutation_singleton_r in H1 as ->.
      by apply Permutation_singleton_r in H2 as ->.
Qed.

(** ** Summaries and object printers *)

Section HandlerProperties.

Context {U : Type}.
Variable PtrInt32ToString : option Z → string.
Variable printSelectorMap : gmap string string → Component.
Variable createPodListView : Object → Options U → result Component.
Variable ToComponent : ObjectPrinter → Options U → result Component.
Variable ReplicationControllerStatus_Create :
  option ReplicationController → Store U → result Component.

Local Abbreviation JobRow := (JobRow PtrInt32ToString).
Local Abbreviation createJobConfiguration := (createJobConfiguration PtrInt32ToString).
Local Abbreviation JobHandler := (JobHandler PtrInt32ToString createPodListView ToComponent).
Local Abbreviation SecretHandler := (SecretHandler ToComponent).
Local Abbreviation RCRow := (RCRow printSelectorMap).
Local Abbreviation ReplicationControllerHandler :=
  (ReplicationControllerHandler createPodListView ToComponent
     ReplicationControllerStatus_Create).

(** X10: the sections of [createJobStatus] come in the order "Started",
    "Completed", "Succeeded", none of them twice, and "Started" and
    "Completed" show the start and the completion time of the job. *)
Theorem createJobStatus_order (job : Job) :
  ∃ s, createJobStatus job = Return s
    ∧ SummaryTitle s = "Status"
    ∧ headers s `sublist_of` ["Started"; "Completed"; "Succeeded"]
    ∧ (∀ startTime, StartTime (JobStatus_ job) = Some startTime →
         mkSection "Started" (Timestamp startTime) ∈ Sections s)
    ∧ (∀ completionTime, CompletionTime (JobStatus_ job) = Some completionTime →
         mkSection "Completed" (Timestamp completionTime) ∈ Sections s).
Proof.
  eexists. split; [reflexivity|]. split; [done|].
  unfold headers. simpl.
  destruct (StartTime (JobStatus_ job)) as [startTime|],
           (CompletionTime (JobStatus_ job)) as [completionTime|]; simpl.
  all: split; [|split; intros ? [=]; subst; set_unfold; auto].
  - done.
  - apply sublist_skip, sublist_cons, sublist_skip. done.
  - apply sublist_cons. done.
  - do 2 apply sublist_cons. done.
Qed.

(** X11: the list view and the detail view of an object agree: the
    "Completions" cell of a job's row is the content of the
    "Completions" section of its configuration, its "Successful" cell is
    the content of the "Succeeded" section of its status, and the "Type"
    cell of a secret's row is the content of the "Type" section of its
    configuration. *)
Theorem list_and_detail_agree :
  (∀ link job, ∃ configuration status,
      createJobConfiguration job = Return configuration
      ∧ createJobStatus job = Return status
      ∧ (∀ section, section ∈ Sections configuration → Header section = "Completions" →
           JobRow link job !! "Completions" = Some (Content section))
      ∧ (∀ section, section ∈ Sections status → Header section = "Succeeded" →
           JobRow link job !! "Successful" = Some (Content section)))
  ∧ (∀ link secret, ∃ configuration,
      secretConfiguration secret = Return configuration
      ∧ (∀ section, section ∈ Sections configuration → Header section = "Type" →
           SecretRow link secret !! "Type" = Some (Content section))
      ∧ headers configuration = ["Type"]).
Proof.
  split.
  - intros link job. eexists _, _. split; [reflexivity|]. split; [reflexivity|].
    simpl. split.
    + intros section Hin Hh. set_unfold in Hin.
      destruct Hin as [->| [->| [->|[]]]]; try discriminate Hh.
      unfold JobRow. by simplify_map_eq.
    + intros section Hin Hh.
      destruct (StartTime (JobStatus_ job)), (CompletionTime (JobStatus_ job));
        simpl in Hin; set_unfold in Hin;
        repeat (destruct Hin as [->|Hin]; [try discriminate Hh|]); try done;
        unfold JobRow; by simplify_map_eq.
  - intros link secret. eexists. split; [reflexivity|]. simpl. split; [|done].
    intros section Hin Hh. set_unfold in Hin. destruct Hin as [->|[]].
    unfold SecretRow. by simplify_map_eq.
Qed.

Lemma ContainersAdd_all (containers : list Container) (added : list (string * string)) :
  foldl (λ cs c, ContainersAdd cs (ContainerName c) (Image c)) (Containers added) containers
  = Containers (added ++ ((λ c, (ContainerName c, Image c)) <$> containers)).
Proof.
  revert added. induction containers as [|c containers IH]; intros added; simpl.
  - by rewrite app_nil_r.
  - rewrite IH. by rewrite <- app_assoc.
Qed.

(** X12: in the row of a replication controller the "Containers" cell
    lists the name and image of every container of the pod template, in
    the order of the template, the "Status" cell reads
    "<available replicas>/<replicas>", and the "Name", "Labels", "Age"
    and "Selector" cells hold the link, the labels, the creation time and
    the printed selector. *)
Theorem RCRow_cells (link : Component) (rc : ReplicationController)
    (template : PodTemplateSpec) :
  RCRow link rc template !! "Containers"
  = Some (Containers ((λ c, (ContainerName c, Image c)) <$> PodContainers template))
  ∧ RCRow link rc template !! "Status"
    = Some (Text (fmt_d (AvailableReplicas (RCStatus rc)) +:+ "/"
                  +:+ fmt_d (StatusReplicas (RCStatus rc))))
  ∧ RCRow link rc template !! "Name" = Some link
  ∧ RCRow link rc template !! "Labels" = Some (Labels (ObjLabels (RCMeta rc)))
  ∧ RCRow link rc template !! "Age" = Some (Timestamp (CreationTimestamp (RCMeta rc)))
  ∧ RCRow link rc template !! "Selector" = Some (printSelectorMap (Selector (RCSpec rc))).
Proof.
  unfold RCRow, NewContainers. rewrite ContainersAdd_all. simpl.
  repeat split; by simplify_map_eq.
Qed.

Lemma GetControllerOf_Some refs ref :
  GetControllerOf refs = Some ref
  ↔ ∃ pre post, refs = pre ++ ref :: post
                ∧ ref_Controller ref = Some true
                ∧ Forall (λ r, ref_Controller r ≠ Some true) pre.
Proof.
  split.
  - induction refs as [|r refs IH]; simpl; [done|].
    destruct (ref_Controller r) as [[]|] eqn:Hr.
    + intros [= ->]. exists [], refs. by repeat split.
    + intros (pre & post & -> & ? & ?)%IH. exists (r :: pre), post.
      repeat split; [done|]. constructor; [congruence|done].
    + intros (pre & post & -> & ? & ?)%IH. exists (r :: pre), post.
      repeat split; [done|]. constructor; [congruence|done].
  - intros (pre & post & -> & Href & Hpre).
    induction Hpre as [|r pre Hr _ IH]; simpl.
    + by rewrite Href.
    + destruct (ref_Controller r) as [[]|]; [done|apply IH..].
Qed.

Lemma GetControllerOf_None refs :
  GetControllerOf refs = None ↔ Forall (λ r, ref_Controller r ≠ Some true) refs.
Proof.
  split.
  - induction refs as [|r refs IH]; simpl; [constructor|].
    destruct (ref_Controller r) as [[]|] eqn:Hr; [done| |];
      intros ?%IH; constructor; congruence || done.
  - induction 1 as [|r refs Hr _ IH]; simpl; [done|].
    by destruct (ref_Controller r) as [[]|].
Qed.

(** X13: the summary of [ReplicationControllerConfiguration.Create] has
    a "Controlled By" section exactly when an owner reference of the
    replication controller is flagged as controller; the section is the
    first and holds the link that [Link.ForOwner] built for the first
    such reference; "Replica Status", when [Spec.Replicas] is set, reads
    "Current <ready> / Desired <desired>"; "Replicas" is the last section
    and holds the number of replicas of the status. *)
Theorem Create_sections (rc : ReplicationController) (options : Options U) (s : Summary) :
  ReplicationControllerConfiguration_Create
    (NewReplicationControllerConfiguration (Some rc)) options = Return s →
  SummaryTitle s = "Configuration"
  ∧ ("Controlled By" ∈ headers s
     ↔ ∃ ownerReference, ownerReference ∈ OwnerReferences (RCMeta rc)
                         ∧ ref_Controller ownerReference = Some true)
  ∧ (∀ pre controllerRef post,
       OwnerReferences (RCMeta rc) = pre ++ controllerRef :: post →
       ref_Controller controllerRef = Some true →
       Forall (λ r, ref_Controller r ≠ Some true) pre →
       ∃ link, ForOwner (Link options) (ObjRC (Some rc)) controllerRef = Return link
               ∧ head (Sections s) = Some (mkSection "Controlled By" link))
  ∧ (∀ desired, Replicas (RCSpec rc) = Some desired →
       mkSection "Replica Status"
         (Text ("Current " +:+ fmt_d (ReadyReplicas (RCStatus rc))
                +:+ " / Desired " +:+ fmt_d desired)) ∈ Sections s)
  ∧ last (Sections s)
    = Some (mkSection "Replicas" (Text (fmt_d (StatusReplicas (RCStatus rc))))).
Proof.
  unfold ReplicationControllerConfiguration_Create. simpl.
  destruct (GetControllerOf (OwnerReferences (RCMeta rc))) as [first|] eqn:Hget; simpl.
  - destruct (ForOwner _ _ _) as [link| |] eqn:Hown; simpl; [|done..].
    intros [= <-]. split; [done|].
    apply GetControllerOf_Some in Hget as (pre0 & post0 & Hrefs & Hfirst & Hpre0).
    split; [|split; [|split]].
    + split.
      * intros _. exists first. split; [|done]. rewrite Hrefs. set_solver.
      * intros _. unfold headers. destruct (Replicas (RCSpec rc)); simpl; set_solver.
    + intros pre controllerRef post Hrefs' Hc Hpre.
      assert (GetControllerOf (OwnerReferences (RCMeta rc)) = Some controllerRef) as Hget'.
      { apply GetControllerOf_Some. by exists pre, post. }
      assert (GetControllerOf (OwnerReferences (RCMeta rc)) = Some first) as Hget.
      { apply GetControllerOf_Some. by exists pre0, post0. }
      rewrite Hget in Hget'. injection Hget' as <-.
      exists link. split; [done|]. by destruct (Replicas (RCSpec rc)).
    + intros desired ->. simpl. unfold SectionsAddText, SectionsAdd. simpl. set_solver.
    + by destruct (Replicas (RCSpec rc)).
  - intros [= <-]. split; [done|].
    apply GetControllerOf_None in Hget.
    split; [|split; [|split]].
    + split.
      * unfold headers. destruct (Replicas (RCSpec rc)); simpl; intros Hin;
          set_unfold in Hin; by intuition.
      * intros (ref & Hin & Href). rewrite Forall_forall in Hget.
        by destruct (Hget ref Hin).
    + intros pre controllerRef post Hrefs Hc _. rewrite Forall_forall in Hget.
      destruct (Hget controllerRef); [|done]. rewrite Hrefs. set_solver.
    + intros desired ->. simpl. unfold SectionsAddText, SectionsAdd. simpl. set_solver.
    + by destruct (Replicas (RCSpec rc)).
Qed.

(** X14: [ReplicationControllerHandler] on a replication controller
    first builds the configuration summary: if that fails the handler
    returns its error, also for a controller without pod template; if it
    succeeds and [Spec.Template] is nil the handler panics; otherwise the
    outcome is that of the object printer with this configuration, no
    summary, the status quadrant at quarter width followed by the pod
    list at full width, the pod template and the events. *)
Theorem ReplicationControllerHandler_outcomes
    (rc : ReplicationController) (options : Options U) :
  (∀ e, ReplicationControllerConfiguration_Create
          (NewReplicationControllerConfiguration (Some rc)) options = Fail e →
        ReplicationControllerHandler (Some rc) options = Fail e)
  ∧ (∀ s, ReplicationControllerConfiguration_Create
            (NewReplicationControllerConfiguration (Some rc)) options = Return s →
          Template (RCSpec rc) = None →
          ReplicationControllerHandler (Some rc) options
          = Panicked nil_pointer_dereference)
  ∧ (∀ s template,
        ReplicationControllerConfiguration_Create
          (NewReplicationControllerConfiguration (Some rc)) options = Return s →
        Template (RCSpec rc) = Some template →
        ∃ o, ReplicationControllerHandler (Some rc) options = ToComponent o options
          ∧ object o = ObjRC (Some rc)
          ∧ config o = Some s
          ∧ summary o = None
          ∧ podTemplate o = Some template
          ∧ events o = true
          ∧ ItemWidth <$> items o = [WidthQuarter; WidthFull]
          ∧ (∀ item, items o !! 0%nat = Some item →
               ∀ r, Func item r
                    ↔ r = ReplicationControllerStatus_Create (Some rc) (ObjectStore options))
          ∧ (∀ item, items o !! 1%nat = Some item →
               ∀ r, Func item r ↔ r = createPodListView (ObjRC (Some rc)) options)).
Proof.
  unfold ReplicationControllerHandler. split; [|split].
  - by intros e ->.
  - intros s Hs Ht. rewrite Hs. simpl. by rewrite Ht.
  - intros s template Hs Ht. rewrite Hs. simpl. rewrite Ht. simpl.
    eexists. split; [reflexivity|]. simpl.
    split_and!; try done; intros item [= <-] r; reflexivity.
Qed.

End HandlerProperties.

(** ** The status quadrant of a replication controller *)

Section StatusProperties.

Context {U Pods Quadrant : Type}.
Variable listPods : string → option rcstatus.LabelSelector → string → Store U → result Pods.
Variable createPodStatus : Pods → rcstatus.PodStatus.
Variable NewQuadrant : string → Quadrant.
Variable Set_ : Quadrant → rcstatus.QuadrantPosition → string → string → result Quadrant.
Variable GetUID : ReplicationController → string.

Local Abbreviation Create :=
  (rcstatus.Create listPods createPodStatus NewQuadrant Set_ GetUID).

(** X15: [ReplicationControllerStatus.Create] panics on a nil receiver
    (unlike [ReplicationControllerConfiguration.Create], which checks
    it) and returns the error "replicationcontroller is nil" for a
    receiver without replication controller, without listing pods.
    Otherwise it lists the pods of the controller's namespace with its
    selector as match labels and its UID and returns a failure of the
    listing as it is. *)
Theorem status_Create_errors (o : Store U) :
  Create None o = Panicked nil_pointer_dereference
  ∧ Create (rcstatus.NewReplicationControllerStatus None) o
    = Fail (errors_New "replicationcontroller is nil")
  ∧ (∀ rc e,
       listPods (Namespace (RCMeta rc))
         (Some (rcstatus.mkLabelSelector (Selector (RCSpec rc)))) (GetUID rc) o = Fail e →
       Create (rcstatus.NewReplicationControllerStatus (Some rc)) o = Fail e).
Proof.
  split; [done|]. split; [done|].
  intros rc e Hlist. unfold rcstatus.Create. simpl. by rewrite Hlist.
Qed.

(** The quadrant after the four positions were set. *)
Lemma status_Create_listed rc o pods :
  listPods (Namespace (RCMeta rc))
    (Some (rcstatus.mkLabelSelector (Selector (RCSpec rc)))) (GetUID rc) o = Return pods →
  Create (rcstatus.NewReplicationControllerStatus (Some rc)) o
  = (let ps := createPodStatus pods in
     quadrant ← rcstatus.orNew
                  (Set_ (NewQuadrant "Status") rcstatus.QuadNW "Running"
                     (fmt_d (rcstatus.Running ps))) "unable to set quadrant nw";
     quadrant ← rcstatus.orNew
                  (Set_ quadrant rcstatus.QuadNE "Waiting"
                     (fmt_d (rcstatus.Waiting ps))) "unable to set quadrant ne";
     quadrant ← rcstatus.orNew
                  (Set_ quadrant rcstatus.QuadSW "Succeeded"
                     (fmt_d (rcstatus.PodsSucceeded ps))) "unable to set quadrant sw";
     quadrant ← rcstatus.orNew
                  (Set_ quadrant rcstatus.QuadSE "Failed"
                     (fmt_d (rcstatus.Failed ps))) "unable to set quadrant se";
     Return quadrant).
Proof. intros Hlist. unfold rcstatus.Create. simpl. by rewrite Hlist. Qed.

(** X16: once the pods are listed, [ReplicationControllerStatus.Create]
    fails only with one of the four errors "unable to set quadrant
    nw/ne/sw/se", which replaces the error of the failing
    [Quadrant.Set]; and when the four [Set] calls succeed it returns the
    quadrant titled "Status" on which "Running", "Waiting", "Succeeded"
    and "Failed" were set, in this order, at NW, NE, SW and SE to the
    decimal counts of the pod status. *)
Theorem status_Create_quadrant (rc : ReplicationController) (o : Store U) (pods : Pods) :
  listPods (Namespace (RCMeta rc))
    (Some (rcstatus.mkLabelSelector (Selector (RCSpec rc)))) (GetUID rc) o = Return pods →
  (∀ e, Create (rcstatus.NewReplicationControllerStatus (Some rc)) o = Fail e →
        e ∈ [errors_New "unable to set quadrant nw"; errors_New "unable to set quadrant ne";
             errors_New "unable to set quadrant sw"; errors_New "unable to set quadrant se"])
  ∧ (∀ q1 q2 q3 q4,
       let ps := createPodStatus pods in
       Set_ (NewQuadrant "Status") rcstatus.QuadNW "Running" (fmt_d (rcstatus.Running ps))
       = Return q1 →
       Set_ q1 rcstatus.QuadNE "Waiting" (fmt_d (rcstatus.Waiting ps)) = Return q2 →
       Set_ q2 rcstatus.QuadSW "Succeeded" (fmt_d (rcstatus.PodsSucceeded ps)) = Return q3 →
       Set_ q3 rcstatus.QuadSE "Failed" (fmt_d (rcstatus.Failed ps)) = Return q4 →
       Create (rcstatus.NewReplicationControllerStatus (Some rc)) o = Return q4)
  ∧ (∀ q, Create (rcstatus.NewReplicationControllerStatus (Some rc)) o = Return q →
       ∃ q1 q2 q3,
         let ps := createPodStatus pods in
         Set_ (NewQuadrant "Status") rcstatus.QuadNW "Running" (fmt_d (rcstatus.Running ps))
         = Return q1
         ∧ Set_ q1 rcstatus.QuadNE "Waiting" (fmt_d (rcstatus.Waiting ps)) = Return q2
         ∧ Set_ q2 rcstatus.QuadSW "Succeeded" (fmt_d (rcstatus.PodsSucceeded ps))
           = Return q3
         ∧ Set_ q3 rcstatus.QuadSE "Failed" (fmt_d (rcstatus.Failed ps)) = Return q).
Proof.
  intros Hlist. rewrite (status_Create_listed rc o pods Hlist). simpl.
  split; [|split].
  - intros e.
    destruct (Set_ _ rcstatus.QuadNW _ _) as [q1| |]; simpl; [|intros [= <-]; set_solver|done].
    destruct (Set_ _ rcstatus.QuadNE _ _) as [q2| |]; simpl; [|intros [= <-]; set_solver|done].
    destruct (Set_ _ rcstatus.QuadSW _ _) as [q3| |]; simpl; [|intros [= <-]; set_solver|done].
    destruct (Set_ _ rcstatus.QuadSE _ _) as [q4| |]; simpl; [done|intros [= <-]; set_solver|done].
  - intros q1 q2 q3 q4 -> . simpl. intros ->. simpl. intros ->. simpl. by intros ->.
  - intros q.
    destruct (Set_ _ rcstatus.QuadNW _ _) as [q1| |]; simpl; [|done..].
    destruct (Set_ _ rcstatus.QuadNE _ _) as [q2| |] eqn:H2; simpl; [|done..].
    destruct (Set_ _ rcstatus.QuadSW _ _) as [q3| |] eqn:H3; simpl; [|done..].
    destruct (Set_ _ rcstatus.QuadSE _ _) as [q4| |] eqn:H4; simpl; [|done..].
    intros [= <-]. by exists q1, q2, q3.
Qed.

End StatusProperties.

(** ** The further properties at concrete inputs *)

Lemma rows_have_the_columns_of_their_table_witness :
  let table := with_rows jobsTable
                 [JobRow Fixtures.PtrInt32ToString (MoreFixtures.linkTo "a")
                    (Fixtures.job "a" [])] in
  Title table = "Jobs"
  ∧ Columns table = ["Name"; "Labels"; "Completions"; "Successful"; "Age"]
  ∧ Forall (λ row : TableRow, dom row = list_to_set (Columns table)) (Rows table).
Proof.
  intros table.
  destruct (rows_have_the_columns_of_their_table (U := Job)
              Fixtures.PtrInt32ToString Fixtures.printSelectorMap) as (HJ & _).
  apply (HJ (mkJobList [Fixtures.job "a" []]) Fixtures.opts table).
  reflexivity.
Defined.

Lemma list_handlers_concatenate_witness :
  let row name := JobRow Fixtures.PtrInt32ToString (MoreFixtures.linkTo name)
                    (Fixtures.job name []) in
  JobListHandler Fixtures.PtrInt32ToString
    (Some (mkJobList ([Fixtures.job "a" []] ++ [Fixtures.job "b" []]))) Fixtures.opts
  = Return (CTable (with_rows (with_rows jobsTable [row "a"])
                      (Rows (with_rows jobsTable [row "b"])))).
Proof.
  intros row.
  destruct (list_handlers_concatenate (U := Job)
              Fixtures.PtrInt32ToString Fixtures.printSelectorMap) as (HJ & _).
  destruct (HJ [Fixtures.job "a" []] [Fixtures.job "b" []] Fixtures.opts) as (Happ & _).
  apply Happ; reflexivity.
Defined.

Lemma list_handlers_use_only_the_link_witness :
  JobListHandler Fixtures.PtrInt32ToString (Some (mkJobList [Fixtures.job "a" []]))
    Fixtures.opts
  = JobListHandler Fixtures.PtrInt32ToString (Some (mkJobList [Fixtures.job "a" []]))
      (mkOptions true Fixtures.link (Fixtures.jobStore (Fail Fixtures.noRoute))).
Proof.
  destruct (list_handlers_use_only_the_link (U := Job)
              Fixtures.PtrInt32ToString Fixtures.printSelectorMap) as (HJ & _).
  apply HJ. intros job _. reflexivity.
Defined.

Lemma createJobListView_accessor_errors_witness :
  createJobListView Fixtures.PtrInt32ToString MoreFixtures.FromUnstructured
    MoreFixtures.copyObjectMeta MoreFixtures.namespaceOf MoreFixtures.noAccessor
    MoreFixtures.kindOf MoreFixtures.nameOf Fixtures.cronObject Fixtures.opts
  = Fail (errors_Wrap Fixtures.noRoute "Get apiVersion for object").
Proof.
  destruct (createJobListView_accessor_errors (U := Job)
              Fixtures.PtrInt32ToString MoreFixtures.FromUnstructured
              MoreFixtures.copyObjectMeta MoreFixtures.namespaceOf MoreFixtures.noAccessor
              MoreFixtures.kindOf MoreFixtures.nameOf Fixtures.cronObject Fixtures.opts)
    as (_ & Hversion & _).
  apply (Hversion "default"); reflexivity.
Defined.

Lemma createJobListView_decode_errors_witness :
  createJobListView Fixtures.PtrInt32ToString MoreFixtures.FromUnstructured
    MoreFixtures.copyObjectMeta MoreFixtures.namespaceOf MoreFixtures.apiVersionOf
    MoreFixtures.kindOf MoreFixtures.nameOf Fixtures.cronObject
    (Fixtures.options (Return ([MoreFixtures.nightly] ++ Fixtures.job "broken" [] :: [])))
  = Fail Fixtures.noRoute.
Proof.
  destruct (createJobListView_decode_errors (U := Job)
              Fixtures.PtrInt32ToString MoreFixtures.FromUnstructured
              MoreFixtures.copyObjectMeta MoreFixtures.namespaceOf MoreFixtures.apiVersionOf
              MoreFixtures.kindOf MoreFixtures.nameOf Fixtures.cronObject
              (Fixtures.options
                 (Return ([MoreFixtures.nightly] ++ Fixtures.job "broken" [] :: [])))
              "default" "batch/v1beta1" "CronJob" "nightly"
              [MoreFixtures.nightly] (Fixtures.job "broken" []) [] [MoreFixtures.nightly]
              Fixtures.noRoute eq_refl eq_refl eq_refl eq_refl eq_refl) as (Hconvert & _).
  - repeat constructor. by eexists.
  - apply Hconvert. reflexivity.
Defined.

Lemma createJobListView_table_witness :
  createJobListView Fixtures.PtrInt32ToString MoreFixtures.FromUnstructured
    MoreFixtures.copyObjectMeta MoreFixtures.namespaceOf MoreFixtures.apiVersionOf
    MoreFixtures.kindOf MoreFixtures.nameOf Fixtures.cronObject
    (Fixtures.options (Return [MoreFixtures.weekly]))
  = Return (CTable jobsTable)
  ∧ ∃ table,
      createJobListView Fixtures.PtrInt32ToString MoreFixtures.FromUnstructured
        MoreFixtures.copyObjectMeta MoreFixtures.namespaceOf MoreFixtures.apiVersionOf
        MoreFixtures.kindOf MoreFixtures.nameOf Fixtures.cronObject
        (Fixtures.options (Return [MoreFixtures.nightly; MoreFixtures.weekly]))
      = Return (CTable table)
      ∧ length (Rows table) = 2.
Proof.
  split.
  - destruct (createJobListView_table (U := Job)
                Fixtures.PtrInt32ToString MoreFixtures.FromUnstructured
                MoreFixtures.copyObjectMeta MoreFixtures.namespaceOf MoreFixtures.apiVersionOf
                MoreFixtures.kindOf MoreFixtures.nameOf Fixtures.cronObject
                (Fixtures.options (Return [MoreFixtures.weekly]))
                "default" "batch/v1beta1" "CronJob" "nightly"
                [MoreFixtures.weekly] [MoreFixtures.weekly]
                eq_refl eq_refl eq_refl eq_refl eq_refl) as (Hnone & _).
    + repeat constructor. by eexists.
    + apply Hnone. repeat constructor.
  - destruct (createJobListView_table (U := Job)
                Fixtures.PtrInt32ToString MoreFixtures.FromUnstructured
                MoreFixtures.copyObjectMeta MoreFixtures.namespaceOf MoreFixtures.apiVersionOf
                MoreFixtures.kindOf MoreFixtures.nameOf Fixtures.cronObject
                (Fixtures.options (Return [MoreFixtures.nightly; MoreFixtures.weekly]))
                "default" "batch/v1beta1" "CronJob" "nightly"
                [MoreFixtures.nightly; MoreFixtures.weekly]
                [MoreFixtures.nightly; MoreFixtures.weekly]
                eq_refl eq_refl eq_refl eq_refl eq_refl) as (_ & Hrows).
    + repeat constructor; by eexists.
    + destruct Hrows as (table & Hrun & _ & Hlen & _).
      * intros job Hjob.
        change (job ∈ [MoreFixtures.nightly; MoreFixtures.nightly]) in Hjob.
        apply elem_of_cons in Hjob as [->|Hjob]; [by eexists|].
        apply list_elem_of_singleton in Hjob as ->. by eexists.
      * exists table. split; [done|]. exact Hlen.
Defined.


Lemma secretData_one_row_per_key_witness :
  let table := Fixtures.keyTable ["password"; "username"] in
  length (Rows table) = size Fixtures.credentials
  ∧ NoDup (Rows table)
  ∧ (∀ key, ({["Key" := Text key]} : TableRow) ∈ Rows table
            ↔ is_Some (Fixtures.credentials !! key)).
Proof.
  intros table.
  destruct (secretData_one_row_per_key (Fixtures.secret "s" Fixtures.credentials) table)
    as (Hlen & Hnodup & Hkeys & _).
  - exists ["password"; "username"]. split; [|reflexivity].
    unfold map_range. vm_compute. first [reflexivity | apply perm_swap].
  - split; [exact Hlen|]. split; [exact Hnodup | exact Hkeys].
Defined.

Lemma secretData_single_outcome_iff_witness :
  size (Data (Fixtures.secret "s" MoreFixtures.token)) ≤ 1
  ∧ ∀ r1 r2,
      secretData (Fixtures.secret "s" MoreFixtures.token) r1 →
      secretData (Fixtures.secret "s" MoreFixtures.token) r2 →
      r1 = r2.
Proof.
  assert (size (Data (Fixtures.secret "s" MoreFixtures.token)) ≤ 1) as Hsize.
  { vm_compute. lia. }
  split; [exact Hsize|].
  apply (proj2 (secretData_single_outcome_iff (Fixtures.secret "s" MoreFixtures.token))).
  exact Hsize.
Defined.

Lemma Create_sections_witness :
  ∃ s, ReplicationControllerConfiguration_Create
         (NewReplicationControllerConfiguration
            (Some (Fixtures.rc "r" [Fixtures.cron "nightly"] (Some Fixtures.template))))
         Fixtures.opts = Return s
    ∧ head (Sections s)
      = Some (mkSection "Controlled By" (component.Link "" "nightly" "/owner"))
    ∧ last (Sections s) = Some (mkSection "Replicas" (Text "3")).
Proof.
  eexists. split; [reflexivity|].
  destruct (Create_sections
              (Fixtures.rc "r" [Fixtures.cron "nightly"] (Some Fixtures.template))
              Fixtures.opts _ eq_refl) as (_ & _ & Hfirst & _ & Hlast).
  split; [|exact Hlast].
  destruct (Hfirst [] (Fixtures.cron "nightly") [] eq_refl eq_refl) as (link & Hlink & Hhead).
  - constructor.
  - injection Hlink as <-. exact Hhead.
Defined.

Lemma ReplicationControllerHandler_outcomes_witness :
  ReplicationControllerHandler MoreFixtures.createPodListView MoreFixtures.ToComponent
    MoreFixtures.statusQuadrant
    (Some (Fixtures.rc "r" [Fixtures.cron "broken"] None)) Fixtures.opts
  = Fail Fixtures.noRoute
  ∧ ReplicationControllerHandler MoreFixtures.createPodListView MoreFixtures.ToComponent
      MoreFixtures.statusQuadrant
      (Some (Fixtures.rc "r" [] None)) Fixtures.opts
    = Panicked nil_pointer_dereference.
Proof.
  split.
  - destruct (ReplicationControllerHandler_outcomes (U := Job)
                MoreFixtures.createPodListView MoreFixtures.ToComponent
                MoreFixtures.statusQuadrant
                (Fixtures.rc "r" [Fixtures.cron "broken"] None) Fixtures.opts) as (Hfail & _).
    apply Hfail. reflexivity.
  - destruct (ReplicationControllerHandler_outcomes (U := Job)
                MoreFixtures.createPodListView MoreFixtures.ToComponent
                MoreFixtures.statusQuadrant
                (Fixtures.rc "r" [] None) Fixtures.opts) as (_ & Hpanic & _).
    eapply Hpanic; reflexivity.
Defined.

Lemma status_Create_errors_witness :
  rcstatus.Create (StatusFixtures.listPods (Fail Fixtures.noRoute))
    StatusFixtures.createPodStatus StatusFixtures.NewQuadrant StatusFixtures.Set_
    StatusFixtures.GetUID
    (rcstatus.NewReplicationControllerStatus (Some (Fixtures.rc "r" [] None)))
    (Fixtures.jobStore (Return []))
  = Fail Fixtures.noRoute.
Proof.
  destruct (status_Create_errors (U := Job)
              (StatusFixtures.listPods (Fail Fixtures.noRoute))
              StatusFixtures.createPodStatus StatusFixtures.NewQuadrant StatusFixtures.Set_
              StatusFixtures.GetUID (Fixtures.jobStore (Return []))) as (_ & _ & Hlist).
  apply Hlist. reflexivity.
Defined.

(** TestReplicationControllerStatus: three running pods. *)
Lemma status_Create_quadrant_witness :
  let pods := rcstatus.mkPodStatus 3 0 0 0 in
  rcstatus.Create (StatusFixtures.listPods (Return pods))
    StatusFixtures.createPodStatus StatusFixtures.NewQuadrant StatusFixtures.Set_
    StatusFixtures.GetUID
    (rcstatus.NewReplicationControllerStatus (Some (Fixtures.rc "rc" [] None)))
    (Fixtures.jobStore (Return []))
  = Return ("Status", [(rcstatus.QuadNW, "Running", "3"); (rcstatus.QuadNE, "Waiting", "0");
                       (rcstatus.QuadSW, "Succeeded", "0"); (rcstatus.QuadSE, "Failed", "0")])
  ∧ ∀ e,
      rcstatus.Create (StatusFixtures.listPods (Return pods))
        StatusFixtures.createPodStatus StatusFixtures.NewQuadrant
        (StatusFixtures.brokenSet rcstatus.QuadSW) StatusFixtures.GetUID
        (rcstatus.NewReplicationControllerStatus (Some (Fixtures.rc "rc" [] None)))
        (Fixtures.jobStore (Return []))
      = Fail e →
      e ∈ [errors_New "unable to set quadrant nw"; errors_New "unable to set quadrant ne";
           errors_New "unable to set quadrant sw"; errors_New "unable to set quadrant se"].
Proof.
  intros pods. split.
  - destruct (status_Create_quadrant (U := Job)
                (StatusFixtures.listPods (Return pods))
                StatusFixtures.createPodStatus StatusFixtures.NewQuadrant StatusFixtures.Set_
                StatusFixtures.GetUID (Fixtures.rc "rc" [] None)
                (Fixtures.jobStore (Return [])) pods eq_refl) as (_ & Hset & _).
    eapply Hset; reflexivity.
  - destruct (status_Create_quadrant (U := Job)
                (StatusFixtures.listPods (Return pods))
                StatusFixtures.createPodStatus StatusFixtures.NewQuadrant
                (StatusFixtures.brokenSet rcstatus.QuadSW)
                StatusFixtures.GetUID (Fixtures.rc "rc" [] None)
                (Fixtures.jobStore (Return [])) pods eq_refl) as (Hfail & _).
    exact Hfail.
Defined.

(** ** Secrets in the list of secrets *)

Section SecretLists.

Context {U : Type}.




End SecretLists.


(** * Where the errors of the printers come from *)

Section ErrorSources.

Context {U Pods Quadrant : Type}.
Variable PtrInt32ToString : option Z → string.
Variable printSelectorMap : gmap string string → Component.
Variable createPodListView : Object → Options U → result Component.
Variable FromUnstructured : U → result Job.
Variable copyObjectMeta : Job → U → result Job.
Variable accessor_Namespace : Object → result string.
Variable accessor_APIVersion : Object → result string.
Variable accessor_Kind : Object → result string.
Variable accessor_Name : Object → result string.
Variable ToComponent : ObjectPrinter → Options U → result Component.
Variable ReplicationControllerStatus_Create :
  option ReplicationController → Store U → result Component.
Variable listPods : string → option rcstatus.LabelSelector → string → Store U → result Pods.
Variable createPodStatus : Pods → rcstatus.PodStatus.
Variable NewQuadrant : string → Quadrant.
Variable Set_ : Quadrant → rcstatus.QuadrantPosition → string → string → result Quadrant.
Variable GetUID : ReplicationController → string.

Local Abbreviation JobListHandler := (JobListHandler PtrInt32ToString).
Local Abbreviation createJobConfiguration := (createJobConfiguration PtrInt32ToString).
Local Abbreviation JobHandler := (JobHandler PtrInt32ToString createPodListView ToComponent).
Local Abbreviation decodes := (decodes FromUnstructured copyObjectMeta).
Local Abbreviation ownedJobs := (ownedJobs FromUnstructured copyObjectMeta).
Local Abbreviation createJobListView :=
  (createJobListView PtrInt32ToString FromUnstructured copyObjectMeta
     accessor_Namespace accessor_APIVersion accessor_Kind accessor_Name).
Local Abbreviation SecretHandler := (SecretHandler ToComponent).
Local Abbreviation RCStep := (RCStep printSelectorMap).
Local Abbreviation ReplicationControllerListHandler :=
  (ReplicationControllerListHandler printSelectorMap).
Local Abbreviation ReplicationControllerHandler :=
  (ReplicationControllerHandler createPodListView ToComponent
     ReplicationControllerStatus_Create).
Local Abbreviation decode_error := (decode_error FromUnstructured copyObjectMeta).
Local Abbreviation status_Create :=
  (rcstatus.Create listPods createPodStatus NewQuadrant Set_ GetUID).

Lemma ownedJobs_inv apiVersion kind name listed jobList :
  match ownedJobs apiVersion kind name listed jobList with
  | Return _ => ∃ jobs, Forall2 decodes listed jobs
  | Fail e => ∃ item, item ∈ listed ∧ decode_error item e
  | Panicked _ => True
  end.
Proof.
  revert jobList. unfold ownedJobs.
  induction listed as [|item listed IH]; intros jobList; simpl.
  - exists []. constructor.
  - destruct (FromUnstructured item) as [converted|e|] eqn:Hconv; simpl; [| |done].
    + destruct (copyObjectMeta converted item) as [job|cause|] eqn:Hcopy; simpl; [| |done].
      * match goal with |- context [for_range listed ?f ?s] =>
          specialize (IH s); destruct (for_range listed f s) as [jl|e|] end; [| |done].
        -- destruct IH as [jobs HF]. exists (job :: jobs). constructor; [|done].
           exists converted. by rewrite Hconv, Hcopy.
        -- destruct IH as (item' & Hin & Herr). exists item'. split; [by right|done].
      * exists item. split; [by left|]. right. by exists converted, cause.
    + exists item. split; [by left|]. by left.
Qed.

(** C4 (amended): with non-nil arguments a printer returns an error only
    when a call it makes to one of its injected dependencies returns an
    error.  The list handlers return the error of [Link.ForObject] for
    one of the items; [createJobConfiguration], [createJobStatus],
    [createJobConditions], [secretConfiguration] and [secretData] always
    return a view; [ReplicationControllerConfiguration.Create] returns
    the error of [Link.ForOwner] for the controller reference; the
    detail handlers return that error or the one of the object printer;
    [createJobListView] returns the wrapped error of an accessor or of
    [ObjectStore.List], the error of an item that does not decode, or
    the error of [Link.ForObject] for a decoded job; and
    [ReplicationControllerStatus.Create] returns the error of [listPods]
    or, when a [Quadrant.Set] fails, one of its four own messages. *)
Theorem errors_come_from_the_dependencies :
  (∀ (list : JobList) (opts : Options U) e,
      JobListHandler (Some list) opts = Fail e →
      ∃ job, job ∈ JobItems list
             ∧ ForObject (Link opts) (ObjJob (Some job)) (Name (JobMeta job)) = Fail e)
  ∧ (∀ (list : SecretList) (options : Options U) e,
      SecretListHandler (Some list) options = Fail e →
      ∃ secret, secret ∈ SecretItems list
             ∧ ForObject (Link options) (ObjSecret (Some secret)) (Name (SecretMeta secret))
               = Fail e)
  ∧ (∀ (list : ReplicationControllerList) (options : Options U) e,
      ReplicationControllerListHandler (Some list) options = Fail e →
      ∃ rc, rc ∈ RCItems list
             ∧ ForObject (Link options) (ObjRC (Some rc)) (Name (RCMeta rc)) = Fail e)
  ∧ (∀ (job : Job) (conditions : list JobCondition) (secret : Secret),
      (∃ s, createJobConfiguration job = Return s)
      ∧ (∃ s, createJobStatus job = Return s)
      ∧ (∃ t, createJobConditions conditions = Return t)
      ∧ (∃ s, secretConfiguration secret = Return s)
      ∧ (∀ e, ¬ secretData secret (Fail e)))
  ∧ (∀ (rc : ReplicationController) (options : Options U) e,
      ReplicationControllerConfiguration_Create
        (NewReplicationControllerConfiguration (Some rc)) options = Fail e →
      ∃ controllerRef,
        GetControllerOf (OwnerReferences (RCMeta rc)) = Some controllerRef
        ∧ ForOwner (Link options) (ObjRC (Some rc)) controllerRef = Fail e)
  ∧ (∀ (job : Job) (opts : Options U) e,
      JobHandler (Some job) opts = Fail e →
      ∃ o, object o = ObjJob (Some job) ∧ ToComponent o opts = Fail e)
  ∧ (∀ (secret : Secret) (options : Options U) e,
      SecretHandler (Some secret) options = Fail e →
      ∃ o, object o = ObjSecret (Some secret) ∧ ToComponent o options = Fail e)
  ∧ (∀ (rc : ReplicationController) (options : Options U) e,
      ReplicationControllerHandler (Some rc) options = Fail e →
      (∃ controllerRef,
         GetControllerOf (OwnerReferences (RCMeta rc)) = Some controllerRef
         ∧ ForOwner (Link options) (ObjRC (Some rc)) controllerRef = Fail e)
      ∨ ∃ o, object o = ObjRC (Some rc) ∧ ToComponent o options = Fail e)
  ∧ (∀ (object : Object) (options : Options U) e,
      createJobListView object options = Fail e →
      (∃ cause, accessor_Namespace object = Fail cause
                ∧ e = errors_Wrap cause "get namespace for object")
      ∨ (∃ cause, accessor_APIVersion object = Fail cause
                  ∧ e = errors_Wrap cause "Get apiVersion for object")
      ∨ (∃ cause, accessor_Kind object = Fail cause
                  ∧ e = errors_Wrap cause "get kind for object")
      ∨ (∃ cause, accessor_Name object = Fail cause
                  ∧ e = errors_Wrap cause "get name for object")
      ∨ ∃ namespace, accessor_Namespace object = Return namespace
          ∧ ((∃ cause, List (ObjectStore options) (jobListKey namespace) = Fail cause
                ∧ e = errors_Wrapf cause "list all objects for key %+v"
                        (jobListKey namespace))
             ∨ ∃ listed item, List (ObjectStore options) (jobListKey namespace) = Return listed
                 ∧ item ∈ listed
                 ∧ (decode_error item e
                    ∨ ∃ job, decodes item job
                        ∧ ForObject (Link options) (ObjJob (Some job)) (Name (JobMeta job))
                          = Fail e)))
  ∧ (∀ (rc : ReplicationController) (o : Store U) e,
      status_Create (rcstatus.NewReplicationControllerStatus (Some rc)) o = Fail e →
      listPods (Namespace (RCMeta rc))
        (Some (rcstatus.mkLabelSelector (Selector (RCSpec rc)))) (GetUID rc) o = Fail e
      ∨ ∃ quadrant position label value cause,
          Set_ quadrant position label value = Fail cause
          ∧ e ∈ [errors_New "unable to set quadrant nw"; errors_New "unable to set quadrant ne";
                 errors_New "unable to set quadrant sw"; errors_New "unable to set quadrant se"]).
Proof.
  destruct (link_errors_inv (U := U) PtrInt32ToString) as (HJ & HC).
  split; [exact HJ|].
  split; [|split; [|split; [|split; [exact HC|split; [|split; [|split; [|split]]]]]]].
  - intros list options e. unfold SecretListHandler.
    destruct (for_range _ _ _) as [t|e'|p] eqn:Hrun; simpl; [done| |done].
    intros [= ->].
    apply (for_range_fail_inv (SecretStep options) _ (SecretBody_step options)) in Hrun
      as (secret & Hin & Hstep).
    exists secret. split; [done|]. unfold SecretStep in Hstep.
    by destruct (ForObject _ _ _); simplify_eq/=.
  - intros list options e. unfold ReplicationControllerListHandler.
    destruct (for_range _ _ _) as [t|e'|p] eqn:Hrun; simpl; [done| |done].
    intros [= ->].
    apply (for_range_fail_inv (RCStep options) _ (RCBody_step printSelectorMap options))
      in Hrun as (rc & Hin & Hstep).
    exists rc. split; [done|]. unfold RCStep in Hstep.
    destruct (ForObject _ _ _); simplify_eq/=; [|done].
    by destruct (Template (RCSpec rc)).
  - intros job conditions secret. split_and!; try by eexists.
    + rewrite createJobConditions_rows. by eexists.
    + intros e (keys & _ & Heq). by rewrite secretData_in_rows in Heq.
  - intros job opts e. unfold JobHandler. simpl. intros Hrun. eexists. split; [|exact Hrun]. done.
  - intros secret options e. unfold SecretHandler. simpl. intros Hrun.
    eexists. split; [|exact Hrun]. done.
  - intros rc options e. unfold ReplicationControllerHandler.
    destruct (ReplicationControllerConfiguration_Create _ _) as [s|e'|] eqn:Hcreate;
      simpl; [| |done].
    + destruct (Template (RCSpec rc)) as [template|]; simpl; [|done].
      intros Hrun. right. eexists. split; [|exact Hrun]. done.
    + intros [= ->]. left. by apply HC.
  - intros object options e. unfold createJobListView.
    destruct (accessor_Namespace object) as [namespace|cause|]; simpl;
      [|intros [= <-]; left; by exists cause|done].
    destruct (accessor_APIVersion object) as [apiVersion|cause|]; simpl;
      [|intros [= <-]; right; left; by exists cause|done].
    destruct (accessor_Kind object) as [kind|cause|]; simpl;
      [|intros [= <-]; do 2 right; left; by exists cause|done].
    destruct (accessor_Name object) as [name|cause|]; simpl;
      [|intros [= <-]; do 3 right; left; by exists cause|done].
    intros Hrun. do 4 right. exists namespace. split; [done|].
    destruct (List _ _) as [listed|cause|]; simpl in Hrun;
      [|injection Hrun as <-; left; by exists cause|done].
    right. exists listed.
    pose proof (ownedJobs_inv apiVersion kind name listed (mkJobList [])) as Hinv.
    destruct (ownedJobs _ _ _ _ _) as [jobList|e'|] eqn:Howned;
      simpl in Hrun; [| |done].
    + destruct Hinv as [jobs HF].
      rewrite (ownedJobs_spec FromUnstructured copyObjectMeta _ _ _ _ _ _ HF) in Howned.
      injection Howned as <-. simpl in Hrun.
      apply (HJ (mkJobList (jobsOwnedBy apiVersion kind name jobs))
                (mkOptions true (Link options) (ObjectStore options)) e)
        in Hrun as (job & Hin & Hlink). simpl in Hin, Hlink.
      unfold jobsOwnedBy in Hin. apply list_elem_of_bind in Hin as (job' & Hin & Hjob').
      apply list_elem_of_bind in Hin as (ref & Hin & _).
      assert (job = job') as <-.
      { destruct (ownerMatches _ _ _ ref); [|by inversion Hin].
        by apply list_elem_of_singleton in Hin. }
      apply list_elem_of_lookup in Hjob' as [i Hi].
      destruct (Forall2_lookup_r _ _ _ _ _ HF Hi) as (item & Hitem & Hdec).
      exists item. split; [done|]. split; [by eapply list_elem_of_lookup_2|].
      right. by exists job.
    + injection Hrun as <-. destruct Hinv as (item & Hin & Herr).
      exists item. split; [done|]. split; [done|]. by left.
  - intros rc o e. unfold rcstatus.Create. simpl.
    destruct (listPods _ _ _ _) as [pods|e'|]; simpl; [|intros [= ->]; by left|done].
    intros Hrun. right.
    destruct (Set_ _ rcstatus.QuadNW _ _) as [q1|c|] eqn:H1; simpl in Hrun;
      [|injection Hrun as <-; do 5 eexists; split; [exact H1|set_solver]|done].
    destruct (Set_ _ rcstatus.QuadNE _ _) as [q2|c|] eqn:H2; simpl in Hrun;
      [|injection Hrun as <-; do 5 eexists; split; [exact H2|set_solver]|done].
    destruct (Set_ _ rcstatus.QuadSW _ _) as [q3|c|] eqn:H3; simpl in Hrun;
      [|injection Hrun as <-; do 5 eexists; split; [exact H3|set_solver]|done].
    destruct (Set_ _ rcstatus.QuadSE _ _) as [q4|c|] eqn:H4; simpl in Hrun;
      [done|injection Hrun as <-; do 5 eexists; split; [exact H4|set_solver]|done].
Qed.

End ErrorSources.

Lemma errors_come_from_the_dependencies_witness :
  (∃ job, job ∈ [Fixtures.job "a" []; Fixtures.job "broken" []]
          ∧ ForObject (Link Fixtures.opts) (ObjJob (Some job)) (Name (JobMeta job))
            = Fail Fixtures.noRoute)
  ∧ (∃ controllerRef,
       GetControllerOf [Fixtures.cron "broken"] = Some controllerRef
       ∧ ForOwner (Link Fixtures.opts)
           (ObjRC (Some (Fixtures.rc "r" [Fixtures.cron "broken"] (Some Fixtures.template))))
           controllerRef
         = Fail Fixtures.noRoute)
  ∧ (StatusFixtures.listPods (Fail Fixtures.noRoute) "default"
       (Some (rcstatus.mkLabelSelector {["app" := "myapp"]})) "r" (Fixtures.jobStore (Return []))
     = Fail Fixtures.noRoute
     ∨ ∃ quadrant position label value cause,
         StatusFixtures.Set_ quadrant position label value = Fail cause
         ∧ Fixtures.noRoute
           ∈ [errors_New "unable to set quadrant nw"; errors_New "unable to set quadrant ne";
              errors_New "unable to set quadrant sw"; errors_New "unable to set quadrant se"]).
Proof.
  destruct (errors_come_from_the_dependencies (U := Job)
              Fixtures.PtrInt32ToString Fixtures.printSelectorMap
              MoreFixtures.createPodListView MoreFixtures.FromUnstructured
              MoreFixtures.copyObjectMeta MoreFixtures.namespaceOf MoreFixtures.apiVersionOf
              MoreFixtures.kindOf MoreFixtures.nameOf MoreFixtures.ToComponent
              MoreFixtures.statusQuadrant
              (StatusFixtures.listPods (Fail Fixtures.noRoute))
              StatusFixtures.createPodStatus StatusFixtures.NewQuadrant StatusFixtures.Set_
              StatusFixtures.GetUID)
    as (HJ & _ & _ & _ & HC & _ & _ & _ & _ & HS).
  split; [|split].
  - apply (HJ (mkJobList [Fixtures.job "a" []; Fixtures.job "broken" []]) Fixtures.opts).
    reflexivity.
  - apply (HC (Fixtures.rc "r" [Fixtures.cron "broken"] (Some Fixtures.template))
              Fixtures.opts).
    reflexivity.
  - apply (HS (Fixtures.rc "r" [] None) (Fixtures.jobStore (Return []))).
    reflexivity.
Defined.

(** * The list handlers and the caller's memory *)

Section MemoryProperties.

Import memory.

Lemma foldr_max_ge (l : list positive) (x : positive) :
  x ∈ l → (x ≤ foldr Pos.max 1 l)%positive.
Proof.
  induction l as [|y l IH]; simpl; [by inversion 1|].
  intros [->|Hin]%elem_of_cons; [apply Pos.le_max_l|].
  etrans; [by apply IH|apply Pos.le_max_r].
Qed.

Lemma next_fresh (h : heap) : h !! next h = None.
Proof.
  destruct (h !! next h) as [o|] eqn:Hl; [|done]. exfalso.
  apply elem_of_map_to_list in Hl.
  assert (next h ∈ (map_to_list h).*1) as Hin.
  { apply list_elem_of_fmap. by exists (next h, o). }
  apply foldr_max_ge in Hin. unfold next in Hin.
  apply Pos.le_succ_l in Hin. by apply Pos.lt_irrefl in Hin.
Qed.

Lemma unchanged_subseteq (h0 h : heap) : unchanged h0 h ↔ h0 ⊆ h.
Proof. symmetry. apply map_subseteq_spec. Qed.

Lemma has_kind_mono (h h' : heap) l k : h ⊆ h' → has_kind h l k → has_kind h' l k.
Proof.
  unfold has_kind. intros Hsub. destruct (h !! l) as [o|] eqn:Hl; [|done].
  by rewrite (lookup_weaken _ _ _ _ Hl Hsub).
Qed.

Lemma has_kind_store (h : heap) l o l' k :
  has_kind h l (kind_of o) → has_kind h l' k → has_kind (<[l := o]> h) l' k.
Proof.
  unfold has_kind. intros Hl Hl'. destruct (decide (l = l')) as [<-|Hne].
  - rewrite lookup_insert_eq. simpl. congruence.
  - by rewrite lookup_insert_ne.
Qed.

Lemma lookup_fresh (h0 h : heap) l : h0 ⊆ h → h !! l = None → h0 !! l = None.
Proof.
  intros Hsub Hl. destruct (h0 !! l) as [o|] eqn:Hl0; [|done].
  by rewrite (lookup_weaken _ _ _ _ Hl0 Hsub) in Hl.
Qed.

Section Looping.

Variable h0 : heap.
Variables table var : loc.
Variable k : kind.
Variables title placeholder : string.
Variable cols : list string.

Local Abbreviation looping := (looping h0 table var k title placeholder cols).
Local Abbreviation triple := (triple h0).

Lemma looping_mono rows row h h' : looping rows row h → h ⊆ h' → looping rows row h'.
Proof.
  intros [] Hsub. split; try done.
  - by etrans.
  - by eapply lookup_weaken.
  - eapply Forall_impl; [done|]. intros r [? ?]. split; [done|]. by eapply has_kind_mono.
  - by eapply has_kind_mono.
  - destruct row as [r|]; [|done]. destruct looping_row0. split; [done|].
    by eapply has_kind_mono.
Qed.

Lemma looping_store rows row h l o :
  looping rows row h → h0 !! l = None → has_kind h l (kind_of o) → kind_of o ≠ KTable →
  looping rows row (<[l := o]> h).
Proof.
  intros [] Hfresh Hkind Hne. split; try done.
  - by apply insert_subseteq_r.
  - rewrite lookup_insert_ne; [done|]. intros ->.
    unfold has_kind in Hkind. rewrite looping_table0 in Hkind. simpl in Hkind. congruence.
  - eapply Forall_impl; [done|]. intros r [? ?]. split; [done|]. by apply has_kind_store.
  - by apply has_kind_store.
  - destruct row as [r|]; [|done]. destruct looping_row0. split; [done|].
    by apply has_kind_store.
Qed.

Lemma triple_bind {A B} pre mid post (m : M A) (f : A → M B) :
  triple pre m mid → (∀ a, triple (mid a) (f a) post) → triple pre (m ≫= f) post.
Proof.
  intros Hm Hf h Hpre. specialize (Hm h Hpre). unfold mbind, M_bind.
  destruct (m h) as [[a|e|p] h']; simpl in *; [by apply Hf|done..].
Qed.

Lemma triple_exist {A X} (pre : X → heap → Prop) post (m : M A) :
  (∀ x, triple (pre x) m post) → triple (λ h, ∃ x, pre x h) m post.
Proof. intros Hm h [x Hpre]. by apply (Hm x). Qed.

Lemma triple_ret {A} (pre : heap → Prop) (a : A) : triple pre (mret a) (λ _, pre).
Proof. by intros h Hpre. Qed.

Lemma readonly_ret {A} (a : A) : readonly (mret a : M A).
Proof. done. Qed.

Lemma readonly_lift {A} (r : result A) : readonly (lift r).
Proof. done. Qed.

Lemma readonly_load l : readonly (load l).
Proof. done. Qed.

Lemma readonly_bind {A B} (m : M A) (f : A → M B) :
  readonly m → (∀ a, readonly (f a)) → readonly (m ≫= f).
Proof.
  intros Hm Hf h. specialize (Hm h). unfold mbind, M_bind.
  destruct (m h) as [[a|e|p] h']; simpl in *; [|done..]. subst. apply Hf.
Qed.

Lemma readonly_loadMap m : readonly (loadMap m).
Proof.
  destruct m as [l|]; [|done]. apply readonly_bind; [done|]. by intros [].
Qed.

Lemma readonly_loadJobList l : readonly (loadJobList l).
Proof. apply readonly_bind; [done|]. by intros []. Qed.

Lemma readonly_loadJobs l : readonly (loadJobs l).
Proof. apply readonly_bind; [done|]. by intros []. Qed.

Lemma readonly_loadJob l : readonly (loadJob l).
Proof. apply readonly_bind; [done|]. by intros []. Qed.

Lemma readonly_loadRCList l : readonly (loadRCList l).
Proof. apply readonly_bind; [done|]. by intros []. Qed.

Lemma readonly_loadRCs l : readonly (loadRCs l).
Proof. apply readonly_bind; [done|]. by intros []. Qed.

Lemma readonly_loadRC l : readonly (loadRC l).
Proof. apply readonly_bind; [done|]. by intros []. Qed.

Lemma readonly_NewLabels labels : readonly (NewLabels labels).
Proof. apply readonly_bind; [apply readonly_loadMap|done]. Qed.

Lemma readonly_printSelectorMapAt printSelectorMap selector :
  readonly (printSelectorMapAt printSelectorMap selector).
Proof. apply readonly_bind; [apply readonly_loadMap|done]. Qed.

Lemma triple_pre {A} (pre pre' : heap → Prop) post (m : M A) :
  (∀ h, pre h → pre' h) → triple pre' m post → triple pre m post.
Proof. intros Himp Hm h Hpre. by apply Hm, Himp. Qed.

Lemma triple_post {A} pre (post post' : A → heap → Prop) (m : M A) :
  (∀ a h, post a h → post' a h) → triple pre m post → triple pre m post'.
Proof.
  intros Himp Hm h Hpre. specialize (Hm h Hpre).
  destruct (m h).1; [by apply Himp|done..].
Qed.

Lemma triple_frame {A} (pre : heap → Prop) (m : M A) :
  readonly m → (∀ h, pre h → h0 ⊆ h) → triple pre m (λ _, pre).
Proof.
  intros Hm Hframe h Hpre. rewrite (Hm h). destruct (m h).1; [done|by apply Hframe..].
Qed.

Lemma triple_readonly {A} (m : M A) rows row :
  readonly m → triple (looping rows row) m (λ _, looping rows row).
Proof. intros Hm. apply triple_frame; [done|]. by intros h []. Qed.

Lemma triple_link (forObject : loc → string → M Component) object text rows row :
  (∀ object text h, h ⊆ (forObject object text h).2) →
  triple (looping rows row) (forObject object text) (λ _, looping rows row).
Proof.
  intros Hlink h Hpre. specialize (Hlink object text h).
  destruct (forObject object text h).1.
  - by eapply looping_mono.
  - etrans; [apply Hpre|done].
  - etrans; [apply Hpre|done].
Qed.

Lemma triple_NewTableRow rows :
  triple (looping rows None) NewTableRow (λ row, looping rows (Some row)).
Proof.
  intros h Hpre. simpl. pose proof (next_fresh h) as Hnext.
  destruct (looping_mono rows None h (<[next h := ORow ∅]> h) Hpre) as [];
    [by apply insert_subseteq|].
  split; try done. split.
  - eapply lookup_fresh; [apply Hpre|done].
  - unfold has_kind. by rewrite lookup_insert_eq.
Qed.

Lemma triple_set rows row key c :
  triple (looping rows (Some row)) (set row key c) (λ _, looping rows (Some row)).
Proof.
  intros h Hpre. unfold set, mbind, M_bind, load. simpl.
  destruct (looping_row _ _ _ _ _ _ _ _ _ _ Hpre) as [Hfresh Hkind].
  unfold has_kind in Hkind.
  destruct (h !! row) as [[]|] eqn:Hrow; simpl in *; try apply Hpre.
  apply looping_store; try done. unfold has_kind. by rewrite Hrow.
Qed.

Lemma triple_store_var rows row o :
  kind_of o = k → k ≠ KTable →
  triple (looping rows row) (store var o) (λ _, looping rows row).
Proof.
  intros Hk Hne h Hpre. simpl. apply looping_store; [done| | |congruence].
  - apply Hpre.
  - rewrite Hk. apply Hpre.
Qed.

Lemma triple_Add rows row :
  triple (looping rows (Some row)) (Add table row) (λ _, looping (rows ++ [row]) None).
Proof.
  intros h Hpre. unfold Add, mbind, M_bind, load. simpl.
  destruct Hpre as []. rewrite looping_table0. simpl.
  destruct looping_row0 as [Hfresh Hkind].
  assert (has_kind h table KTable) as Htable.
  { unfold has_kind. by rewrite looping_table0. }
  split; try done.
  - apply insert_subseteq_r; [done|done].
  - by rewrite lookup_insert_eq.
  - apply Forall_app. split.
    + eapply Forall_impl; [done|]. intros r [? ?]. split; [done|].
      by apply has_kind_store.
    + constructor; [|done]. split; [done|]. by apply has_kind_store.
  - by apply has_kind_store.
Qed.

Lemma triple_for_index body :
  (∀ i rows, triple (looping rows None) (body i) (λ _ h, ∃ rows', looping rows' None h)) →
  ∀ n first, triple (λ h, ∃ rows, looping rows None h) (for_index n first body)
               (λ _ h, ∃ rows, looping rows None h).
Proof.
  intros Hbody n. induction n as [|n IH]; intros first; simpl.
  - apply triple_ret.
  - eapply triple_bind.
    + apply (triple_exist (λ rows, looping rows None)).
      intros rows.
      apply Hbody.
    + intros u.
      apply IH.
Qed.

End Looping.

Section Handlers.

Variable PtrInt32ToString : option Z → string.
Variable printSelectorMap : gmap string string → Component.
Variable forObject : loc → string → M Component.

Local Abbreviation JobListHandler := (memory.JobListHandler PtrInt32ToString forObject).
Local Abbreviation ReplicationControllerListHandler :=
  (memory.ReplicationControllerListHandler printSelectorMap forObject).

Local Ltac step lemma := eapply triple_bind; [lemma | intros ?]; cbv zeta.
Local Ltac reads lemma := step ltac:(apply triple_readonly; lemma).

Lemma triple_NewTable h0 title placeholder cols :
  triple h0 (λ h, h = h0) (NewTable title placeholder cols)
    (λ table h, h0 ⊆ h ∧ h0 !! table = None
                ∧ h !! table = Some (OTable title placeholder cols [])).
Proof.
  intros h ->. simpl. pose proof (next_fresh h0). split_and!; [|done|].
  - by apply insert_subseteq.
  - by rewrite lookup_insert_eq.
Qed.

Lemma triple_alloc_var h0 table title placeholder cols o :
  kind_of o ≠ KTable →
  triple h0 (λ h, h0 ⊆ h ∧ h0 !! table = None
                  ∧ h !! table = Some (OTable title placeholder cols []))
    (alloc o)
    (λ var, looping h0 table var (kind_of o) title placeholder cols [] None).
Proof.
  intros Hk h (Hsub & Hfresh & Htable). simpl. pose proof (next_fresh h) as Hnext.
  split; try done.
  - etrans; [done|]. by apply insert_subseteq.
  - rewrite lookup_insert_ne; [done|]. intros <-. by rewrite Hnext in Htable.
  - by eapply lookup_fresh.
  - unfold has_kind. by rewrite lookup_insert_eq.
Qed.

Lemma looping_fresh_table h0 table var k title placeholder cols rows h :
  looping h0 table var k title placeholder cols rows None h →
  h0 ⊆ h ∧ fresh_table h0 h table.
Proof.
  intros []. split; [done|]. split; [done|].
  exists title, placeholder, cols, rows. split; [done|].
  eapply Forall_impl; [done|]. intros row [? Hkind]. split; [done|].
  unfold has_kind in Hkind. destruct (h !! row) as [[]|]; simplify_eq/=. eauto.
Qed.

Lemma triple_JobListHandler h0 list :
  (∀ object text h, h ⊆ (forObject object text h).2) →
  triple h0 (λ h, h = h0) (JobListHandler list) (λ table h, h0 ⊆ h ∧ fresh_table h0 h table).
Proof.
  intros link_frame. destruct list as [list|]; [|intros h ->; simpl; reflexivity].
  unfold memory.JobListHandler.
  eapply triple_bind; [apply triple_NewTable|intros table].
  eapply triple_bind;
    [apply triple_frame; [apply readonly_loadJobList|by intros h (? & _)]|intros items].
  eapply triple_bind;
    [apply (triple_alloc_var h0 table _ _ _ (OJob zeroJob)); done|intros job; simpl].
  eapply triple_bind.
  - eapply triple_pre; [|apply (triple_for_index h0 table job KJob)].
    { intros h Hpre. by exists []. }
    intros i rows.
    reads ltac:(apply readonly_loadJobs).
    reads ltac:(apply readonly_lift).
    step ltac:(by apply triple_store_var).
    eapply triple_bind; [apply triple_NewTableRow|intros row].
    reads ltac:(apply readonly_loadJob).
    step ltac:(by apply triple_link).
    step ltac:(apply triple_set).
    reads ltac:(apply readonly_loadJob).
    reads ltac:(apply readonly_NewLabels).
    step ltac:(apply triple_set).
    step ltac:(apply triple_set).
    step ltac:(apply triple_set).
    step ltac:(apply triple_set).
    eapply triple_post; [|apply triple_Add]. simpl. eauto.
  - intros u h [rows Hloop]. simpl. by eapply looping_fresh_table.
Qed.

Lemma triple_ReplicationControllerListHandler h0 list :
  (∀ object text h, h ⊆ (forObject object text h).2) →
  triple h0 (λ h, h = h0) (ReplicationControllerListHandler list)
    (λ tbl h, h0 ⊆ h ∧ fresh_table h0 h tbl).
Proof.
  intros link_frame. destruct list as [list|]; [|intros h ->; simpl; reflexivity].
  unfold memory.ReplicationControllerListHandler. cbv zeta.
  eapply triple_bind; [apply triple_NewTable|intros tbl].
  eapply triple_bind;
    [apply triple_frame; [apply readonly_loadRCList|by intros h (? & _)]|intros items].
  eapply triple_bind;
    [apply (triple_alloc_var h0 tbl _ _ _ (ORC zeroRC)); done|intros rc; simpl].
  eapply triple_bind.
  - eapply triple_pre; [|apply (triple_for_index h0 tbl rc KRC)].
    { intros h Hpre. by exists []. }
    intros i rows.
    reads ltac:(apply readonly_loadRCs).
    reads ltac:(apply readonly_lift).
    step ltac:(by apply triple_store_var).
    eapply triple_bind; [apply triple_NewTableRow|intros row].
    reads ltac:(apply readonly_loadRC).
    step ltac:(by apply triple_link).
    step ltac:(apply triple_set).
    reads ltac:(apply readonly_loadRC).
    reads ltac:(apply readonly_NewLabels).
    step ltac:(apply triple_set).
    step ltac:(apply triple_set).
    step ltac:(apply triple_set).
    reads ltac:(apply readonly_lift).
    step ltac:(apply triple_set).
    reads ltac:(apply readonly_printSelectorMapAt).
    step ltac:(apply triple_set).
    eapply triple_post; [|apply triple_Add]. simpl. eauto.
  - intros u h [rows Hloop]. simpl. by eapply looping_fresh_table.
Qed.

Lemma triple_run {A} h0 (m : M A) (post : A → heap → Prop) :
  (∀ a h, post a h → h0 ⊆ h) →
  triple h0 (λ h, h = h0) m post →
  h0 ⊆ (m h0).2 ∧ ∀ a, (m h0).1 = Return a → post a (m h0).2.
Proof.
  intros Hframe Hm. specialize (Hm h0 eq_refl).
  destruct (m h0).1 as [a| |]; [|by split..].
  split; [by eapply Hframe|]. by intros ? [= <-].
Qed.

(** When the link builder leaves every object that exists when it is
    called as it is, the two handlers leave the objects of [h0] as they
    were, and a table they return is made of objects that were not in
    [h0]. *)
Lemma list_handlers_frame (list : option loc) (h0 : heap) :
  (∀ object text h, unchanged h (forObject object text h).2) →
  (unchanged h0 (JobListHandler list h0).2
   ∧ ∀ table, (JobListHandler list h0).1 = Return table →
       fresh_table h0 (JobListHandler list h0).2 table)
  ∧ (unchanged h0 (ReplicationControllerListHandler list h0).2
     ∧ ∀ tbl, (ReplicationControllerListHandler list h0).1 = Return tbl →
         fresh_table h0 (ReplicationControllerListHandler list h0).2 tbl).
Proof.
  intros Hlink.
  assert (∀ object text h, h ⊆ (forObject object text h).2) as link_frame.
  { intros object text h. apply unchanged_subseteq, Hlink. }
  split.
  - destruct (triple_run h0 (JobListHandler list) _
                (λ _ _ H, proj1 H) (triple_JobListHandler h0 list link_frame))
      as [Hframe Hfresh].
    split; [by apply unchanged_subseteq|]. intros table Hrun. by apply Hfresh.
  - destruct (triple_run h0 (ReplicationControllerListHandler list) _
                (λ _ _ H, proj1 H)
                (triple_ReplicationControllerListHandler h0 list link_frame))
      as [Hframe Hfresh].
    split; [by apply unchanged_subseteq|]. intros tbl Hrun. by apply Hfresh.
Qed.

End Handlers.

End MemoryProperties.

(** * The list handlers on the memory and on values *)

Section Agreement.

Context {U : Type}.
Variable PtrInt32ToString : option Z → string.
Variable printSelectorMap : gmap string string → Component.
Variable opts : Options U.

Local Abbreviation JobStep := (JobStep PtrInt32ToString opts).
Local Abbreviation RCStep := (RCStep printSelectorMap opts).
Local Abbreviation JobRow := (JobRow PtrInt32ToString).
Local Abbreviation RCRow := (RCRow printSelectorMap).
Local Abbreviation JobListHandler_ := (JobListHandler PtrInt32ToString).
Local Abbreviation ReplicationControllerListHandler_ :=
  (ReplicationControllerListHandler printSelectorMap).
Local Abbreviation JobBody_step := (JobBody_step PtrInt32ToString opts).
Local Abbreviation RCBody_step := (RCBody_step printSelectorMap opts).
Local Abbreviation NewTable_ := component.NewTable.
Local Abbreviation Add_ := component.Add.

Import memory.

Lemma bind_run {A B} (m : M A) (f : A → M B) h :
  (m ≫= f) h
  = match m h with
    | (Return a, h') => f a h'
    | (Fail e, h') => (Fail e, h')
    | (Panicked p, h') => (Panicked p, h')
    end.
Proof. done. Qed.

Lemma readMap_mono (h h' : heap) m entries :
  h ⊆ h' → readMap h m = Some entries → readMap h' m = Some entries.
Proof.
  intros Hsub. destruct m as [l|]; simpl; [|done].
  destruct (h !! l) as [o|] eqn:Hl; [|done].
  by rewrite (lookup_weaken _ _ _ _ Hl Hsub).
Qed.

Lemma readJob_mono (h h' : heap) v job :
  h ⊆ h' → readJob h v = Some job → readJob h' v = Some job.
Proof.
  intros Hsub. unfold readJob.
  destruct (readMap h (job_Labels v)) as [labels|] eqn:Hlabels; [|done].
  by rewrite (readMap_mono _ _ _ _ Hsub Hlabels).
Qed.

Lemma readRC_mono (h h' : heap) v rc :
  h ⊆ h' → readRC h v = Some rc → readRC h' v = Some rc.
Proof.
  intros Hsub. unfold readRC.
  destruct (readMap h (rc_Labels v)) as [labels|] eqn:Hlabels; [|done].
  rewrite (readMap_mono _ _ _ _ Hsub Hlabels). simpl.
  destruct (readMap h (rc_Selector v)) as [selector|] eqn:Hselector; [|done].
  by rewrite (readMap_mono _ _ _ _ Hsub Hselector).
Qed.

Lemma loadMap_read (h : heap) m entries :
  readMap h m = Some entries → loadMap m h = (Return entries, h).
Proof.
  destruct m as [l|]; simpl; [|by intros [= <-]].
  unfold mbind, M_bind, load. destruct (h !! l) as [[]|]; simpl; try done.
  by intros [= <-].
Qed.

Lemma set_insert (h : heap) row cells key c :
  set row key c (<[row := ORow cells]> h)
  = (Return (), <[row := ORow (<[key := c]> cells)]> h).
Proof.
  unfold set, mbind, M_bind, load, store. rewrite lookup_insert_eq. simpl.
  by rewrite insert_insert_eq.
Qed.

Lemma Add_run (h : heap) table title placeholder cols rows row :
  h !! table = Some (OTable title placeholder cols rows) →
  Add table row h
  = (Return (), <[table := OTable title placeholder cols (rows ++ [row])]> h).
Proof. intros Htable. unfold Add, mbind, M_bind, load, store. by rewrite Htable. Qed.

Section Building.

Variable h0 : heap.
Variables table var : loc.
Variables title placeholder : string.
Variable cols : list string.

Local Abbreviation building := (building h0 table var title placeholder cols).

(** The memory after an iteration that stored [o] in the loop variable,
    filled a new row with [cells] and added it to the table. *)
Lemma building_next rowlocs rows h o cells :
  building rowlocs rows h →
  let h1 := <[var := o]> h in
  let row := next h1 in
  building (rowlocs ++ [row]) (rows ++ [cells])
    (<[table := OTable title placeholder cols (rowlocs ++ [row])]>
       (<[row := ORow cells]> h1)).
Proof.
  intros [] h1 row. pose proof (next_fresh h1) as Hrow. fold row in Hrow.
  assert (row ≠ var) as Hrow_var.
  { intros Heq. rewrite Heq in Hrow. unfold h1 in Hrow.
    by rewrite lookup_insert_eq in Hrow. }
  assert (h !! row = None) as Hrow_h.
  { unfold h1 in Hrow. by rewrite lookup_insert_ne in Hrow. }
  assert (row ≠ table) as Hrow_table.
  { intros Heq. rewrite Heq in Hrow_h. by rewrite building_table0 in Hrow_h. }
  assert (row ∉ rowlocs) as Hrow_rows.
  { intros Hin. apply list_elem_of_lookup in Hin as [i Hi].
    destruct (Forall2_lookup_l _ _ _ _ _ building_rows0 Hi) as (c & _ & Hc).
    by rewrite Hrow_h in Hc. }
  split.
  - apply insert_subseteq_r; [done|]. apply insert_subseteq_r.
    { by eapply lookup_fresh. }
    by apply insert_subseteq_r.
  - by rewrite lookup_insert_eq.
  - apply Forall2_app.
    + apply Forall2_same_length_lookup. split; [by eapply Forall2_length|].
      intros i l c Hl Hc.
      assert (l ∈ rowlocs) as Hin by by eapply list_elem_of_lookup_2.
      pose proof (Forall2_lookup_lr _ _ _ _ _ _ building_rows0 Hl Hc) as Hcells.
      simpl in Hcells.
      rewrite !lookup_insert_ne; [|by intros ?; subst l..].
      unfold h1. rewrite lookup_insert_ne; [done|by intros ?; subst l].
    + constructor; [|done]. rewrite lookup_insert_ne by done. by rewrite lookup_insert_eq.
  - rewrite lookup_insert_ne by done. rewrite lookup_insert_ne by done.
    unfold h1. by rewrite lookup_insert_eq.
  - done.
  - rewrite not_elem_of_app. split; [done|]. by rewrite list_elem_of_singleton.
  - rewrite not_elem_of_app. split; [done|]. rewrite list_elem_of_singleton. done.
  - done.
  - done.
  - apply Forall_app. split; [done|]. constructor; [|done]. by eapply lookup_fresh.
Qed.

(** The memory while the row of an iteration is filled. *)
Lemma building_row rowlocs rows h o cells :
  building rowlocs rows h →
  let h1 := <[var := o]> h in
  let h2 := <[next h1 := ORow cells]> h1 in
  h0 ⊆ h2 ∧ h2 !! var = Some o
  ∧ h2 !! table = Some (OTable title placeholder cols rowlocs).
Proof.
  intros [] h1 h2. pose proof (next_fresh h1) as Hrow.
  assert (h0 ⊆ h1) as Hsub by by apply insert_subseteq_r.
  assert (next h1 ≠ var) as Hrow_var.
  { intros Heq. rewrite Heq in Hrow. unfold h1 in Hrow.
    by rewrite lookup_insert_eq in Hrow. }
  split_and!.
  - apply insert_subseteq_r; [by eapply lookup_fresh|done].
  - unfold h2. rewrite lookup_insert_ne by done. unfold h1. by rewrite lookup_insert_eq.
  - unfold h2. rewrite lookup_insert_ne.
    + unfold h1. by rewrite lookup_insert_ne.
    + intros Heq. rewrite Heq in Hrow. unfold h1 in Hrow.
      rewrite lookup_insert_ne in Hrow by done. by rewrite building_table0 in Hrow.
Qed.

(** A loop whose iterations add the row of the item at their index runs
    as the loop over the items does. *)
Lemma for_index_agree {E A} (body : nat → M unit) (step : A → result TableRow)
    (elems : list E) (read : E → option A) :
  (∀ i item x rowlocs rows h,
     building rowlocs rows h → elems !! i = Some item → read item = Some x →
     (body i h).1 = (λ _, ()) <$> step x
     ∧ ∀ cells, step x = Return cells →
         ∃ row, building (rowlocs ++ [row]) (rows ++ [cells]) (body i h).2) →
  ∀ n first xs rowlocs rows h,
    building rowlocs rows h →
    Forall2 (λ item x, read item = Some x) (take n (drop first elems)) xs →
    length xs = n →
    (for_index n first body h).1
    = (λ _, ()) <$> for_range xs (λ t x, row ← step x; Return (Add_ t row))
                      (mkTable title placeholder cols rows)
    ∧ ∀ t, for_range xs (λ t x, row ← step x; Return (Add_ t row))
             (mkTable title placeholder cols rows) = Return t →
        ∃ rowlocs', building rowlocs' (Rows t) (for_index n first body h).2.
Proof.
  intros Hbody n. induction n as [|n IH]; intros first xs rowlocs rows h Hb HF Hlen.
  - destruct xs; [|done]. simpl. split; [done|].
    intros t [= <-]. by exists rowlocs.
  - destruct xs as [|x xs]; [done|]. simpl in Hlen.
    destruct (drop first elems) as [|item rest] eqn:Hdrop; [by inversion HF|].
    simpl in HF. apply Forall2_cons in HF as [Hx HF].
    assert (elems !! first = Some item) as Hitem.
    { rewrite <- (Nat.add_0_r first), <- lookup_drop, Hdrop. done. }
    assert (drop (S first) elems = rest) as Hrest.
    { replace (S first) with (first + 1)%nat by lia. by rewrite <- drop_drop, Hdrop. }
    destruct (Hbody first item x rowlocs rows h Hb Hitem Hx) as (Hrun & Hnext).
    simpl. rewrite bind_run.
    destruct (body first h) as [r h1]. simpl in Hrun, Hnext. subst r.
    destruct (step x) as [cells|e|p]; simpl; [|done..].
    destruct (Hnext cells eq_refl) as [row Hb1].
    rewrite <- Hrest in HF.
    apply (IH (S first) xs _ _ h1 Hb1 HF). lia.
Qed.

End Building.

Lemma NewTable_run (h : heap) title placeholder cols :
  NewTable title placeholder cols h
  = (Return (next h), <[next h := OTable title placeholder cols []]> h).
Proof. done. Qed.

(** The memory after the table and the loop variable were allocated. *)
Lemma building_start (h0 : heap) title placeholder cols (zero : object) :
  let table := next h0 in
  let h1 := <[table := OTable title placeholder cols []]> h0 in
  let var := next h1 in
  building h0 table var title placeholder cols [] [] (<[var := zero]> h1).
Proof.
  intros table h1 var.
  pose proof (next_fresh h0) as Htable. fold table in Htable.
  pose proof (next_fresh h1) as Hvar. fold var in Hvar.
  assert (h0 ⊆ h1) as Hsub by by apply insert_subseteq.
  assert (var ≠ table) as Hne.
  { intros Heq. rewrite Heq in Hvar. unfold h1 in Hvar.
    by rewrite lookup_insert_eq in Hvar. }
  assert (h0 !! var = None) as Hvar0 by by eapply lookup_fresh.
  split.
  - by apply insert_subseteq_r.
  - rewrite lookup_insert_ne by done. unfold h1. by rewrite lookup_insert_eq.
  - constructor.
  - by rewrite lookup_insert_eq.
  - done.
  - by inversion 1.
  - by inversion 1.
  - done.
  - done.
  - constructor.
Qed.

(** A loop that adds the row of every item to the table, followed by the
    return of the table, gives the table of the loop over the items. *)
Lemma table_loop_agree {E A} (h0 : heap) table var title placeholder cols
    (body : nat → M unit) (step : A → result TableRow)
    (elems : list E) (read : E → option A) (n : nat) (xs : list A) (h : heap) :
  (∀ i item x rowlocs rows h,
     building h0 table var title placeholder cols rowlocs rows h →
     elems !! i = Some item → read item = Some x →
     (body i h).1 = (λ _, ()) <$> step x
     ∧ ∀ cells, step x = Return cells →
         ∃ row, building h0 table var title placeholder cols
                  (rowlocs ++ [row]) (rows ++ [cells]) (body i h).2) →
  Forall2 (λ item x, read item = Some x) (take n elems) xs →
  n ≤ length elems →
  building h0 table var title placeholder cols [] [] h →
  readResult ((for_index n 0 body;; mret table) h)
  = (t ← for_range xs (λ t x, row ← step x; Return (Add_ t row))
           (NewTable_ title placeholder cols);
     Return (CTable t)).
Proof.
  intros Hbody HF Hn Hb.
  destruct (for_index_agree h0 table var title placeholder cols body step
              elems read Hbody n 0%nat xs [] [] _ Hb) as [Hrun Hfinal].
  { done. }
  { rewrite <- (Forall2_length _ _ _ HF). by apply length_take_le. }
  rewrite bind_run. destruct (for_index n 0 body h) as [r h']. simpl in Hrun, Hfinal.
  subst r. unfold component.NewTable.
  destruct (for_range xs _ _) as [t|e|p] eqn:Hpure; simpl; [|done..].
  destruct (Hfinal t eq_refl) as [rowlocs Hb'].
  unfold readResult, readTable. simpl.
  rewrite (building_table _ _ _ _ _ _ _ _ _ Hb').
  erewrite mapM_Some_2; [|eapply Forall2_impl; [apply Hb'|]; by intros l cells ->].
  simpl. do 2 f_equal.
  apply (for_range_rows_inv step _ (λ _ _, eq_refl)) in Hpure as (rows & _ & ->). done.
Qed.

Lemma loadJobList_run (h : heap) l items :
  h !! l = Some (OJobList items) → loadJobList l h = (Return items, h).
Proof. intros Hl. unfold loadJobList, mbind, M_bind, load. by rewrite Hl. Qed.

Lemma loadRCList_run (h : heap) l items :
  h !! l = Some (ORCList items) → loadRCList l h = (Return items, h).
Proof. intros Hl. unfold loadRCList, mbind, M_bind, load. by rewrite Hl. Qed.

Lemma lookup_insert_next (h : heap) l o o' :
  h !! l = Some o → <[next h := o']> h !! l = Some o.
Proof.
  intros Hl. rewrite lookup_insert_ne; [done|]. intros Heq.
  by rewrite <- Heq, next_fresh in Hl.
Qed.

Lemma lift_index_run {A} (h : heap) (items : list A) i item :
  items !! i = Some item → lift (index (items !! i)) h = (Return item, h).
Proof. by intros ->. Qed.

Lemma lift_deref_run {A} (h : heap) (p : option A) :
  lift (deref p) h = (deref p, h).
Proof. done. Qed.

Lemma store_run (h : heap) l o : store l o h = (Return (), <[l := o]> h).
Proof. done. Qed.

Lemma NewTableRow_run (h : heap) : NewTableRow h = (Return (next h), <[next h := ORow ∅]> h).
Proof. done. Qed.

Lemma loadJobs_run (h : heap) l elems :
  h !! l = Some (OJobs elems) → loadJobs l h = (Return elems, h).
Proof. intros Hl. unfold loadJobs, mbind, M_bind, load. by rewrite Hl. Qed.

Lemma loadJob_run (h : heap) l v :
  h !! l = Some (OJob v) → loadJob l h = (Return v, h).
Proof. intros Hl. unfold loadJob, mbind, M_bind, load. by rewrite Hl. Qed.

Lemma loadRCs_run (h : heap) l elems :
  h !! l = Some (ORCs elems) → loadRCs l h = (Return elems, h).
Proof. intros Hl. unfold loadRCs, mbind, M_bind, load. by rewrite Hl. Qed.

Lemma loadRC_run (h : heap) l v :
  h !! l = Some (ORC v) → loadRC l h = (Return v, h).
Proof. intros Hl. unfold loadRC, mbind, M_bind, load. by rewrite Hl. Qed.

Lemma NewLabels_run (h : heap) labels entries :
  readMap h labels = Some entries → NewLabels labels h = (Return (Labels entries), h).
Proof. intros Hread. unfold NewLabels. by rewrite bind_run, (loadMap_read _ _ _ Hread). Qed.

Lemma printSelectorMapAt_run (h : heap) selector entries :
  readMap h selector = Some entries →
  printSelectorMapAt printSelectorMap selector h = (Return (printSelectorMap entries), h).
Proof.
  intros Hread. unfold printSelectorMapAt. by rewrite bind_run, (loadMap_read _ _ _ Hread).
Qed.

Section Handlers.

Variable forObject : loc → string → M Component.

Hypothesis link_reads : ∀ object text h,
  forObject object text h = (ForObject (Link opts) (readObject h object) text, h).

Local Ltac run lemma := rewrite bind_run, lemma; cbv beta iota.

Lemma JobListHandler_body_agree h0 table job arr elems i item x rowlocs rows h :
  h0 !! arr = Some (OJobs elems) →
  building h0 table job "Jobs" "We couldn't find any jobs!" JobCols rowlocs rows h →
  elems !! i = Some item → readJob h0 item = Some x →
  let run :=
    (elems ← loadJobs arr;
     item ← lift (index (elems !! i));
     store job (OJob item);;
     row ← NewTableRow;
     this ← loadJob job;
     nameLink ← forObject job (Name (JobMeta (job_fields this)));
     set row "Name" nameLink;;
     this ← loadJob job;
     labels ← NewLabels (job_Labels this);
     set row "Labels" labels;;
     set row "Completions"
       (Text (PtrInt32ToString (Completions (JobSpec_ (job_fields this)))));;
     set row "Successful" (Text (fmt_d (Succeeded (JobStatus_ (job_fields this)))));;
     set row "Age" (Timestamp (CreationTimestamp (JobMeta (job_fields this))));;
     memory.Add table row) h in
  run.1 = (λ _, ()) <$> JobStep x
  ∧ ∀ cells, JobStep x = Return cells →
      ∃ row, building h0 table job "Jobs" "We couldn't find any jobs!" JobCols
               (rowlocs ++ [row]) (rows ++ [cells]) run.2.
Proof.
  intros Harr Hb Hi Hread. cbv zeta.
  unfold readJob in Hread.
  destruct (readMap h0 (job_Labels item)) as [labels|] eqn:Hlabels; [|done].
  injection Hread as <-.
  assert (h !! arr = Some (OJobs elems)) as Harr'.
  { eapply lookup_weaken; [done|apply Hb]. }
  set (h1 := <[job := OJob item]> h).
  pose proof (λ cells, building_row _ _ _ _ _ _ _ _ _ (OJob item) cells Hb) as Hrow.
  fold h1 in Hrow. cbv zeta in Hrow.
  destruct (Hrow ∅) as (Hsub & Hvar & _).
  run (loadJobs_run h arr elems Harr').
  run (lift_index_run h elems i item Hi).
  run store_run. fold h1.
  run NewTableRow_run.
  run (loadJob_run _ _ _ Hvar).
  rewrite bind_run, link_reads. unfold readObject. rewrite Hvar.
  unfold readJob. rewrite (readMap_mono _ _ _ _ Hsub Hlabels).
  unfold JobStep. simpl.
  destruct (ForObject _ _ _) as [nameLink|e|p]; simpl; [|done..].
  run set_insert.
  destruct (Hrow (<["Name" := nameLink]> ∅)) as (Hsub1 & Hvar1 & _).
  run (loadJob_run _ _ _ Hvar1).
  run (NewLabels_run _ _ _ (readMap_mono _ _ _ _ Hsub1 Hlabels)).
  run set_insert.
  run set_insert.
  run set_insert.
  run set_insert.
  match goal with |- context [<[next h1 := ORow ?c]> h1] =>
    destruct (Hrow c) as (_ & _ & Htable) end.
  rewrite (Add_run _ _ _ _ _ _ _ Htable). simpl.
  split; [done|].
  intros cells [= <-]. exists (next h1).
  apply (building_next _ _ _ _ _ _ _ _ _ (OJob item) _ Hb).
Qed.

Lemma readResult_bind {A} (h : heap) (m : M A) (f : A → M loc) a h' :
  m h = (Return a, h') → readResult ((m ≫= f) h) = readResult (f a h').
Proof. intros Hm. by rewrite bind_run, Hm. Qed.

Lemma JobListHandler_agree h0 list jobs :
  readJobList h0 list = Some jobs →
  readResult (memory.JobListHandler PtrInt32ToString forObject (Some list) h0)
  = JobListHandler_ (Some jobs) opts.
Proof.
  unfold readJobList.
  destruct (h0 !! list) as [[| items | | | | | | |]|] eqn:Hlist; try done.
  destruct (h0 !! array items) as [[| | elems | | | | | |]|] eqn:Harr; try done.
  destruct (decide _) as [Hlen|]; [|done].
  destruct (mapM _ _) as [js|] eqn:Hjs; [|done]. intros [= <-].
  apply mapM_Some_1 in Hjs.
  unfold memory.JobListHandler.
  rewrite (readResult_bind _ _ _ _ _ (NewTable_run _ _ _ _)).
  rewrite (readResult_bind _ _ _ _ _
             (loadJobList_run _ _ _ (lookup_insert_next _ _ _ _ Hlist))).
  rewrite bind_run. unfold alloc at 1. cbv beta iota.
  etrans.
  - eapply table_loop_agree with (step := JobStep) (elems := elems) (read := readJob h0)
                                (xs := js); [|done|done|apply building_start].
    intros i item x rowlocs rows h Hb Hi Hx.
    exact (JobListHandler_body_agree h0 _ _ (array items) elems i item x rowlocs rows h
             Harr Hb Hi Hx).
  - unfold JobListHandler_. f_equal.
    apply for_range_ext. intros t job _. symmetry. apply JobBody_step.
Qed.

Lemma ReplicationControllerListHandler_body_agree
    h0 tbl rc arr elems i item x rowlocs rows h :
  h0 !! arr = Some (ORCs elems) →
  building h0 tbl rc "ReplicationControllers"
    "We couldn't find any replication controllers!" rcCols rowlocs rows h →
  elems !! i = Some item → readRC h0 item = Some x →
  let run :=
    (elems ← loadRCs arr;
     item ← lift (index (elems !! i));
     store rc (ORC item);;
     row ← NewTableRow;
     this ← loadRC rc;
     nameLink ← forObject rc (Name (RCMeta (rc_fields this)));
     set row "Name" nameLink;;
     this ← loadRC rc;
     labels ← NewLabels (rc_Labels this);
     set row "Labels" labels;;
     set row "Status"
       (Text (fmt_d (AvailableReplicas (RCStatus (rc_fields this))) +:+ "/"
              +:+ fmt_d (StatusReplicas (RCStatus (rc_fields this)))));;
     set row "Age" (Timestamp (CreationTimestamp (RCMeta (rc_fields this))));;
     template ← lift (deref (Template (RCSpec (rc_fields this))));
     set row "Containers"
       (foldl (λ containers c, ContainersAdd containers (ContainerName c) (Image c))
          NewContainers (PodContainers template));;
     selector ← printSelectorMapAt printSelectorMap (rc_Selector this);
     set row "Selector" selector;;
     memory.Add tbl row) h in
  run.1 = (λ _, ()) <$> RCStep x
  ∧ ∀ cells, RCStep x = Return cells →
      ∃ row, building h0 tbl rc "ReplicationControllers"
               "We couldn't find any replication controllers!" rcCols
               (rowlocs ++ [row]) (rows ++ [cells]) run.2.
Proof.
  intros Harr Hb Hi Hread. cbv zeta.
  unfold readRC in Hread.
  destruct (readMap h0 (rc_Labels item)) as [labels|] eqn:Hlabels; [|done].
  destruct (readMap h0 (rc_Selector item)) as [selector|] eqn:Hselector; [|done].
  injection Hread as <-.
  assert (h !! arr = Some (ORCs elems)) as Harr'.
  { eapply lookup_weaken; [done|apply Hb]. }
  set (h1 := <[rc := ORC item]> h).
  pose proof (λ cells, building_row _ _ _ _ _ _ _ _ _ (ORC item) cells Hb) as Hrow.
  fold h1 in Hrow. cbv zeta in Hrow.
  destruct (Hrow ∅) as (Hsub & Hvar & _).
  run (loadRCs_run h arr elems Harr').
  run (lift_index_run h elems i item Hi).
  run store_run. fold h1.
  run NewTableRow_run.
  run (loadRC_run _ _ _ Hvar).
  rewrite bind_run, link_reads. unfold readObject. rewrite Hvar.
  unfold readRC. rewrite (readMap_mono _ _ _ _ Hsub Hlabels). simpl.
  rewrite (readMap_mono _ _ _ _ Hsub Hselector).
  unfold RCStep. simpl.
  destruct (ForObject _ _ _) as [nameLink|e|p]; simpl; [|done..].
  run set_insert.
  destruct (Hrow (<["Name" := nameLink]> ∅)) as (Hsub1 & Hvar1 & _).
  run (loadRC_run _ _ _ Hvar1).
  run (NewLabels_run _ _ _ (readMap_mono _ _ _ _ Hsub1 Hlabels)).
  run set_insert.
  run set_insert.
  run set_insert.
  rewrite bind_run, lift_deref_run. cbv beta iota.
  destruct (Template (RCSpec (rc_fields item))) as [template|]; simpl; [|done].
  run set_insert.
  match goal with |- context [<[next h1 := ORow ?c]> h1] =>
    destruct (Hrow c) as (Hsub2 & _ & _) end.
  run (printSelectorMapAt_run _ _ _ (readMap_mono _ _ _ _ Hsub2 Hselector)).
  run set_insert.
  match goal with |- context [<[next h1 := ORow ?c]> h1] =>
    destruct (Hrow c) as (_ & _ & Htable) end.
  rewrite (Add_run _ _ _ _ _ _ _ Htable). simpl.
  split; [done|].
  intros cells [= <-]. exists (next h1).
  apply (building_next _ _ _ _ _ _ _ _ _ (ORC item) _ Hb).
Qed.

Lemma ReplicationControllerListHandler_agree h0 list rcs :
  readRCList h0 list = Some rcs →
  readResult (memory.ReplicationControllerListHandler printSelectorMap forObject
                (Some list) h0)
  = ReplicationControllerListHandler_ (Some rcs) opts.
Proof.
  unfold readRCList.
  destruct (h0 !! list) as [[| | | | items | | | |]|] eqn:Hlist; try done.
  destruct (h0 !! array items) as [[| | | | | elems | | |]|] eqn:Harr; try done.
  destruct (decide _) as [Hlen|]; [|done].
  destruct (mapM _ _) as [xs|] eqn:Hxs; [|done]. intros [= <-].
  apply mapM_Some_1 in Hxs.
  unfold memory.ReplicationControllerListHandler. cbv zeta.
  rewrite (readResult_bind _ _ _ _ _ (NewTable_run _ _ _ _)).
  rewrite (readResult_bind _ _ _ _ _
             (loadRCList_run _ _ _ (lookup_insert_next _ _ _ _ Hlist))).
  rewrite bind_run. unfold alloc at 1. cbv beta iota.
  etrans.
  - eapply table_loop_agree with (step := RCStep) (elems := elems) (read := readRC h0)
                                (xs := xs); [|done|done|apply building_start].
    intros i item x rowlocs rows h Hb Hi Hx.
    exact (ReplicationControllerListHandler_body_agree h0 _ _ (array items) elems
             i item x rowlocs rows h Harr Hb Hi Hx).
  - unfold ReplicationControllerListHandler_. f_equal.
    apply for_range_ext. intros t rc _. symmetry. apply RCBody_step.
Qed.

End Handlers.

End Agreement.

(** C7 (amended): when the link builder leaves every object that exists
    when it is called as it is, a call of [JobListHandler] or of
    [ReplicationControllerListHandler] in the memory [h0] ends, whether
    it returns, fails or panics, in a memory in which every object of
    [h0] (the list, the array of its items, the maps the items refer to)
    is as it was; and when it returns, the table and every row of it are
    objects that were not in [h0], whose cells are component values.
    The call does return such a table when the handler of section
    [Printers] does on the list read from [h0]: with a link builder that
    answers as [Link.ForObject] of [opts] does on the object read at the
    address it is given, and that does not write, the outcome of the
    call, with the returned table read from the memory after it, is the
    outcome of that handler. *)
Theorem list_handlers_leave_memory_unchanged
    (PtrInt32ToString : option Z → string)
    (printSelectorMap : gmap string string → Component)
    (forObject : memory.loc → string → memory.M Component)
    (list : option memory.loc) (h0 : memory.heap) :
  (∀ object text h, memory.unchanged h (forObject object text h).2) →
  let run := memory.JobListHandler PtrInt32ToString forObject list h0 in
  let run' := memory.ReplicationControllerListHandler printSelectorMap forObject list h0 in
  (memory.unchanged h0 run.2
   ∧ ∀ table, run.1 = Return table → memory.fresh_table h0 run.2 table)
  ∧ (memory.unchanged h0 run'.2
     ∧ ∀ tbl, run'.1 = Return tbl → memory.fresh_table h0 run'.2 tbl)
  ∧ (∀ (U : Type) (opts : Options U) (l : memory.loc),
       list = Some l →
       (∀ object text h,
          forObject object text h
          = (ForObject (Link opts) (memory.readObject h object) text, h)) →
       (∀ jobs, memory.readJobList h0 l = Some jobs →
          memory.readResult run = JobListHandler PtrInt32ToString (Some jobs) opts)
       ∧ (∀ rcs, memory.readRCList h0 l = Some rcs →
            memory.readResult run'
            = ReplicationControllerListHandler printSelectorMap (Some rcs) opts)).
Proof.
  intros Hlink run run'.
  destruct (list_handlers_frame PtrInt32ToString printSelectorMap forObject list h0 Hlink)
    as [HJ HR].
  split; [exact HJ|]. split; [exact HR|].
  intros U opts l -> Hreads. split.
  - intros jobs. by apply JobListHandler_agree.
  - intros rcs. by apply ReplicationControllerListHandler_agree.
Qed.

(** C7, as stated, fails: the link builder is handed the address of the
    loop variable, a copy of the item that shares the item's [Labels]
    map; when it writes to that map, the item of the input list has
    other labels after the call of [JobListHandler] than before, although
    the handler returns a table. *)
Lemma link_builder_can_change_the_items :
  let run := memory.JobListHandler Fixtures.PtrInt32ToString MemoryFixtures.relabel
               (Some MemoryFixtures.jobsAt) MemoryFixtures.h0 in
  MemoryFixtures.h0 !! 2%positive
  = Some (memory.OJobs
            [memory.mkJobValue (Fixtures.job "a" []) (Some MemoryFixtures.labelsAt);
             memory.mkJobValue (Fixtures.job "b" []) (Some MemoryFixtures.labelsAt)])
  ∧ MemoryFixtures.h0 !! MemoryFixtures.labelsAt = Some (memory.OMap {["app" := "demo"]})
  ∧ (∃ table, run.1 = Return table)
  ∧ run.2 !! MemoryFixtures.labelsAt
    = Some (memory.OMap (<["seen" := "yes"]> {["app" := "demo"]}))
  ∧ ¬ memory.unchanged MemoryFixtures.h0 run.2.
Proof.
  intros run.
  assert (run.2 !! MemoryFixtures.labelsAt
          = Some (memory.OMap (<["seen" := "yes"]> {["app" := "demo"]}))) as Hafter.
  { vm_compute. reflexivity. }
  split_and!; [reflexivity|reflexivity| |exact Hafter|].
  - eexists. vm_compute. reflexivity.
  - intros Hun. specialize (Hun MemoryFixtures.labelsAt _ eq_refl).
    rewrite Hafter in Hun.
    apply (f_equal (λ o, match o with
                         | Some (memory.OMap entries) => entries !! "seen"
                         | _ => None
                         end)) in Hun.
    vm_compute in Hun. discriminate Hun.
Qed.

Lemma list_handlers_leave_memory_unchanged_witness :
  let run := memory.JobListHandler Fixtures.PtrInt32ToString MemoryFixtures.forObject
               (Some MemoryFixtures.jobsAt) MemoryFixtures.h0 in
  let run' := memory.ReplicationControllerListHandler Fixtures.printSelectorMap
                MemoryFixtures.forObject (Some MemoryFixtures.rcsAt) MemoryFixtures.h0 in
  (memory.unchanged MemoryFixtures.h0 run.2
   ∧ ∀ table, run.1 = Return table → memory.fresh_table MemoryFixtures.h0 run.2 table)
  ∧ (memory.unchanged MemoryFixtures.h0 run'.2
     ∧ ∀ tbl, run'.1 = Return tbl → memory.fresh_table MemoryFixtures.h0 run'.2 tbl)
  ∧ memory.readResult run
    = JobListHandler Fixtures.PtrInt32ToString
        (Some (mkJobList [Fixtures.job "a" []; Fixtures.job "b" []])) Fixtures.opts
  ∧ memory.readResult run'
    = ReplicationControllerListHandler Fixtures.printSelectorMap
        (Some (mkRCList [Fixtures.rc "r" [] (Some Fixtures.template)])) Fixtures.opts.
Proof.
  intros run run'.
  destruct (list_handlers_leave_memory_unchanged Fixtures.PtrInt32ToString
              Fixtures.printSelectorMap MemoryFixtures.forObject
              (Some MemoryFixtures.jobsAt) MemoryFixtures.h0) as (HJ & _ & HJ').
  { intros object text h l o Hl. exact Hl. }
  destruct (list_handlers_leave_memory_unchanged Fixtures.PtrInt32ToString
              Fixtures.printSelectorMap MemoryFixtures.forObject
              (Some MemoryFixtures.rcsAt) MemoryFixtures.h0) as (_ & HR & HR').
  { intros object text h l o Hl. exact Hl. }
  split; [exact HJ|]. split; [exact HR|]. split.
  - apply (HJ' Job Fixtures.opts MemoryFixtures.jobsAt eq_refl); [|reflexivity].
    intros object text h. reflexivity.
  - apply (HR' Job Fixtures.opts MemoryFixtures.rcsAt eq_refl); [|reflexivity].
    intros object text h. reflexivity.
Defined.

(** On this memory the handlers return the tables that [JobListHandler]
    and [ReplicationControllerListHandler] of section [Printers] return
    for the lists read from it. *)
Example list_handlers_on_memory :
  memory.readJobList MemoryFixtures.h0 MemoryFixtures.jobsAt
  = Some (mkJobList [Fixtures.job "a" []; Fixtures.job "b" []])
  ∧ memory.readResult
      (memory.JobListHandler Fixtures.PtrInt32ToString MemoryFixtures.forObject
         (Some MemoryFixtures.jobsAt) MemoryFixtures.h0)
    = JobListHandler Fixtures.PtrInt32ToString
        (Some (mkJobList [Fixtures.job "a" []; Fixtures.job "b" []])) Fixtures.opts
  ∧ memory.readResult
      (memory.ReplicationControllerListHandler Fixtures.printSelectorMap
         MemoryFixtures.forObject (Some MemoryFixtures.rcsAt) MemoryFixtures.h0)
    = ReplicationControllerListHandler Fixtures.printSelectorMap
        (Some (mkRCList [Fixtures.rc "r" [] (Some Fixtures.template)])) Fixtures.opts.
Proof. split_and!; vm_compute; reflexivity. Qed.
